(** * Smart Ocean Navigation Assistant: the front-end decision logic

    A shallow embedding of the client-side code that turns provider data into
    what the user sees: the safety-verdict simplifier of the AI chat page, the
    high-risk-area pipeline of the hazard page, the hazard panel of the weather
    map, and the validation / analysis state handling of the route planner. *)

From Stdlib Require Import List Bool NArith ZArith Lia String Ascii DecimalN.
From Stdlib Require Import Floats Permutation Sorted.
Import ListNotations.

(* ================================================================== *)
(** * JavaScript strings *)

(** A JavaScript string is a sequence of UTF-16 code units; [String.prototype.match],
    [includes] and [slice] all work on code units. *)
Module JS.

Definition jsstring := list N.

(** Literals are written as UTF-8 text and decoded to code units: a code
    point of the Basic Multilingual Plane is one code unit, a code point above
    it a surrogate pair. *)
Definition codeUnits (cp : N) : jsstring :=
  if (cp <? 65536)%N then [cp]
  else [(55296 + (cp - 65536) / 1024)%N; (56320 + (cp - 65536) mod 1024)%N].

(** [pending] continuation bytes are still to come for the code point whose
    leading bits are [acc]. *)
Fixpoint decode (pending : nat) (acc : N) (bytes : list N) : jsstring :=
  match bytes with
  | [] => []
  | b :: t =>
      match pending with
      | O =>
          if (b <? 128)%N then b :: decode 0 0%N t
          else if (b <? 224)%N then decode 1 (b - 192)%N t
          else if (b <? 240)%N then decode 2 (b - 224)%N t
          else decode 3 (b - 240)%N t
      | S O => codeUnits (acc * 64 + (b - 128))%N ++ decode 0 0%N t
      | S p => decode p (acc * 64 + (b - 128))%N t
      end
  end.

Definition js (s : string) : jsstring :=
  decode 0 0%N (map N_of_ascii (list_ascii_of_string s)).

(** [String.prototype.includes]. *)
Fixpoint isPrefix (p s : jsstring) : bool :=
  match p, s with
  | [], _ => true
  | _ :: _, [] => false
  | a :: p', b :: s' => (a =? b)%N && isPrefix p' s'
  end.

Fixpoint includes (s sub : jsstring) : bool :=
  isPrefix sub s ||
  match s with
  | [] => false
  | _ :: t => includes t sub
  end.

(** [s.slice(0, n)] for a non-negative [n]. *)
Definition slice0 (n : nat) (s : jsstring) : jsstring := firstn n s.

Fixpoint eqb (a b : jsstring) : bool :=
  match a, b with
  | [], [] => true
  | x :: a', y :: b' => (x =? y)%N && eqb a' b'
  | _, _ => false
  end.

(** Line terminators and white space of the language: [String.prototype.trim]
    removes both, [\s] accepts both, and [.] refuses a line terminator. *)
Definition isLineTerminator (c : N) : bool :=
  ((c =? 10) || (c =? 13) || (c =? 8232) || (c =? 8233))%N.

Definition isWhiteSpace (c : N) : bool :=
  ((c =? 9) || (c =? 10) || (c =? 11) || (c =? 12) || (c =? 13) || (c =? 32)
   || (c =? 160) || (c =? 5760) || ((8192 <=? c) && (c <=? 8202))
   || (c =? 8232) || (c =? 8233) || (c =? 8239) || (c =? 8287)
   || (c =? 12288) || (c =? 65279))%N.

Fixpoint dropWhile (p : N -> bool) (s : jsstring) : jsstring :=
  match s with
  | [] => []
  | c :: t => if p c then dropWhile p t else s
  end.

(** [String.prototype.trim]: white space and line terminators are removed
    at both ends. *)
Definition trim (s : jsstring) : jsstring :=
  rev (dropWhile isWhiteSpace (rev (dropWhile isWhiteSpace s))).

(** [s.split(sep)] for a separator of one code unit: the empty string splits
    into one empty piece. *)
Fixpoint split (sep : N) (s : jsstring) : list jsstring :=
  match s with
  | [] => [[]]
  | c :: t =>
      if (c =? sep)%N then [] :: split sep t
      else match split sep t with
           | piece :: rest => (c :: piece) :: rest
           | [] => [[c]]
           end
  end.

(** [pieces.join(sep)] *)
Fixpoint join (sep : jsstring) (pieces : list jsstring) : jsstring :=
  match pieces with
  | [] => []
  | [piece] => piece
  | piece :: rest => piece ++ sep ++ join sep rest
  end.

(** The two built-ins whose full definition lives in the JavaScript engine.
    [toLowerCase] is Unicode lower-casing; [numberToString] is the text a
    template literal prints for the number [parseInt] produced from a run of
    decimal digits with the given value. *)
Class Runtime := {
  toLowerCase : jsstring -> jsstring;
  numberToString : N -> jsstring
}.

End JS.
Export JS.

(* ================================================================== *)
(** * Regular expressions *)

(** The fragment of ECMAScript regular expressions the modelled code uses,
    with the backtracking semantics of the language: alternatives are tried
    left to right, a greedy star tries one more iteration first and a lazy star
    tries the continuation first, an iteration that consumes nothing is
    rejected, and [match] without the [g] flag returns the leftmost match. *)
Module Regex.

(** An item of a character class. *)
Inductive classItem :=
| One (c : N)                           (* a single code unit *)
| Range (lo hi : N)                     (* lo-hi, within ASCII *)
| Spaces.                               (* \s *)

Inductive regex : Type :=
| Eps                                   (* empty pattern *)
| Chr (c : N)                           (* a literal code unit *)
| Dot                                   (* .   (no s flag) *)
| Space                                 (* \s  *)
| Digit                                 (* \d  *)
| Bol                                   (* ^   (no m flag) *)
| Seq (r1 r2 : regex)
| Alt (r1 r2 : regex)
| Star (greedy : bool) (r : regex)      (* r*  and  r*?  *)
| Group (i : nat) (r : regex)           (* the i-th capturing group *)
| Any                                   (* .   under the s flag *)
| Class (negated : bool) (items : list classItem)   (* [...]  and  [^...] *)
| Eol                                   (* $   (no m flag) *)
| Ahead (r : regex).                    (* (?=r) *)

Definition isDigit (c : N) : bool := ((48 <=? c) && (c <=? 57))%N.

(** Canonicalisation under the [i] flag (no [u] flag): a code unit is
    upper-cased, and a code unit outside ASCII is never mapped into ASCII.
    The literals of the patterns below are ASCII letters and caseless symbols,
    for which this amounts to folding [a-z] onto [A-Z]. *)
Definition canon (ignoreCase : bool) (c : N) : N :=
  if ignoreCase && (97 <=? c)%N && (c <=? 122)%N then (c - 32)%N else c.

(** The other case of an ASCII letter. *)
Definition swapCase (c : N) : N :=
  if ((97 <=? c) && (c <=? 122))%N then (c - 32)%N
  else if ((65 <=? c) && (c <=? 90))%N then (c + 32)%N
  else c.

(** A code unit is in a class when some member of the class has the same
    canonical form; for a range within ASCII the only candidates are the code
    unit itself and its other case. *)
Definition inItem (ignoreCase : bool) (item : classItem) (ch : N) : bool :=
  match item with
  | One c => (canon ignoreCase c =? canon ignoreCase ch)%N
  | Range lo hi =>
      ((lo <=? ch) && (ch <=? hi))%N
      || (ignoreCase && ((lo <=? swapCase ch) && (swapCase ch <=? hi))%N)
  | Spaces => isWhiteSpace ch
  end.

Definition inClass (ignoreCase negated : bool) (items : list classItem) (ch : N) : bool :=
  xorb negated (existsb (fun item => inItem ignoreCase item ch) items).

Definition captures := list (nat * jsstring).

Fixpoint capture (i : nat) (c : captures) : option jsstring :=
  match c with
  | [] => None
  | (j, s) :: t => if Nat.eqb i j then Some s else capture i t
  end.

Section Matcher.
Variable ignoreCase : bool.

(** [run r pos s c k]: match [r] against the input suffix [s], which starts
    at offset [pos], with the captures [c] made so far, and hand the rest to
    the continuation [k].  A lookahead is matched on its own, keeps the
    captures of its first match and consumes nothing. *)
Fixpoint run (R : Type) (r : regex) (pos : nat) (s : jsstring) (c : captures)
         (k : nat -> jsstring -> captures -> option R) {struct r} : option R :=
  match r with
  | Eps => k pos s c
  | Chr x =>
      match s with
      | y :: t => if (canon ignoreCase x =? canon ignoreCase y)%N
                  then k (S pos) t c else None
      | [] => None
      end
  | Dot =>
      match s with
      | y :: t => if isLineTerminator y then None else k (S pos) t c
      | [] => None
      end
  | Space =>
      match s with
      | y :: t => if isWhiteSpace y then k (S pos) t c else None
      | [] => None
      end
  | Digit =>
      match s with
      | y :: t => if isDigit y then k (S pos) t c else None
      | [] => None
      end
  | Bol => if Nat.eqb pos 0 then k pos s c else None
  | Seq r1 r2 => run R r1 pos s c (fun p' s' c' => run R r2 p' s' c' k)
  | Alt r1 r2 =>
      match run R r1 pos s c k with
      | Some v => Some v
      | None => run R r2 pos s c k
      end
  | Star greedy r1 =>
      (* every iteration consumes at least one code unit, so the length of
         the input bounds the number of iterations *)
      (fix loop (n : nat) (pos : nat) (s : jsstring) (c : captures) : option R :=
         match n with
         | O => k pos s c
         | S n' =>
             let more :=
               run R r1 pos s c
                   (fun p' s' c' => if Nat.eqb p' pos then None else loop n' p' s' c') in
             if greedy then
               match more with Some v => Some v | None => k pos s c end
             else
               match k pos s c with Some v => Some v | None => more end
         end) (List.length s) pos s c
  | Group i r1 =>
      run R r1 pos s c (fun p' s' c' => k p' s' ((i, firstn (p' - pos) s) :: c'))
  | Any =>
      match s with
      | _ :: t => k (S pos) t c
      | [] => None
      end
  | Class negated items =>
      match s with
      | y :: t => if inClass ignoreCase negated items y then k (S pos) t c else None
      | [] => None
      end
  | Eol =>
      match s with
      | [] => k pos s c
      | _ :: _ => None
      end
  | Ahead r1 =>
      match run captures r1 pos s c (fun _ _ c' => Some c') with
      | Some c' => k pos s c'
      | None => None
      end
  end.
End Matcher.
Arguments run ignoreCase {R} r pos s c k.

(** The result of [String.prototype.match]: where the match starts and ends,
    and the captured groups. *)
Record matchResult := { mStart : nat; mEnd : nat; mGroups : captures }.

Fixpoint search (ignoreCase : bool) (r : regex) (pos : nat) (s : jsstring)
  : option matchResult :=
  match run ignoreCase r pos s []
            (fun p' _ c' => Some {| mStart := pos; mEnd := p'; mGroups := c' |}) with
  | Some m => Some m
  | None =>
      match s with
      | _ :: t => search ignoreCase r (S pos) t
      | [] => None
      end
  end.

(** [s.match(/r/)] and [s.match(/r/i)]. *)
Definition exec (ignoreCase : bool) (r : regex) (s : jsstring) : option matchResult :=
  search ignoreCase r 0 s.

Definition test (ignoreCase : bool) (r : regex) (s : jsstring) : bool :=
  match exec ignoreCase r s with Some _ => true | None => false end.

Definition group (i : nat) (m : matchResult) : jsstring :=
  match capture i (mGroups m) with Some s => s | None => [] end.

(** [s.replace(/r/, '')]: the first match is cut out. *)
Definition removeFirst (ignoreCase : bool) (r : regex) (s : jsstring) : jsstring :=
  match exec ignoreCase r s with
  | Some m => firstn (mStart m) s ++ skipn (mEnd m) s
  | None => s
  end.

(** [s.match(/r/g)]: the matched texts from left to right, each search
    starting where the previous match ended (one code unit further after an
    empty match); [null] is the empty list. *)
Fixpoint matchAllFrom (fuel : nat) (ignoreCase : bool) (r : regex) (pos : nat)
         (s : jsstring) : list jsstring :=
  match fuel with
  | O => []
  | S fuel' =>
      match search ignoreCase r pos s with
      | None => []
      | Some m =>
          let rest := skipn (mStart m - pos) s in
          firstn (mEnd m - mStart m) rest
          :: (if Nat.eqb (mEnd m) (mStart m)
              then match rest with
                   | [] => []
                   | _ :: t => matchAllFrom fuel' ignoreCase r (S (mEnd m)) t
                   end
              else matchAllFrom fuel' ignoreCase r (mEnd m)
                     (skipn (mEnd m - mStart m) rest))
      end
  end.

Definition matchAll (ignoreCase : bool) (r : regex) (s : jsstring) : list jsstring :=
  matchAllFrom (S (List.length s)) ignoreCase r 0 s.

(** Pattern builders. *)
Fixpoint lit (s : jsstring) : regex :=
  match s with
  | [] => Eps
  | [c] => Chr c
  | c :: t => Seq (Chr c) (lit t)
  end.

Definition txt (s : string) : regex := lit (js s).

Fixpoint alts (rs : list regex) : regex :=
  match rs with
  | [] => Eps
  | [r] => r
  | r :: t => Alt r (alts t)
  end.

Fixpoint seqs (rs : list regex) : regex :=
  match rs with
  | [] => Eps
  | [r] => r
  | r :: t => Seq r (seqs t)
  end.

Definition plus (r : regex) : regex := Seq r (Star true r).
Definition plusLazy (r : regex) : regex := Seq r (Star false r).
Definition opt (r : regex) : regex := Alt r Eps.

End Regex.
Import Regex.

(* ================================================================== *)
(** * The safety verdict of the AI chat page *)

Module AIChat.

(** [parseInt] on a run of decimal digits. *)
Definition parseInt (digits : jsstring) : N :=
  fold_left (fun acc d => (acc * 10 + (d - 48))%N) digits 0%N.

(** [toUpperCase] on ASCII text. *)
Definition asciiUpper (s : jsstring) : jsstring :=
  map (fun c => if ((97 <=? c) && (c <=? 122))%N then (c - 32)%N else c) s.

(** ** The patterns of [simplifyBasicGPTResponse], in source order *)

(** [/^✅\s*SAFE\s*-\s*Low Risk for Travel\s*\n*/i] *)
Definition reMisleadingSafeHeader : regex :=
  seqs [Bol; txt "✅"; Star true Space; txt "SAFE"; Star true Space; txt "-";
        Star true Space; txt "Low Risk for Travel"; Star true Space;
        Star true (Chr 10)].

(** [/(?:safe|safety).*?(?:to go|travel|visit)/i] *)
Definition reSafetyQuery : regex :=
  seqs [alts [txt "safe"; txt "safety"]; Star false Dot;
        alts [txt "to go"; txt "travel"; txt "visit"]].

(** [/AFFECTING DISASTERS.*?\((\d+)\s+total\)/i] *)
Definition reAffectingDisasters : regex :=
  seqs [txt "AFFECTING DISASTERS"; Star false Dot; txt "(";
        Group 1 (plus Digit); plus Space; txt "total)"].

(** [/NOT RECOMMENDED|avoid travel|do not recommend|currently assessed as unsafe|exercise caution and avoid/i] *)
Definition reExplicitlyUnsafe : regex :=
  alts [txt "NOT RECOMMENDED"; txt "avoid travel"; txt "do not recommend";
        txt "currently assessed as unsafe"; txt "exercise caution and avoid"].

(** [/^(✅|⚠️|❌)\s*(SAFE|NOT SAFE|UNSAFE)\s*-\s*/i] *)
Definition reMainSafetyVerdict : regex :=
  seqs [Bol; Group 1 (alts [txt "✅"; txt "⚠️"; txt "❌"]); Star true Space;
        Group 2 (alts [txt "SAFE"; txt "NOT SAFE"; txt "UNSAFE"]);
        Star true Space; txt "-"; Star true Space].

(** [/Risk Level:\s*HIGH/i], [.../MEDIUM/i], [.../LOW/i] *)
Definition reRiskLevel (level : string) : regex :=
  seqs [txt "Risk Level:"; Star true Space; txt level].

(** [/Earthquake|Storm|Typhoon|Tsunami|Flood|Hurricane/i] *)
Definition reDisasterKeywords : regex :=
  alts [txt "Earthquake"; txt "Storm"; txt "Typhoon"; txt "Tsunami";
        txt "Flood"; txt "Hurricane"].

(** [/magnitude|m \d+\.\d+/i] *)
Definition reMagnitude : regex :=
  alts [txt "magnitude"; seqs [txt "m "; plus Digit; txt "."; plus Digit]].

(** [/storm|typhoon|hurricane|cyclone/i] *)
Definition reStorm : regex :=
  alts [txt "storm"; txt "typhoon"; txt "hurricane"; txt "cyclone"].

(** [/flood|tsunami/i] *)
Definition reFlood : regex := alts [txt "flood"; txt "tsunami"].

(** [/no (earthquake|disaster|storm|flood|typhoon|hazard)/i] *)
Definition reNoHazard : regex :=
  seqs [txt "no ";
        Group 1 (alts [txt "earthquake"; txt "disaster"; txt "storm"; txt "flood";
                       txt "typhoon"; txt "hazard"])].

(** ** The weather summary (lines 278-295) *)

(** [/Current weather.*?in\s+([^:]+):\s*[-\n\s]*(Temperature:.*?)(?=\n\n|$)/is] *)
Definition reWeather : regex :=
  seqs [txt "Current weather"; Star false Any; txt "in"; plus Space;
        Group 1 (plus (Class true [One 58])); txt ":"; Star true Space;
        Star true (Class false [One 45; One 10; Spaces]);
        Group 2 (Seq (txt "Temperature:") (Star false Any));
        Ahead (Alt (lit [10; 10]%N) Eol)].

Definition essentialLabels : list jsstring :=
  [js "Temperature:"; js "Condition:"; js "Wind:"; js "Humidity:"; js "Pressure:";
   js "Visibility:"; js "Wave Height:"].

Definition isBlank (line : jsstring) : bool :=
  match trim line with [] => true | _ :: _ => false end.

(** The text the weather branch returns, when it returns. *)
Definition weatherSummary (response : jsstring) : option jsstring :=
  match exec true reWeather response with
  | Some weatherMatch =>
      let lines :=
        filter (fun line => negb (isBlank line)) (split 10 (group 2 weatherMatch)) in
      let essentialWeather :=
        join [10]%N
          (filter (fun line => existsb (includes line) essentialLabels) lines) in
      match essentialWeather with
      | [] => None
      | _ :: _ =>
          Some (js "Current weather in " ++ trim (group 1 weatherMatch) ++ js ":"
                ++ [10]%N ++ essentialWeather)
      end
  | None => None
  end.

(** ** The route summary (lines 297-317) *)

(** [/(?:BEST ROUTE|Route Analysis).*?from\s+(.+?)\s+to\s+(.+?):\s*(.*?)(?=\n\n[A-Z]|$)/is] *)
Definition reRoute : regex :=
  seqs [alts [txt "BEST ROUTE"; txt "Route Analysis"]; Star false Any; txt "from";
        plus Space; Group 1 (plusLazy Any); plus Space; txt "to"; plus Space;
        Group 2 (plusLazy Any); txt ":"; Star true Space; Group 3 (Star false Any);
        Ahead (Alt (Seq (lit [10; 10]%N) (Class false [Range 65 90])) Eol)].

(** [/Distance:\s*([^\n]+)/i] and its three siblings. *)
Definition reRouteField (label : string) : regex :=
  seqs [txt label; Star true Space; Group 1 (plus (Class true [One 10]))].

(** [routeContent.match(/<label>\s*([^\n]+)/i)?.[1] || ''] *)
Definition routeField (label : string) (routeContent : jsstring) : jsstring :=
  match exec true (reRouteField label) routeContent with
  | Some m => group 1 m
  | None => []
  end.

(** [${value ? `<prefix>${value}` : ''}] *)
Definition routeLine (prefix : string) (value : jsstring) : jsstring :=
  match value with
  | [] => []
  | _ :: _ => js prefix ++ value
  end.

(** The text the route branch returns, when it returns. *)
Definition routeSummary (response : jsstring) : option jsstring :=
  match exec true reRoute response with
  | Some routeMatch =>
      let routeContent := group 3 routeMatch in
      let distance := routeField "Distance:" routeContent in
      let routeDesc := routeField "Route Description:" routeContent in
      let time := routeField "Estimated Time:" routeContent in
      let speed := routeField "Speed Analysis:" routeContent in
      match distance, routeDesc with
      | [], [] => None
      | _, _ =>
          Some (trim (js "BEST ROUTE from " ++ trim (group 1 routeMatch) ++ js " to "
                      ++ trim (group 2 routeMatch) ++ js ":" ++ [10]%N
                      ++ js "        " ++ [10]%N
                      ++ js "📏 ROUTE SPECIFICATIONS:" ++ [10]%N
                      ++ routeLine "- Distance: " distance ++ [10]%N
                      ++ routeLine "- Route Description: " routeDesc ++ [10]%N
                      ++ routeLine "- Estimated Time: " time ++ [10]%N
                      ++ routeLine "- Speed Analysis: " speed))
      end
  | None => None
  end.

(** ** The disaster digest (lines 319-393) *)

Definition isDisasterDigest (response : jsstring) : bool :=
  includes response (js "CURRENT GLOBAL DISASTERS")
  || includes response (js "EARTHQUAKES")
  || includes response (js "STORMS")
  || includes response (js "FLOODS").

(** [/🌍 EARTHQUAKES:(.*?)(?=🌊|💧|🔥|📊|$)/s] *)
Definition reEarthquakeSection : regex :=
  seqs [txt "🌍 EARTHQUAKES:"; Group 1 (Star false Any);
        Ahead (alts [txt "🌊"; txt "💧"; txt "🔥"; txt "📊"; Eol])].

(** [/🌊 STORMS & TYPHOONS:(.*?)(?=💧|🔥|📊|$)/s] *)
Definition reStormSection : regex :=
  seqs [txt "🌊 STORMS & TYPHOONS:"; Group 1 (Star false Any);
        Ahead (alts [txt "💧"; txt "🔥"; txt "📊"; Eol])].

(** [/💧 FLOODS & WATER HAZARDS:(.*?)(?=🔥|📊|$)/s] *)
Definition reFloodSection : regex :=
  seqs [txt "💧 FLOODS & WATER HAZARDS:"; Group 1 (Star false Any);
        Ahead (alts [txt "🔥"; txt "📊"; Eol])].

(** [/🔥 OTHER NATURAL DISASTERS:(.*?)(?=📊|$)/s] *)
Definition reOtherSection : regex :=
  seqs [txt "🔥 OTHER NATURAL DISASTERS:"; Group 1 (Star false Any);
        Ahead (alts [txt "📊"; Eol])].

(** [response.match(section)?.[1]]; these patterns carry no [i] flag. *)
Definition sectionBody (section : regex) (response : jsstring) : option jsstring :=
  match exec false section response with
  | Some m => Some (group 1 m)
  | None => None
  end.

(** [/• M \d+\.?\d*.*?(?=\n  Occurred:.*?\n)/gs] *)
Definition reEarthquake : regex :=
  seqs [txt "• M "; plus Digit; opt (Chr 46); Star true Digit; Star false Any;
        Ahead (seqs [Chr 10; txt "  Occurred:"; Star false Any; Chr 10])].

(** [new RegExp(escaped + '\\s*\\n\\s*Occurred: ([^\\n]+)')], where [escaped] is
    [cleanEq] with every syntax character escaped, so that it matches
    [cleanEq] itself. *)
Definition reOccurred (cleanEq : jsstring) : regex :=
  seqs [lit cleanEq; Star true Space; Chr 10; Star true Space; txt "Occurred: ";
        Group 1 (plus (Class true [One 10]))].

(** [/• [^\n]+/g] *)
Definition reBullet : regex := seqs [txt "• "; plus (Class true [One 10])].

(** The lines of the earthquake section (lines 327-339). *)
Definition earthquakeLines (body : jsstring) : jsstring :=
  match matchAll false reEarthquake body with
  | [] => js "• No significant earthquakes reported" ++ [10]%N
  | earthquakes =>
      List.concat
        (map (fun eq =>
                let cleanEq := trim eq in
                cleanEq ++ [10]%N
                ++ match exec false (reOccurred cleanEq) body with
                   | Some occuredMatch =>
                       js "  Occurred: " ++ group 1 occuredMatch ++ [10]%N
                   | None => []
                   end)
             (firstn 9 earthquakes))
  end.

(** The lines of a storm, flood or other section (lines 347-356 and the two
    blocks after it). *)
Definition bulletLines (noneMarker noneLine : string) (body : jsstring) : jsstring :=
  if includes body (js noneMarker) then js noneLine ++ [10; 10]%N
  else List.concat (map (fun entry => entry ++ [10]%N) (matchAll false reBullet body))
       ++ [10]%N.

Definition disasterDigest (response : jsstring) : jsstring :=
  trim
    (js "🌪️ CURRENT GLOBAL DISASTERS:" ++ [10; 10]%N
     ++ match sectionBody reEarthquakeSection response with
        | Some body => js "🌍 EARTHQUAKES:" ++ [10]%N ++ earthquakeLines body ++ [10]%N
        | None => []
        end
     ++ match sectionBody reStormSection response with
        | Some body =>
            js "🌊 STORMS & TYPHOONS:" ++ [10]%N
            ++ bulletLines "No active storm" "• No active storm or typhoon alerts at the moment" body
        | None => []
        end
     ++ match sectionBody reFloodSection response with
        | Some body =>
            js "💧 FLOODS & WATER HAZARDS:" ++ [10]%N
            ++ bulletLines "No active flood" "• No active flood or water hazard alerts currently reported" body
        | None => []
        end
     ++ match sectionBody reOtherSection response with
        | Some body =>
            js "🔥 OTHER NATURAL DISASTERS:" ++ [10]%N
            ++ bulletLines "No other natural disasters" "• No other natural disasters ongoing" body
        | None => []
        end
     ++ js "📊 DATA SOURCES: global_disaster_monitor").

(** ** The verdict texts *)

Definition unsafeActiveDisasters `{Runtime} (disasterCount : N) : jsstring :=
  js "❌ UNSAFE - " ++ numberToString disasterCount
     ++ js " active disaster(s) affecting this location".
Definition unsafeNotRecommended : jsstring := js "❌ UNSAFE - Travel not recommended".
Definition unsafeHeader : jsstring := js "❌ UNSAFE - Travel to this location".
Definition notSafeHeader : jsstring := js "⚠️ NOT SAFE - Exercise caution".
Definition safeLowRisk : jsstring := js "✅ SAFE - Low Risk for Travel".
Definition unsafeHighRisk : jsstring := js "❌ UNSAFE - High Risk for Travel".
Definition notSafeMediumHazards : jsstring :=
  js "⚠️ NOT SAFE - Medium risk with active hazards".
Definition safeMediumRisk : jsstring :=
  js "⚠️ SAFE - Medium Risk (Exercise Caution)".
Definition unsafeEarthquake : jsstring := js "❌ UNSAFE - Active earthquake reported".
Definition unsafeStorm : jsstring := js "❌ UNSAFE - Active storm/typhoon reported".
Definition notSafeFlood : jsstring :=
  js "⚠️ NOT SAFE - Active flood/water hazard reported".
Definition unclear (response : jsstring) : jsstring :=
  js "ℹ️⚠️ Safety assessment unclear - please review details:" ++ [10; 10]%N
     ++ slice0 300 response ++ js "...".

(** ** Reading a verdict header (lines 413-427) *)

Inductive tier := SAFE | NOT_SAFE | UNSAFE.

(** The icon and the upper-cased verdict word of a text that opens with a
    verdict header. *)
Definition mainSafetyVerdict (response : jsstring) : option (jsstring * jsstring) :=
  match exec true reMainSafetyVerdict response with
  | Some m => Some (group 1 m, asciiUpper (group 2 m))
  | None => None
  end.

Definition headerTier (icon verdict : jsstring) : tier :=
  if JS.eqb icon (js "❌") || includes verdict (js "UNSAFE") then UNSAFE
  else if JS.eqb icon (js "⚠️") || includes verdict (js "NOT SAFE") then NOT_SAFE
  else SAFE.

Definition tierText (t : tier) : jsstring :=
  match t with
  | UNSAFE => unsafeHeader
  | NOT_SAFE => notSafeHeader
  | SAFE => safeLowRisk
  end.

(** ** The classifier (lines 396-470) *)

Definition disasterCount (response : jsstring) : N :=
  match exec true reAffectingDisasters response with
  | Some m => parseInt (group 1 m)
  | None => 0%N
  end.

Definition explicitlyUnsafe (response : jsstring) : bool :=
  test true reExplicitlyUnsafe response.

Definition hasHighRisk (response : jsstring) : bool :=
  test true (reRiskLevel "HIGH") response.
Definition hasMediumRisk (response : jsstring) : bool :=
  test true (reRiskLevel "MEDIUM") response.
Definition hasLowRisk (response : jsstring) : bool :=
  test true (reRiskLevel "LOW") response.
Definition hasDisasterKeywords (response : jsstring) : bool :=
  test true reDisasterKeywords response.

Section Classifier.
Context {rt : Runtime}.

(** STEP 4 and STEP 5: the keyword fallback on the lower-cased response. *)
Definition fallback (response : jsstring) : jsstring :=
  let responseLower := toLowerCase response in
  if includes responseLower (js "earthquake") && test true reMagnitude responseLower
  then unsafeEarthquake
  else if test true reStorm responseLower
          && negb (includes responseLower (js "no active storm"))
  then unsafeStorm
  else if test true reFlood responseLower
          && negb (includes responseLower (js "no flood"))
  then notSafeFlood
  else if test true reNoHazard responseLower
          || includes responseLower (js "safe to")
          || includes responseLower (js "currently safe")
  then safeLowRisk
  else unclear response.

(** STEP 3: the risk level indicators. *)
Definition riskLevelVerdict (response : jsstring) : jsstring :=
  if hasHighRisk response then unsafeHighRisk
  else if hasMediumRisk response then
    if hasDisasterKeywords response then notSafeMediumHazards else safeMediumRisk
  else if hasLowRisk response then safeLowRisk
  else fallback response.

(** The body of the country-safety branch. *)
Definition classifySafety (response : jsstring) : jsstring :=
  if (0 <? disasterCount response)%N then
    unsafeActiveDisasters (disasterCount response)
  else if explicitlyUnsafe response then unsafeNotRecommended
  else
    match mainSafetyVerdict response with
    | Some (icon, verdict) => tierText (headerTier icon verdict)
    | None => riskLevelVerdict response
    end.

(** The guard of the country-safety branch (line 396). *)
Definition isSafetyQuery (response : jsstring) : bool :=
  test true reSafetyQuery response
  || includes response (js "Risk Level:")
  || includes response (js "INTELLIGENT SAFETY ANALYSIS").

Definition simplifyBasicGPTResponse (response modelUsed : jsstring) : jsstring :=
  if negb (JS.eqb modelUsed (js "basic")) then
    if includes response (js "Safety Status: ❌ UNSAFE")
       || includes response (js "Risk Level: HIGH")
    then removeFirst true reMisleadingSafeHeader response
    else response
  else
    match weatherSummary response with
    | Some text => text
    | None =>
        match routeSummary response with
        | Some text => text
        | None =>
            if isDisasterDigest response then disasterDigest response
            else if isSafetyQuery response then classifySafety response
            else response
        end
    end.
End Classifier.

(** A runtime for evaluation: it agrees with the engine on ASCII text and on
    counts that a double holds exactly (below 2^53). *)
Fixpoint uintDigits (d : Decimal.uint) : jsstring :=
  match d with
  | Decimal.Nil => []
  | Decimal.D0 t => 48%N :: uintDigits t
  | Decimal.D1 t => 49%N :: uintDigits t
  | Decimal.D2 t => 50%N :: uintDigits t
  | Decimal.D3 t => 51%N :: uintDigits t
  | Decimal.D4 t => 52%N :: uintDigits t
  | Decimal.D5 t => 53%N :: uintDigits t
  | Decimal.D6 t => 54%N :: uintDigits t
  | Decimal.D7 t => 55%N :: uintDigits t
  | Decimal.D8 t => 56%N :: uintDigits t
  | Decimal.D9 t => 57%N :: uintDigits t
  end.

Definition asciiLower (s : jsstring) : jsstring :=
  map (fun c => if ((65 <=? c) && (c <=? 90))%N then (c + 32)%N else c) s.

(** The decimal digits of a number. *)
Definition decimal (n : N) : jsstring := uintDigits (N.to_uint n).

Definition asciiRuntime : Runtime :=
  {| toLowerCase := asciiLower; numberToString := decimal |}.

End AIChat.

(* ================================================================== *)
(** * The high-risk areas of the hazard page *)

Module HazardAlerts.

Open Scope float_scope.

(** An entry of the high-risk list.  Coordinates are JavaScript numbers, that
    is binary64 floats; a missing coordinate behaves as NaN in the arithmetic
    below.  [issued] is the observed/issued time a provider may attach; no
    statement of the page reads it. *)
Record area := {
  name : string;
  lat : float;
  lon : float;
  display_name : string;
  severity : string;
  description : string;
  source : string;
  issued : option Z
}.

(** JavaScript truthiness of a number: neither zero nor NaN. *)
Definition truthy (x : float) : bool := negb (x =? 0) && negb (is_nan x).

(** [Array.prototype.findIndex]: the first index whose element satisfies the
    predicate, [-1] when there is none. *)
Fixpoint findIndexFrom {A : Type} (p : A -> bool) (i : Z) (l : list A) : Z :=
  match l with
  | [] => (-1)%Z
  | x :: t => if p x then i else findIndexFrom p (i + 1)%Z t
  end.

Definition findIndex {A : Type} (p : A -> bool) (l : list A) : Z :=
  findIndexFrom p 0%Z l.

(** [Array.prototype.filter] with the [(element, index, self)] callback. *)
Fixpoint filterFrom {A : Type} (p : A -> Z -> list A -> bool) (self : list A)
         (i : Z) (l : list A) : list A :=
  match l with
  | [] => []
  | x :: t =>
      if p x i self then x :: filterFrom p self (i + 1)%Z t
      else filterFrom p self (i + 1)%Z t
  end.

Definition filterIndexed {A : Type} (p : A -> Z -> list A -> bool) (l : list A)
  : list A := filterFrom p l 0%Z l.

(** [Math.abs(a.lat - area.lat) < 0.5 && Math.abs(a.lon - area.lon) < 0.5] *)
Definition near (a area : area) : bool :=
  (abs (lat a - lat area) <? 0.5) && (abs (lon a - lon area) <? 0.5).

(** "Remove duplicates based on coordinates" (lines 1805-1810). *)
Definition uniqueAreas (allHighRiskAreas : list area) : list area :=
  filterIndexed
    (fun area index self => (index =? findIndex (fun a => near a area) self)%Z)
    allHighRiskAreas.

(** What [severityOrder[s]] looks up in the object literal
    [{ 'EXTREME': 0, 'SEVERE': 1, 'MODERATE': 2, 'MINOR': 3 }]: the number of
    an own key, a member inherited from [Object.prototype] (a function, or
    the prototype itself for ['__proto__']), or [undefined]. *)
Inductive lookup :=
| Own (n : Z)
| Inherited
| Undefined.

(** The property names of [Object.prototype]. *)
Definition objectPrototypeMembers : list string :=
  ["constructor"; "hasOwnProperty"; "isPrototypeOf"; "propertyIsEnumerable";
   "toLocaleString"; "toString"; "valueOf"; "__proto__"; "__defineGetter__";
   "__defineSetter__"; "__lookupGetter__"; "__lookupSetter__"]%string.

Definition severityOrder (s : string) : lookup :=
  if String.eqb s "EXTREME" then Own 0%Z
  else if String.eqb s "SEVERE" then Own 1%Z
  else if String.eqb s "MODERATE" then Own 2%Z
  else if String.eqb s "MINOR" then Own 3%Z
  else if existsb (String.eqb s) objectPrototypeMembers then Inherited
  else Undefined.

(** [v || 99]: [undefined] and [0] are falsy, an object is truthy and stays.
    The value is a number, or ([None]) an object. *)
Definition orDefault (v : lookup) (d : Z) : option Z :=
  match v with
  | Own n => if (n =? 0)%Z then Some d else Some n
  | Inherited => None
  | Undefined => Some d
  end.

Definition severityKey (a : area) : option Z :=
  orDefault (severityOrder (severity a)) 99%Z.

(** The comparator of line 1815.  A difference with an object operand is
    [NaN], written [None]. *)
Definition compareSeverity (a b : area) : option Z :=
  match severityKey a, severityKey b with
  | Some x, Some y => Some (x - y)%Z
  | _, _ => None
  end.

(** The stable ordering by a numeric key, computed by insertion: an element
    goes in front of the first later element it does not compare greater
    than. *)
Fixpoint insertSorted {A : Type} (cmp : A -> A -> Z) (a : A) (l : list A) : list A :=
  match l with
  | [] => [a]
  | b :: t => if (cmp a b <=? 0)%Z then a :: b :: t else b :: insertSorted cmp a t
  end.

Definition sort {A : Type} (cmp : A -> A -> Z) (l : list A) : list A :=
  fold_right (insertSorted cmp) [] l.

(** [Array.prototype.sort] with a comparator lives in the JavaScript engine.
    The language fixes its result only for a consistent comparator; for a
    comparator that returns [NaN] on some pairs the order is left to the
    engine. *)
Class Engine := {
  arraySort : forall A : Type, (A -> A -> option Z) -> list A -> list A
}.
Arguments arraySort {Engine A} cmp l.

(** What every engine does: the result is a rearrangement of the input; for a
    comparator that is the difference of a numeric key on the elements of the
    list it is the stable ordering by that key (ECMAScript 2019); and the sort
    sees its elements through the comparator only. *)
Record lawful (engine : Engine) : Prop := {
  sort_rearranges :
    forall (A : Type) (cmp : A -> A -> option Z) (l : list A),
      Permutation l (arraySort cmp l);
  sort_by_key :
    forall (A : Type) (key : A -> Z) (cmp : A -> A -> option Z) (l : list A),
      (forall a b, In a l -> In b l -> cmp a b = Some (key a - key b)%Z) ->
      arraySort cmp l = sort (fun a b => (key a - key b)%Z) l;
  sort_natural :
    forall (A B : Type) (f : A -> B) (cmpA : A -> A -> option Z)
           (cmpB : B -> B -> option Z) (l : list A),
      (forall a b, cmpB (f a) (f b) = cmpA a b) ->
      arraySort cmpB (map f l) = map f (arraySort cmpA l)
}.

(** An engine for evaluation: insertion, with [NaN] read as [+0] as the
    language prescribes for the result of a comparator. *)
Definition insertionEngine : Engine :=
  {| arraySort := fun A cmp =>
       sort (fun a b => match cmp a b with Some d => d | None => 0%Z end) |}.

Section Pipeline.
Context {engine : Engine}.

Definition sortedAreas (uniqueAreas : list area) : list area :=
  arraySort compareSeverity uniqueAreas.

(** [sortedAreas.slice(0, 15)] *)
Definition topAreas (sortedAreas : list area) : list area := firstn 15 sortedAreas.

(** Lines 1802-1819: combine, de-duplicate, sort, cut. *)
Definition combineHighRisk (currentLocationHighRisk globalHighRiskAreas : list area)
  : list area :=
  topAreas (sortedAreas (uniqueAreas (currentLocationHighRisk ++ globalHighRiskAreas))).

(** The reply of [/alerts/comprehensive], as far as it is read. *)
Record locationAlert := { alertSeverity : string }.
Record comprehensive := {
  highest_severity : string;
  alerts : list locationAlert
}.

(** The three texts of an entry built for the selected location (template
    literals over the location name, the alert count and the first alert). *)
Record entryText := { etName : string; etDisplay : string; etDescription : string }.

Definition mkArea (t : entryText) (latitude longitude : float) (sev src : string) : area :=
  {| name := etName t; lat := latitude; lon := longitude;
     display_name := etDisplay t; severity := sev;
     description := etDescription t; source := src; issued := None |}.

(** Lines 1737-1779: the entries for the selected location. *)
Definition currentLocationEntries (summaryText alertText : entryText)
           (latitude longitude : float) (data : comprehensive) : list area :=
  let isExtreme := String.eqb (highest_severity data) "extreme" in
  let isSevere := String.eqb (highest_severity data) "severe" in
  if isExtreme || isSevere then
    let summaryEntry :=
      mkArea summaryText latitude longitude
             (if isExtreme then "EXTREME" else "SEVERE") "Your Location" in
    let extremeAlerts :=
      filter (fun a => String.eqb (alertSeverity a) "extreme") (alerts data) in
    let severeAlerts :=
      filter (fun a => String.eqb (alertSeverity a) "severe") (alerts data) in
    match extremeAlerts, severeAlerts with
    | _ :: _, _ =>
        [summaryEntry; mkArea alertText latitude longitude "EXTREME" "Your Location Alert"]
    | [], _ :: _ =>
        [summaryEntry; mkArea alertText latitude longitude "SEVERE" "Your Location Alert"]
    | [], [] => [summaryEntry]
    end
  else [].

(** [fetchCurrentHighRiskAreas]: the list handed to [setCurrentHighRiskAreas].
    A reply is [None] when the request threw or was not [ok]. *)
Definition fetchCurrentHighRiskAreas (token : option string)
           (latitude longitude : float) (summaryText alertText : entryText)
           (currentReply : option comprehensive)
           (globalReply : option (list area)) : list area :=
  match token with
  | None | Some EmptyString => []
  | Some _ =>
      let currentLocationHighRisk :=
        if truthy latitude && truthy longitude then
          match currentReply with
          | Some data => currentLocationEntries summaryText alertText latitude longitude data
          | None => []
          end
        else [] in
      match globalReply with
      | Some globalHighRiskAreas =>
          combineHighRisk currentLocationHighRisk globalHighRiskAreas
      | None =>
          match currentLocationHighRisk with
          | _ :: _ => currentLocationHighRisk
          | [] => []
          end
      end
  end.

End Pipeline.

Close Scope float_scope.

End HazardAlerts.

(* ================================================================== *)
(** * The hazard panel of the weather map *)

Module WeatherMap.

Record alert := {
  severity : string;
  event : string;
  description : string;
  advice : option string;
  source : string
}.

(** What the handler reads from a rejected request:
    [error.response?.status] and [error.response?.data?.detail]. *)
Record requestError := { status : option Z; detail : option string }.

(** The reply of [/alerts/quick]: [response.data.top_alerts] may be absent. *)
Record quickReply := { top_alerts : option (list alert) }.

Inductive toast :=
| SevereAlertsFound (n : nat)       (* "N severe alert(s) found for this location" *)
| PleaseLogin                       (* "Please login to view hazard alerts." *)
| Detail (text : string).           (* the server's own message *)

Record state := {
  isAuthenticated : bool;
  hazardAlerts : list alert;
  alertsLoading : bool;
  toasts : list toast
}.

Definition setHazardAlerts (v : list alert) (st : state) : state :=
  {| isAuthenticated := isAuthenticated st; hazardAlerts := v;
     alertsLoading := alertsLoading st; toasts := toasts st |}.
Definition setAlertsLoading (v : bool) (st : state) : state :=
  {| isAuthenticated := isAuthenticated st; hazardAlerts := hazardAlerts st;
     alertsLoading := v; toasts := toasts st |}.
Definition toastError (t : toast) (st : state) : state :=
  {| isAuthenticated := isAuthenticated st; hazardAlerts := hazardAlerts st;
     alertsLoading := alertsLoading st; toasts := toasts st ++ [t] |}.

Definition isSevere (a : alert) : bool :=
  String.eqb (severity a) "severe" || String.eqb (severity a) "extreme".

Definition nonEmpty (s : option string) : option string :=
  match s with
  | Some EmptyString | None => None
  | Some d => Some d
  end.

(** [error.response?.status === code] *)
Definition statusIs (e : requestError) (code : Z) : bool :=
  match status e with Some s => (s =? code)%Z | None => false end.

(** [fetchHazardAlerts(lat, lng)] run to completion on the outcome of the
    request: the [try] block on a reply, the [catch] block on an error, the
    [finally] block after either. *)
Definition fetchHazardAlerts (lat lng : float) (outcome : quickReply + requestError)
           (st : state) : state :=
  if negb (HazardAlerts.truthy lat) || negb (HazardAlerts.truthy lng) then st
  else if negb (isAuthenticated st) then setHazardAlerts [] st
  else
    let st1 := setAlertsLoading true st in
    let st2 :=
      match outcome with
      | inl response =>
          let alerts := match top_alerts response with Some l => l | None => [] end in
          let st' := setHazardAlerts alerts st1 in
          let severeAlerts := filter isSevere alerts in
          match severeAlerts with
          | _ :: _ => toastError (SevereAlertsFound (List.length severeAlerts)) st'
          | [] => st'
          end
      | inr error =>
          let st' :=
            if statusIs error 401 then toastError PleaseLogin st1
            else
              match (if statusIs error 403 then nonEmpty (detail error) else None) with
              | Some d => toastError (Detail d) st1
              | None => st1
              end in
          setHazardAlerts [] st'
      end in
    setAlertsLoading false st2.

(** The body of the "Hazard Alerts" card (lines 767-815). *)
Inductive panel :=
| LoadingAlerts
| AlertCards (cards : list alert)
| NoActiveAlerts.                   (* "No active alerts for this location" *)

Definition renderHazardPanel (st : state) : panel :=
  if alertsLoading st then LoadingAlerts
  else match hazardAlerts st with
       | _ :: _ => AlertCards (hazardAlerts st)
       | [] => NoActiveAlerts
       end.

End WeatherMap.

(* ================================================================== *)
(** * The route planner *)

Module RouteAnalysis.

Record point := {
  lat : float;
  lng : float;
  name : option string;
  type : option string
}.

(** The reply of [/harbors/nearest]. *)
Record harbor := { hLat : float; hLon : float; hName : string }.

Record nearestInfo := { nhName : string; nhDistanceKm : float }.

(** The reply of [/harbors/validate]. *)
Record validation := {
  is_valid : bool;
  is_land : bool;
  message : string;
  nearest_harbor : option nearestInfo
}.

(** What a [catch] block reads from the error it caught. *)
Record requestError := {
  errName : string;
  errCode : option string;
  errStatus : option Z;
  errDetail : option string
}.

Definition reply (A : Type) : Type := (A + requestError)%type.

(** The notifications, by the text they show. *)
Inductive toast :=
| LoginFirst                 (* "Please login first" *)
| SelectBoth                 (* "Select both start and end harbors" *)
| MustBeValidHarbors         (* "Both start and end points must be valid harbors" *)
| LoadingRoute               (* "Calculating optimal maritime route..." *)
| AnalysisComplete           (* "Advanced route analysis complete!" *)
| CancelledByUser            (* "Route analysis cancelled by user" *)
| CancelledSuccessfully      (* "Analysis cancelled successfully" *)
| TimedOut                   (* "Analysis timed out. ..." *)
| ServerError (text : string)       (* "<detail>. Please try again or contact support." *)
| AnalysisFailed (text : string)    (* "<detail>" *)
| SnappedTo (harborName : string)   (* "Snapped to nearest harbor: <name>" *)
| StartSnapped (harborName : string)
| EndSnapped (harborName : string)
| StartResetSnapped
| CannotSelectLand (lat lng : float)
| WaterNotNearHarbor (lat lng : float)
| StartSelected | EndSelected
| StartSet | EndSet | StartReset
| LoadedAsDeparture (locationName : option string)
    (* "Location from map loaded as departure point: <name>" *)
| LoadedAsDestination (locationName : option string).
    (* "Location from map loaded as destination: <name>" *)

(** An error that leaves a handler uncaught. *)
Inductive exception := TypeError.

(** The component state that the handlers below read and write (the map view
    and the vessel form are left out).  An [AbortController] is an object with
    identity: [abortController] holds the one of the run in flight, [aborted]
    lists the controllers whose [abort()] has been called.  [toasts] and
    [uncaught] log what the handlers show and what they throw. *)
Record state := {
  token : option string;
  startPoint : option point;
  endPoint : option point;
  startValidation : option validation;
  endValidation : option validation;
  analyzing : bool;
  analysisResult : option string;      (* [response.data] of the last analysis *)
  abortController : option nat;
  aborted : list nat;
  nextController : nat;
  toasts : list toast;
  uncaught : list exception
}.

Definition setStartPoint (v : option point) (st : state) : state :=
  {| token := token st; startPoint := v; endPoint := endPoint st;
     startValidation := startValidation st; endValidation := endValidation st;
     analyzing := analyzing st; analysisResult := analysisResult st;
     abortController := abortController st; aborted := aborted st;
     nextController := nextController st; toasts := toasts st; uncaught := uncaught st |}.
Definition setEndPoint (v : option point) (st : state) : state :=
  {| token := token st; startPoint := startPoint st; endPoint := v;
     startValidation := startValidation st; endValidation := endValidation st;
     analyzing := analyzing st; analysisResult := analysisResult st;
     abortController := abortController st; aborted := aborted st;
     nextController := nextController st; toasts := toasts st; uncaught := uncaught st |}.
Definition setStartValidation (v : option validation) (st : state) : state :=
  {| token := token st; startPoint := startPoint st; endPoint := endPoint st;
     startValidation := v; endValidation := endValidation st;
     analyzing := analyzing st; analysisResult := analysisResult st;
     abortController := abortController st; aborted := aborted st;
     nextController := nextController st; toasts := toasts st; uncaught := uncaught st |}.
Definition setEndValidation (v : option validation) (st : state) : state :=
  {| token := token st; startPoint := startPoint st; endPoint := endPoint st;
     startValidation := startValidation st; endValidation := v;
     analyzing := analyzing st; analysisResult := analysisResult st;
     abortController := abortController st; aborted := aborted st;
     nextController := nextController st; toasts := toasts st; uncaught := uncaught st |}.
Definition setAnalyzing (v : bool) (st : state) : state :=
  {| token := token st; startPoint := startPoint st; endPoint := endPoint st;
     startValidation := startValidation st; endValidation := endValidation st;
     analyzing := v; analysisResult := analysisResult st;
     abortController := abortController st; aborted := aborted st;
     nextController := nextController st; toasts := toasts st; uncaught := uncaught st |}.
Definition setAnalysisResult (v : option string) (st : state) : state :=
  {| token := token st; startPoint := startPoint st; endPoint := endPoint st;
     startValidation := startValidation st; endValidation := endValidation st;
     analyzing := analyzing st; analysisResult := v;
     abortController := abortController st; aborted := aborted st;
     nextController := nextController st; toasts := toasts st; uncaught := uncaught st |}.
Definition setAbortController (v : option nat) (st : state) : state :=
  {| token := token st; startPoint := startPoint st; endPoint := endPoint st;
     startValidation := startValidation st; endValidation := endValidation st;
     analyzing := analyzing st; analysisResult := analysisResult st;
     abortController := v; aborted := aborted st;
     nextController := nextController st; toasts := toasts st; uncaught := uncaught st |}.
(** [new AbortController()] *)
Definition newController (st : state) : nat * state :=
  (nextController st,
   {| token := token st; startPoint := startPoint st; endPoint := endPoint st;
      startValidation := startValidation st; endValidation := endValidation st;
      analyzing := analyzing st; analysisResult := analysisResult st;
      abortController := abortController st; aborted := aborted st;
      nextController := S (nextController st); toasts := toasts st; uncaught := uncaught st |}).
(** [controller.abort()] *)
Definition abort (controller : nat) (st : state) : state :=
  {| token := token st; startPoint := startPoint st; endPoint := endPoint st;
     startValidation := startValidation st; endValidation := endValidation st;
     analyzing := analyzing st; analysisResult := analysisResult st;
     abortController := abortController st; aborted := controller :: aborted st;
     nextController := nextController st; toasts := toasts st; uncaught := uncaught st |}.
(** An exception that ends the handler: nothing of the handler runs after it. *)
Definition throw (e : exception) (st : state) : state :=
  {| token := token st; startPoint := startPoint st; endPoint := endPoint st;
     startValidation := startValidation st; endValidation := endValidation st;
     analyzing := analyzing st; analysisResult := analysisResult st;
     abortController := abortController st; aborted := aborted st;
     nextController := nextController st; toasts := toasts st;
     uncaught := uncaught st ++ [e] |}.
Definition notify (t : toast) (st : state) : state :=
  {| token := token st; startPoint := startPoint st; endPoint := endPoint st;
     startValidation := startValidation st; endValidation := endValidation st;
     analyzing := analyzing st; analysisResult := analysisResult st;
     abortController := abortController st; aborted := aborted st;
     nextController := nextController st; toasts := toasts st ++ [t]; uncaught := uncaught st |}.

(** ** Harbor validation (lines 223-262) *)

Definition unableToValidate : validation :=
  {| is_valid := false; is_land := true;
     message := "Unable to validate location. Please select a known harbor."%string;
     nearest_harbor := None |}.

Definition validateHarborLocation (outcome : reply validation) : validation :=
  match outcome with
  | inl data => data
  | inr _ => unableToValidate
  end.

(** [response.data] of the nearest-harbor request may be [null]. *)
Definition getNearestHarbor (outcome : reply (option harbor)) : option harbor :=
  match outcome with
  | inl data => data
  | inr _ => None
  end.

(** [{ ...validation, is_valid: true, message: `Snapped to nearest harbor: ${name}` }] *)
Definition snappedValidation (v : validation) (nearest : harbor) : validation :=
  {| is_valid := true; is_land := is_land v;
     message := String.append "Snapped to nearest harbor: " (hName nearest);
     nearest_harbor := nearest_harbor v |}.

Inductive side := Start | End_.

Definition setPoint (s : side) := match s with Start => setStartPoint | End_ => setEndPoint end.
Definition setValidation (s : side) :=
  match s with Start => setStartValidation | End_ => setEndValidation end.

(** The notifications of a rejected selection (lines 358-372, 411-425 and
    297-311).  [toast.info] is not a function of react-hot-toast: with a
    [nearest_harbor] in the validation the call throws a [TypeError] after the
    land-location error has been shown, and the hint is never shown. *)
Definition rejectSelection (v : validation) (lat lng : float) (st : state) : state :=
  if is_land v then
    let st1 := notify (CannotSelectLand lat lng) st in
    match nearest_harbor v with
    | Some _ => throw TypeError st1
    | None => st1
    end
  else notify (WaterNotNearHarbor lat lng) st.

(** [setLocationAsStart] and [setLocationAsEnd] (lines 148-193), which differ
    only in the pair of state variables they set. *)
Definition setLocationAs (s : side) (coordinates : point)
           (vOutcome : reply validation) (nOutcome : reply (option harbor))
           (st : state) : state :=
  let validation := validateHarborLocation vOutcome in
  let plain := setValidation s (Some validation) (setPoint s (Some coordinates) st) in
  if negb (is_valid validation) then
    match getNearestHarbor nOutcome with
    | Some nearest =>
        setValidation s (Some (snappedValidation validation nearest))
          (setPoint s (Some {| lat := hLat nearest; lng := hLon nearest;
                               name := Some (hName nearest); type := Some "harbor"%string |}) st)
    | None => plain
    end
  else plain.

Definition setLocationAsStart := setLocationAs Start.
Definition setLocationAsEnd := setLocationAs End_.

(** [onSelectStart] and [onSelectEnd] (lines 336-440). *)
Definition onSelect (s : side) (coordinates : option point)
           (vOutcome : reply validation) (nOutcome : reply (option harbor))
           (st : state) : state :=
  match coordinates with
  | None => setValidation s None (setPoint s None st)
  | Some coordinates =>
      let validation := validateHarborLocation vOutcome in
      if negb (is_valid validation) then
        match getNearestHarbor nOutcome with
        | Some nearest =>
            notify (SnappedTo (hName nearest))
              (setValidation s (Some (snappedValidation validation nearest))
                 (setPoint s (Some {| lat := hLat nearest; lng := hLon nearest;
                                      name := Some (hName nearest);
                                      type := Some "harbor"%string |}) st))
        | None => rejectSelection validation (lat coordinates) (lng coordinates) st
        end
      else
        notify (match s with Start => StartSelected | End_ => EndSelected end)
          (setValidation s (Some validation)
             (setPoint s (Some {| lat := lat coordinates; lng := lng coordinates;
                                  name := name coordinates;
                                  type := match type coordinates with
                                          | None | Some EmptyString => Some "harbor"%string
                                          | Some t => Some t
                                          end |}) st))
  end.

Definition onSelectStart := onSelect Start.
Definition onSelectEnd := onSelect End_.

(** Filling the first free slot, or starting over (lines 277-291 and 315-330).
    The handler tests the [startPoint] and [endPoint] of the render in which
    the click was made ([seen]); its updates reach the state its answers
    find. *)
Definition placeOnMap (seen : state) (p : point) (v : validation)
           (first second reset : toast) (st : state) : state :=
  match startPoint seen, endPoint seen with
  | None, _ => notify first (setStartValidation (Some v) (setStartPoint (Some p) st))
  | Some _, None => notify second (setEndValidation (Some v) (setEndPoint (Some p) st))
  | Some _, Some _ =>
      notify reset
        (setEndValidation None
           (setStartValidation (Some v) (setEndPoint None (setStartPoint (Some p) st))))
  end.

(** The map click handler (lines 264-334). *)
Definition mapClick (seen : state) (lat lng : float)
           (vOutcome : reply validation) (nOutcome : reply (option harbor))
           (st : state) : state :=
  let validation := validateHarborLocation vOutcome in
  if negb (is_valid validation) then
    match getNearestHarbor nOutcome with
    | Some nearest =>
        placeOnMap seen
                   {| lat := hLat nearest; lng := hLon nearest;
                      name := None; type := Some "harbor"%string |}
                   (snappedValidation validation nearest)
                   (StartSnapped (hName nearest)) (EndSnapped (hName nearest))
                   StartResetSnapped st
    | None => rejectSelection validation lat lng st
    end
  else
    placeOnMap seen
               {| lat := lat; lng := lng; name := None; type := Some "harbor"%string |}
               validation StartSet EndSet StartReset st.

(** The location handed over by the weather map, from the URL or from
    [localStorage] (lines 102-108 and 121-127 of the mount effect): it fills
    the first slot that was free in the render of the effect ([seen]). *)
Definition loadHandedOver (seen : state) (coordinates : point)
           (vOutcome : reply validation) (nOutcome : reply (option harbor))
           (st : state) : state :=
  match startPoint seen, endPoint seen with
  | None, _ =>
      notify (LoadedAsDeparture (name coordinates))
        (setLocationAsStart coordinates vOutcome nOutcome st)
  | Some _, None =>
      notify (LoadedAsDestination (name coordinates))
        (setLocationAsEnd coordinates vOutcome nOutcome st)
  | Some _, Some _ => st
  end.

(** [selectMajorHarbor] (lines 195-221) is called from nowhere. *)

(** ** Route analysis (lines 442-583) *)

Definition validOf (v : option validation) : bool :=
  match v with Some v => is_valid v | None => false end.

Definition hasToken (st : state) : bool :=
  match token st with None | Some EmptyString => false | Some _ => true end.

(** A request in flight: the signal it was given. *)
Record request := { signal : nat }.

(** [analyzeRoute] up to its [await]: the checks, the reset of the previous
    result and the request that is sent. *)
Definition analyzeRoute_begin (st : state) : state * option request :=
  if negb (hasToken st) then (notify LoginFirst st, None)
  else
    match startPoint st, endPoint st with
    | Some _, Some _ =>
        if negb (validOf (startValidation st)) || negb (validOf (endValidation st))
        then (notify MustBeValidHarbors st, None)
        else
          let st1 := setAnalysisResult None (setAnalyzing true st) in
          let (controller, st2) := newController st1 in
          let st3 := setAbortController (Some controller) st2 in
          (notify LoadingRoute st3, Some {| signal := controller |})
    | _, _ => (notify SelectBoth st, None)
    end.

Definition canceledError : requestError :=
  {| errName := "CanceledError"%string; errCode := Some "ERR_CANCELED"%string;
     errStatus := None; errDetail := None |}.

(** How the request settles: a request whose signal has been aborted rejects
    with [CanceledError], whatever the server did; otherwise the server's reply
    or failure comes through. *)
Definition settle (req : request) (server : reply string) (st : state) : reply string :=
  if existsb (Nat.eqb (signal req)) (aborted st) then inr canceledError else server.

Definition orText (d : option string) (default : string) : string :=
  match d with
  | None | Some EmptyString => default
  | Some t => t
  end.

Definition statusIs (e : requestError) (code : Z) : bool :=
  match errStatus e with Some s => (s =? code)%Z | None => false end.

Definition codeIs (e : requestError) (c : string) : bool :=
  match errCode e with Some c' => String.eqb c' c | None => false end.

(** [analyzeRoute] after its [await]: the rest of the [try] block on a reply,
    the [catch] block on an error, and the [finally] block. *)
Definition analyzeRoute_resume (outcome : reply string) (st : state) : state :=
  let st1 :=
    match outcome with
    | inl data => notify AnalysisComplete (setAnalysisResult (Some data) st)
    | inr error =>
        if String.eqb (errName error) "AbortError"
           || String.eqb (errName error) "CanceledError"
        then notify CancelledByUser st
        else if codeIs error "ECONNABORTED" || codeIs error "TIMEOUT"
        then notify TimedOut st
        else if statusIs error 500
        then notify (ServerError (orText (errDetail error) "Server error during analysis")) st
        else notify (AnalysisFailed (orText (errDetail error) "Failed to analyze route")) st
    end in
  setAbortController None (setAnalyzing false st1).

Definition cancelAnalysis (st : state) : state :=
  match abortController st with
  | Some controller =>
      setAbortController None
        (setAnalyzing false (notify CancelledSuccessfully (abort controller st)))
  | None => st
  end.

End RouteAnalysis.

(* ================================================================== *)
(** * The harbor search box *)

Module HarborSearch.

Import RouteAnalysis.

(** [validateLocation] (lines 135-150). *)
Definition validateLocation (outcome : reply validation) : validation :=
  match outcome with
  | inl data => data
  | inr _ =>
      {| is_valid := false; is_land := true;
         message := "Unable to validate location. Please select a known harbor."%string;
         nearest_harbor := None |}
  end.

End HarborSearch.

(* ================================================================== *)
(** * Choosing the location of the hazard page *)

Module HazardAlertsPage.

(** What [handleLocationSelect] reads of the object it is given; a property
    that is [null] or [undefined] is [None]. *)
Record selection := {
  selLat : option float;
  selLon : option float;
  selLng : option float;
  selDisplayName : option jsstring;
  selName : option jsstring
}.

Record location := { latitude : float; longitude : float; city : jsstring }.

Inductive toast :=
| InvalidLocationData     (* "Invalid location data received. ..." *)
| InvalidCoordinates      (* "Invalid coordinates. Latitude must be between ..." *)
| ZeroCoordinates         (* "This location has invalid coordinates. ..." *)
| LocationUpdated (locationName : jsstring)   (* "Location updated to <name>" *)
| FailedToUpdate.         (* "Failed to update location" *)

(** [JSON.stringify] of a location: a number that is [NaN] or infinite is
    written [null], and a zero of either sign is written [0]. *)
Record storedJson := {
  jsonLatitude : option float;
  jsonLongitude : option float;
  jsonCity : jsstring
}.

Definition jsonNumber (x : float) : option float :=
  if is_nan x || is_infinity x then None
  else if (x =? 0)%float then Some 0%float
  else Some x.

Definition stringify (l : location) : storedJson :=
  {| jsonLatitude := jsonNumber (latitude l);
     jsonLongitude := jsonNumber (longitude l);
     jsonCity := city l |}.

Record state := {
  current : location;
  isLocationModalOpen : bool;
  storedLocation : option storedJson;   (* sessionStorage 'hazardAlertsLocation' *)
  toasts : list toast
}.

Definition notify (t : toast) (st : state) : state :=
  {| current := current st; isLocationModalOpen := isLocationModalOpen st;
     storedLocation := storedLocation st; toasts := toasts st ++ [t] |}.

(** [a || b] on numbers that may be missing. *)
Definition orNumber (a b : option float) : option float :=
  match a with
  | Some x => if HazardAlerts.truthy x then Some x else b
  | None => b
  end.

(** [a || b] on texts that may be missing: the empty text is falsy. *)
Definition orText (a b : option jsstring) : option jsstring :=
  match a with
  | Some (_ :: _) => a
  | _ => b
  end.

Definition outOfRange (latitude longitude : float) : bool :=
  ((latitude <? -90) || (90 <? latitude)
   || (longitude <? -180) || (180 <? longitude))%float.

Definition bothZero (latitude longitude : float) : bool :=
  ((latitude =? 0) && (longitude =? 0))%float.

(** Lines 1539-1595.  A [null] selection makes the first property access
    throw, and a selection without any name makes [locationName.includes]
    throw; both end in the [catch] block. *)
Definition handleLocationSelect (selectedLocation : option selection) (st : state)
  : state :=
  match selectedLocation with
  | None => notify FailedToUpdate st
  | Some sel =>
      match selLat sel, orNumber (selLon sel) (selLng sel) with
      | Some latitude, Some longitude =>
          if outOfRange latitude longitude then notify InvalidCoordinates st
          else if bothZero latitude longitude then notify ZeroCoordinates st
          else
            let newLocation :=
              {| latitude := latitude; longitude := longitude;
                 city := match orText (orText (selDisplayName sel) (selName sel))
                                      (Some (js "Selected Location")) with
                         | Some t => t
                         | None => []
                         end |} in
            let st1 :=
              {| current := newLocation; isLocationModalOpen := false;
                 storedLocation := Some (stringify newLocation);
                 toasts := toasts st |} in
            match orText (selDisplayName sel) (selName sel) with
            | None => notify FailedToUpdate st1
            | Some locationName =>
                if negb (includes locationName (js "Earthquake"))
                   && negb (includes locationName (js "EXTREME:"))
                   && negb (includes locationName (js "SEVERE:"))
                then notify (LocationUpdated locationName) st1
                else st1
            end
      | _, _ => notify InvalidLocationData st
      end
  end.

(** The location of a fresh page and of "use my location" (lines 1303-1307,
    1509-1515, 1621-1627): Jaffna. *)
Definition defaultLocation : location :=
  {| latitude := 9.6651%float; longitude := 80.0093%float;
     city := js "Jaffna, Jaffna District, Northern Province, Sri Lanka" |}.

End HazardAlertsPage.

(* ================================================================== *)
(** * The search box of the harbor search *)

(** The component [HarborSearch] (lines 27-299 of HarborSearch.jsx). *)
Module SearchBox.

Import RouteAnalysis.

(** An entry of the result list. *)
Record harborResult := {
  rName : jsstring;
  rDisplayName : string;
  rCountry : string;
  rType : string;
  rSource : string;
  rLat : float;
  rLon : float
}.

(** What the parent component is handed: the entry with [lon] renamed. *)
Record coordinates := {
  cLat : float;
  cLng : float;
  cName : jsstring;
  cDisplayName : string;
  cCountry : string;
  cType : string;
  cSource : string
}.

Inductive toast :=
| SearchTimedOut          (* "Search request timed out. Please try again." *)
| SearchUnavailable       (* "Harbor search service temporarily unavailable. ..." *)
| SearchFailed            (* "Failed to search harbors. Please check your connection." *)
| HarborSelected (harborName : jsstring).   (* "Harbor selected: <name>" *)

Record state := {
  query : jsstring;
  results : list harborResult;
  isOpen : bool;
  loading : bool;
  selectedIndex : Z;
  selectedHarbor : option harborResult;
  validationResult : option validation;
  handedOver : list (option coordinates);     (* the calls of [onHarborSelect] *)
  toasts : list toast
}.

Definition initial (value : jsstring) (selectedLocation : option harborResult) : state :=
  {| query := value; results := []; isOpen := false; loading := false;
     selectedIndex := (-1)%Z; selectedHarbor := selectedLocation;
     validationResult := None; handedOver := []; toasts := [] |}.

Definition setLoading (v : bool) (st : state) : state :=
  {| query := query st; results := results st; isOpen := isOpen st;
     loading := v; selectedIndex := selectedIndex st;
     selectedHarbor := selectedHarbor st; validationResult := validationResult st;
     handedOver := handedOver st; toasts := toasts st |}.

(** [searchHarbors] up to its [await]: the request is sent. *)
Definition searchHarbors_begin (st : state) : state := setLoading true st.

(** [searchHarbors] from its [await] on, in the state the answer finds;
    the reply may lack [results]. *)
Definition searchHarbors_resume (outcome : reply (option (list harborResult)))
  (st : state) : state :=
  match outcome with
  | inl found =>
      {| query := query st;
         results := match found with Some l => l | None => [] end;
         isOpen := true; loading := false; selectedIndex := (-1)%Z;
         selectedHarbor := selectedHarbor st; validationResult := validationResult st;
         handedOver := handedOver st; toasts := toasts st |}
  | inr error =>
      {| query := query st; results := []; isOpen := isOpen st; loading := false;
         selectedIndex := selectedIndex st;
         selectedHarbor := selectedHarbor st; validationResult := validationResult st;
         handedOver := handedOver st;
         toasts := toasts st
                   ++ [if codeIs error "ECONNABORTED" then SearchTimedOut
                       else if statusIs error 500 then SearchUnavailable
                       else SearchFailed] |}
  end.

(** The debounced effect on [query] (lines 55-66), when its timer fires. *)
Definition queryEffect (st : state) : state :=
  if 2 <=? List.length (query st) then searchHarbors_begin st
  else
    {| query := query st; results := []; isOpen := false; loading := loading st;
       selectedIndex := selectedIndex st;
       selectedHarbor := selectedHarbor st; validationResult := validationResult st;
       handedOver := handedOver st; toasts := toasts st |}.

Definition coordinatesOf (harbor : harborResult) : coordinates :=
  {| cLat := rLat harbor; cLng := rLon harbor; cName := rName harbor;
     cDisplayName := rDisplayName harbor; cCountry := rCountry harbor;
     cType := rType harbor; cSource := rSource harbor |}.

(** [handleHarborSelect], with a parent callback that returns normally. *)
Definition handleHarborSelect (harbor : harborResult) (st : state) : state :=
  {| query := rName harbor; results := results st; isOpen := false; loading := false;
     selectedIndex := (-1)%Z; selectedHarbor := Some harbor;
     validationResult := validationResult st;
     handedOver := handedOver st ++ [Some (coordinatesOf harbor)];
     toasts := toasts st ++ [HarborSelected (rName harbor)] |}.

Definition setSelectedIndex (v : Z) (st : state) : state :=
  {| query := query st; results := results st; isOpen := isOpen st;
     loading := loading st; selectedIndex := v;
     selectedHarbor := selectedHarbor st; validationResult := validationResult st;
     handedOver := handedOver st; toasts := toasts st |}.

Definition setIsOpen (v : bool) (st : state) : state :=
  {| query := query st; results := results st; isOpen := v;
     loading := loading st; selectedIndex := selectedIndex st;
     selectedHarbor := selectedHarbor st; validationResult := validationResult st;
     handedOver := handedOver st; toasts := toasts st |}.

Inductive key := ArrowDown | ArrowUp | Enter | Escape | OtherKey.

(** [handleKeyDown] (lines 231-256). *)
Definition handleKeyDown (k : key) (st : state) : state :=
  if negb (isOpen st) || (List.length (results st) =? 0) then st
  else
    match k with
    | ArrowDown =>
        setSelectedIndex
          (if (selectedIndex st <? Z.of_nat (List.length (results st)) - 1)%Z
           then (selectedIndex st + 1)%Z else selectedIndex st) st
    | ArrowUp =>
        setSelectedIndex
          (if (0 <? selectedIndex st)%Z then (selectedIndex st - 1)%Z else (-1)%Z) st
    | Enter =>
        if ((0 <=? selectedIndex st)
            && (selectedIndex st <? Z.of_nat (List.length (results st))))%Z
        then match nth_error (results st) (Z.to_nat (selectedIndex st)) with
             | Some harbor => handleHarborSelect harbor st
             | None => st
             end
        else st
    | Escape => setSelectedIndex (-1)%Z (setIsOpen false st)
    | OtherKey => st
    end.

(** [clearSearch] (lines 258-269), with the parent callback present. *)
Definition clearSearch (st : state) : state :=
  {| query := []; results := []; isOpen := false; loading := loading st;
     selectedIndex := (-1)%Z; selectedHarbor := None; validationResult := None;
     handedOver := handedOver st ++ [None]; toasts := toasts st |}.

(** Typing into the input, and giving it the focus (lines 323-330). *)
Definition setQuery (v : jsstring) (st : state) : state :=
  {| query := v; results := results st; isOpen := isOpen st;
     loading := loading st; selectedIndex := selectedIndex st;
     selectedHarbor := selectedHarbor st; validationResult := validationResult st;
     handedOver := handedOver st; toasts := toasts st |}.

Definition onFocus (st : state) : state :=
  if 2 <=? List.length (query st) then setIsOpen true st else st.

(** [handleClickOutside] (lines 82-88), for a click outside both elements. *)
Definition handleClickOutside (st : state) : state :=
  setSelectedIndex (-1)%Z (setIsOpen false st).

(** The rows of the list are rendered under this condition (line 431). *)
Definition rowsShown (st : state) : bool :=
  isOpen st && negb (List.length (results st) =? 0) && negb (loading st).

(** [onClick] and [onMouseEnter] of the row of index [n] (lines 448-458). *)
Definition rowClick (n : nat) (st : state) : state :=
  if rowsShown st
  then match nth_error (results st) n with
       | Some harbor => handleHarborSelect harbor st
       | None => st
       end
  else st.

Definition rowMouseEnter (n : nat) (st : state) : state :=
  if rowsShown st && (n <? List.length (results st))
  then setSelectedIndex (Z.of_nat n) st
  else st.

End SearchBox.

(* ================================================================== *)
(** * The assistant chat of the weather map *)

(** [sendChatMessage] of WeatherMap.jsx (lines 291-324). *)
Module WeatherMapChat.

Import WeatherMap.

Inductive role := User | Assistant.

Record chatMessage := { msgRole : role; text : jsstring; ts : N }.

Inductive toast :=
| LoginToChat               (* "Please login to use AI Marine Assistant." *)
| Detail (text : string)    (* the server's own message *)
| SessionExpired            (* "Session expired. Please login again." *)
| CouldNotProcess.          (* "Sorry, I could not process that right now." *)

Record state := {
  isAuthenticated : bool;
  chatMessages : list chatMessage;
  chatInput : jsstring;
  chatLoading : bool;
  toasts : list toast
}.

Definition setChatInput (v : jsstring) (st : state) : state :=
  {| isAuthenticated := isAuthenticated st; chatMessages := chatMessages st;
     chatInput := v; chatLoading := chatLoading st; toasts := toasts st |}.
Definition setChatLoading (v : bool) (st : state) : state :=
  {| isAuthenticated := isAuthenticated st; chatMessages := chatMessages st;
     chatInput := chatInput st; chatLoading := v; toasts := toasts st |}.
Definition pushMessage (m : chatMessage) (st : state) : state :=
  {| isAuthenticated := isAuthenticated st; chatMessages := chatMessages st ++ [m];
     chatInput := chatInput st; chatLoading := chatLoading st; toasts := toasts st |}.
Definition toastError (t : toast) (st : state) : state :=
  {| isAuthenticated := isAuthenticated st; chatMessages := chatMessages st;
     chatInput := chatInput st; chatLoading := chatLoading st;
     toasts := toasts st ++ [t] |}.

Definition noResponse : jsstring := js "No response.".
Definition couldNotProcess : jsstring := js "Sorry, I could not process that right now.".

(** [sendChatMessage] up to its [await], at time [now]: the new state and the
    message posted, if one is.  The [location] of the request body, built by
    [buildContextLocation], plays no part in what follows and is left out. *)
Definition sendChatMessage_begin (now : N) (st : state) : state * option jsstring :=
  let message := trim (chatInput st) in
  match message with
  | [] => (st, None)
  | _ :: _ =>
      if negb (isAuthenticated st) then (toastError LoginToChat st, None)
      else
        (setChatLoading true
           (setChatInput []
              (pushMessage {| msgRole := User; text := message; ts := now |} st)),
         Some message)
  end.

(** [sendChatMessage] from its [await] on, at time [now], in the state the
    answer finds; [res?.data?.response] may be absent. *)
Definition sendChatMessage_resume (now : N) (outcome : option jsstring + requestError)
  (st : state) : state :=
  let st1 :=
    match outcome with
    | inl response =>
        let aiText :=
          match response with
          | Some (c :: t) => c :: t
          | Some [] | None => noResponse
          end in
        pushMessage {| msgRole := Assistant; text := aiText; ts := now |} st
    | inr err =>
        let st' :=
          match (if statusIs err 403 then nonEmpty (detail err) else None) with
          | Some d => toastError (Detail d) st
          | None =>
              if statusIs err 401 then toastError SessionExpired st
              else toastError CouldNotProcess st
          end in
        pushMessage {| msgRole := Assistant; text := couldNotProcess; ts := now |} st'
    end in
  setChatLoading false st1.

End WeatherMapChat.

(* ================================================================== *)
(** * The hazard alert card *)

(** The component [HazardAlerts] of HarborSearch.jsx (lines 547-671). *)
Module HazardAlertsCard.

(** A value of the reply that the component stores without reading it. *)
Local Unset Elimination Schemes.
Inductive json :=
| JNull
| JBool (b : bool)
| JNumber (x : float)
| JString (s : jsstring)
| JArray (items : list json)
| JObject (fields : list (string * json)).
Local Set Elimination Schemes.

(** An alert, with the fields the component writes when it turns a disaster
    into one; a field may be absent. *)
Record alert := {
  alert_type : option jsstring;
  event : option jsstring;
  area : option jsstring;
  severity : option jsstring;
  description : option jsstring;
  advice : option jsstring;
  source : option jsstring;
  start_time : option jsstring
}.

Record disaster := {
  dType : option jsstring;
  dEvent : option jsstring;
  dLocation : option jsstring;
  dSeverity : option jsstring;
  dImpact : option jsstring;
  dDescription : option jsstring;
  dAdvice : option jsstring;
  dTime : option jsstring
}.

(** [response.data] *)
Record data := {
  alerts : option (list alert);
  top_alerts : option (list alert);
  disasters : option (list disaster);
  dataSource : option jsstring;
  current_weather : option json;
  marine_conditions : option json;
  safety_status : option json;
  alert_summary : option json;
  timestamp : option json;
  location : option json
}.

Record debugInfo := {
  dbgTimestamp : option json;
  dbgLocation : option json;
  alertCount : nat;
  sources : list string
}.

Inductive toast :=
| SevereFound (locationName : jsstring) (severeCount : nat)
    (* "<name>: N severe alert(s) found!" *)
| AlertsFound (locationName : jsstring) (alertCount : nat)
    (* "<name>: N alert(s) found" *)
| SafeConditions (locationName : jsstring).
    (* "<name>: No alerts - Safe conditions" *)

Record props := { latitude : float; longitude : float; city : option jsstring }.

Record state := {
  shown : list alert;                       (* the state variable [alerts] *)
  loading : bool;
  currentWeather : option json;
  marineConditions : option json;
  safetyStatus : option json;
  alertSummary : option json;
  lastUpdated : option N;
  apiDebugInfo : option debugInfo;
  includeQuickMode : bool;
  includeMarine : bool;
  includeEarthquakes : bool;
  isFirstLoad : bool;
  previousLocation : option jsstring;
  refreshing : bool;        (* the loading toast 'manual-refresh' is on screen *)
  toasts : list toast
}.

(** The values of [useState]. *)
Definition initial : state :=
  {| shown := []; loading := false; currentWeather := None;
     marineConditions := None; safetyStatus := None; alertSummary := None;
     lastUpdated := None; apiDebugInfo := None; includeQuickMode := false;
     includeMarine := true; includeEarthquakes := true; isFirstLoad := true;
     previousLocation := None; refreshing := false; toasts := [] |}.

Record request := {
  endpoint : string;
  reqLatitude : float;
  reqLongitude : float;
  reqCity : option jsstring;
  include_marine : bool;
  include_earthquakes : bool;
  authorization : option string
}.

(** What the running call still sees of the render that started it. *)
Record closure := {
  seenProps : props;
  seenIsFirstLoad : bool;
  seenPreviousLocation : option jsstring
}.

(** [Number.prototype.toString] and [toFixed], which live in the engine. *)
Class Numbers := {
  toString : float -> jsstring;
  toFixed : float -> N -> jsstring
}.

(** [x || fallback] on a string that may be absent. *)
Definition orElse (x : option jsstring) (fallback : option jsstring) : option jsstring :=
  match x with
  | Some (c :: t) => Some (c :: t)
  | Some [] | None => fallback
  end.

Definition orText (x : option string) (fallback : option string) : option string :=
  match x with
  | Some EmptyString | None => fallback
  | Some t => Some t
  end.

Definition setLoading (v : bool) (st : state) : state :=
  {| shown := shown st; loading := v; currentWeather := currentWeather st;
     marineConditions := marineConditions st; safetyStatus := safetyStatus st;
     alertSummary := alertSummary st; lastUpdated := lastUpdated st;
     apiDebugInfo := apiDebugInfo st; includeQuickMode := includeQuickMode st;
     includeMarine := includeMarine st; includeEarthquakes := includeEarthquakes st;
     isFirstLoad := isFirstLoad st; previousLocation := previousLocation st;
     refreshing := refreshing st; toasts := toasts st |}.

Definition setIsFirstLoad (v : bool) (st : state) : state :=
  {| shown := shown st; loading := loading st; currentWeather := currentWeather st;
     marineConditions := marineConditions st; safetyStatus := safetyStatus st;
     alertSummary := alertSummary st; lastUpdated := lastUpdated st;
     apiDebugInfo := apiDebugInfo st; includeQuickMode := includeQuickMode st;
     includeMarine := includeMarine st; includeEarthquakes := includeEarthquakes st;
     isFirstLoad := v; previousLocation := previousLocation st;
     refreshing := refreshing st; toasts := toasts st |}.

(** [toast.loading(..., { id: 'manual-refresh' })] and
    [toast.dismiss('manual-refresh')]. *)
Definition setRefreshing (v : bool) (st : state) : state :=
  {| shown := shown st; loading := loading st; currentWeather := currentWeather st;
     marineConditions := marineConditions st; safetyStatus := safetyStatus st;
     alertSummary := alertSummary st; lastUpdated := lastUpdated st;
     apiDebugInfo := apiDebugInfo st; includeQuickMode := includeQuickMode st;
     includeMarine := includeMarine st; includeEarthquakes := includeEarthquakes st;
     isFirstLoad := isFirstLoad st; previousLocation := previousLocation st;
     refreshing := v; toasts := toasts st |}.

(** [fetchHazardAlerts] up to its [await], called in the render whose state is
    [st]; [storage] is [localStorage.getItem]. *)
Definition fetchHazardAlerts_begin (storage : string -> option string) (p : props)
  (st : state) : state * option (request * closure) :=
  if negb (HazardAlerts.truthy (latitude p)) || negb (HazardAlerts.truthy (longitude p))
  then (st, None)
  else
    let token := orText (storage "token"%string) (storage "access_token"%string) in
    (setLoading true st,
     Some ({| endpoint := if includeQuickMode st
                          then "/api/hazard-alerts/alerts/quick"%string
                          else "/api/hazard-alerts/alerts/comprehensive"%string;
              reqLatitude := latitude p; reqLongitude := longitude p;
              reqCity := orElse (city p) None;
              include_marine := includeMarine st;
              include_earthquakes := includeEarthquakes st;
              authorization :=
                match orText token None with
                | Some t => Some ("Bearer " ++ t)%string
                | None => None
                end |},
           {| seenProps := p; seenIsFirstLoad := isFirstLoad st;
              seenPreviousLocation := previousLocation st |})).

(** [handleManualRefresh] (lines 714-718): the call of [fetchHazardAlerts]
    still sees the [isFirstLoad] of the render of the click. *)
Definition handleManualRefresh (storage : string -> option string) (p : props)
  (st : state) : state * option (request * closure) :=
  let (st1, sent) := fetchHazardAlerts_begin storage p st in
  (setIsFirstLoad false (setRefreshing true st1), sent).

Section Resume.

Context {runtime : Runtime} {numbers : Numbers}.

(** The alert made of a disaster (lines 599-608). *)
Definition fromDisaster (d : data) (x : disaster) : alert :=
  {| alert_type :=
       orElse (match dType x with Some t => Some (toLowerCase t) | None => None end)
              (Some (js "other"));
     event := orElse (dEvent x) (dType x);
     area := dLocation x;
     severity := orElse (dSeverity x) (Some (js "unknown"));
     description := orElse (dImpact x) (orElse (dDescription x) (Some []));
     advice := orElse (dAdvice x) (Some []);
     source := orElse (dataSource d) (Some (js "global_disaster_monitor"));
     start_time := orElse (dTime x) (Some []) |}.

(** The merged list (lines 591-609): [alerts], even when empty, goes before
    [top_alerts]; the disasters are appended. *)
Definition allAlertsOf (d : data) : list alert :=
  match alerts d with
  | Some l => l
  | None => match top_alerts d with Some l => l | None => [] end
  end
  ++ match disasters d with
     | Some ds => map (fromDisaster d) ds
     | None => []
     end.

Definition severityIs (a : alert) (s : string) : bool :=
  match severity a with Some v => JS.eqb v (js s) | None => false end.

Definition isSevere (a : alert) : bool :=
  severityIs a "extreme" || severityIs a "severe".

Definition currentLocationKey (p : props) : jsstring :=
  toString (latitude p) ++ js "," ++ toString (longitude p).

Definition locationName (p : props) : jsstring :=
  match city p with
  | Some (c :: t) => c :: t
  | Some [] | None =>
      toFixed (latitude p) 2 ++ js "°, " ++ toFixed (longitude p) 2 ++ js "°"
  end.

(** The notice on a change of location (lines 623-645), if there is one. *)
Definition notice (c : closure) (allAlerts : list alert) : list toast :=
  let changed :=
    match seenPreviousLocation c with
    | Some k => negb (JS.eqb k (currentLocationKey (seenProps c)))
    | None => true
    end in
  if negb (seenIsFirstLoad c) && changed
  then
    let alertCount := List.length allAlerts in
    let severeCount := List.length (filter isSevere allAlerts) in
    if 0 <? severeCount then [SevereFound (locationName (seenProps c)) severeCount]
    else if 0 <? alertCount then [AlertsFound (locationName (seenProps c)) alertCount]
    else [SafeConditions (locationName (seenProps c))]
  else [].

(** [fetchHazardAlerts] from its [await] on, at time [now], in the state the
    answer finds.  A failure is logged and otherwise kept silent. *)
Definition fetchHazardAlerts_resume (c : closure) (now : N)
  (outcome : data + WeatherMap.requestError) (st : state) : state :=
  setLoading false
    match outcome with
    | inl d =>
        let allAlerts := allAlertsOf d in
        {| shown := allAlerts; loading := loading st;
           currentWeather := current_weather d;
           marineConditions := marine_conditions d;
           safetyStatus := safety_status d;
           alertSummary := alert_summary d;
           lastUpdated := Some now;
           apiDebugInfo :=
             Some {| dbgTimestamp := timestamp d; dbgLocation := location d;
                     alertCount := List.length allAlerts;
                     sources := ["US NWS"; "Open-Meteo"; "USGS"; "MeteoAlarm"]%string |};
           includeQuickMode := includeQuickMode st;
           includeMarine := includeMarine st;
           includeEarthquakes := includeEarthquakes st;
           isFirstLoad := false;
           previousLocation := Some (currentLocationKey (seenProps c));
           refreshing := false;
           toasts := toasts st ++ notice c allAlerts |}
    | inr _ => setRefreshing false st
    end.

End Resume.

End HazardAlertsCard.

(* ================================================================== *)
(** * The dashboard *)

(** The component [Dashboard] (lines 1531-1603 of part_001). *)
Module Dashboard.

Import RouteAnalysis.

(** A saved location as the server lists it; [name] and the coordinates may
    be absent. *)
Record savedLocation := {
  id : option N;
  name : option jsstring;
  latitude : option float;
  longitude : option float
}.

(** An entry of [locationsWithWeather]: the location, spread, with its
    [displayName], and the weather or [null]. *)
Record card := {
  location : savedLocation;
  displayName : jsstring;
  weatherData : HazardAlertsCard.json     (* [response.data], or [null] *)
}.

Inductive toast := FailedToLoad.     (* "Failed to load dashboard data" *)

Record state := {
  locationsWithWeather : list card;
  alerts : list HazardAlertsCard.json;
  loading : bool;
  toasts : list toast
}.

Definition initial : state :=
  {| locationsWithWeather := []; alerts := []; loading := true; toasts := [] |}.

Section Fetch.

Context {numbers : HazardAlertsCard.Numbers}.

(** The readable name of a location with both coordinates truthy
    (lines 1550-1552). *)
Definition marineName (l : savedLocation) : option jsstring :=
  match latitude l, longitude l with
  | Some la, Some lo =>
      if HazardAlerts.truthy la && HazardAlerts.truthy lo
      then Some (js "Marine Location " ++ HazardAlertsCard.toFixed la 3
                 ++ js ", " ++ HazardAlertsCard.toFixed lo 3)
      else None
  | _, _ => None
  end.

(** [getDisplayLocationName] (lines 1541-1555). *)
Definition getDisplayLocationName (l : option savedLocation) : jsstring :=
  match l with
  | None => js "Unknown Location"
  | Some l =>
      let properName :=
        match name l with
        | Some (c :: t) =>
            if negb (isPrefix (js "Location ") (c :: t)) then Some (c :: t) else None
        | Some [] | None => None
        end in
      match properName with
      | Some n => n
      | None =>
          match marineName l with
          | Some m => m
          | None =>
              match name l with
              | Some (c :: t) => c :: t
              | Some [] | None => js "Unknown Location"
              end
          end
      end
  end.

(** The promises of [weatherPromises], settled: the request for the
    location of index [i] has the outcome [weatherReply i]. *)
Fixpoint weatherCards (weatherReply : nat -> reply HazardAlertsCard.json) (i : nat)
  (locations : list savedLocation) : list card :=
  match locations with
  | [] => []
  | l :: rest =>
      {| location := l;
         displayName := getDisplayLocationName (Some l);
         weatherData := match weatherReply i with
                        | inl weather => weather
                        | inr _ => HazardAlertsCard.JNull
                        end |}
      :: weatherCards weatherReply (S i) rest
  end.

(** [fetchDashboardData] run to completion on the outcomes of its requests. *)
Definition fetchDashboardData (locationsReply : reply (list savedLocation))
  (weatherReply : nat -> reply HazardAlertsCard.json)
  (alertsReply : reply (list HazardAlertsCard.json)) (st : state) : state :=
  match locationsReply with
  | inl locations =>
      let cards := weatherCards weatherReply 0 locations in
      match alertsReply with
      | inl history =>
          {| locationsWithWeather := cards; alerts := firstn 5 history;
             loading := false; toasts := toasts st |}
      | inr _ =>
          {| locationsWithWeather := cards; alerts := alerts st;
             loading := false; toasts := toasts st ++ [FailedToLoad] |}
      end
  | inr _ =>
      {| locationsWithWeather := locationsWithWeather st; alerts := alerts st;
         loading := false; toasts := toasts st ++ [FailedToLoad] |}
  end.

End Fetch.

End Dashboard.

(* ================================================================== *)
(** * Vocabulary and sample data of the properties *)

Module AIChatSpec.

Import AIChat.

(** Matching a word while ignoring the case of ASCII letters. *)
Fixpoint isPrefixCI (p s : jsstring) : bool :=
  match p, s with
  | [], _ => true
  | _ :: _, [] => false
  | a :: p', b :: s' => (canon true a =? canon true b)%N && isPrefixCI p' s'
  end.

Fixpoint includesCI (s sub : jsstring) : bool :=
  isPrefixCI sub s ||
  match s with
  | [] => false
  | _ :: t => includesCI t sub
  end.

(** Whether a search produced a match. *)
Definition found (m : option matchResult) : bool :=
  match m with Some _ => true | None => false end.

(** The loop of a starred pattern, by name: [n] bounds the iterations left. *)
Definition starLoop (ignoreCase : bool) {R : Type} (greedy : bool) (r1 : regex)
           (k : nat -> jsstring -> captures -> option R) :=
  fix loop (n : nat) (pos : nat) (s : jsstring) (c : captures) : option R :=
    match n with
    | O => k pos s c
    | S n' =>
        let more :=
          run ignoreCase r1 pos s c
              (fun p' s' c' => if Nat.eqb p' pos then None else loop n' p' s' c') in
        if greedy then
          match more with Some v => Some v | None => k pos s c end
        else
          match k pos s c with Some v => Some v | None => more end
    end.

(** The warning-tier texts of the classifier. *)
Definition cautionTexts : list jsstring :=
  [js "⚠️ NOT SAFE - Exercise caution";
   js "⚠️ NOT SAFE - Medium risk with active hazards";
   js "⚠️ SAFE - Medium Risk (Exercise Caution)";
   js "⚠️ NOT SAFE - Active flood/water hazard reported"].

(** The phrases of the explicit-warning pattern. *)
Definition warningPhrases : list jsstring :=
  [js "NOT RECOMMENDED"; js "avoid travel"; js "do not recommend";
   js "currently assessed as unsafe"; js "exercise caution and avoid"].

(** The words of the medium-risk keyword test. *)
Definition hazardWords : list jsstring :=
  [js "Earthquake"; js "Storm"; js "Typhoon"; js "Tsunami"; js "Flood"; js "Hurricane"].

(** A response that reports [n] affecting disasters: the words, anything up
    to the opening parenthesis, the count in decimal digits, white space and
    "total)". *)
Definition countReport (pre mid : jsstring) (n : N) (gap post : jsstring) : jsstring :=
  pre ++ js "AFFECTING DISASTERS" ++ mid ++ js "(" ++ decimal n ++ gap
      ++ js "total)" ++ post.

(** The report is the first of the response and stands on one line: the
    words do not occur earlier, in any letter case; no parenthesis opens and
    no line ends between the words and the count; and the count is followed by
    white space. *)
Definition firstReport (pre mid gap : jsstring) : Prop :=
  includesCI (pre ++ js "AFFECTING DISASTER") (js "AFFECTING DISASTERS") = false
  /\ existsb (fun c => isLineTerminator c || (c =? 40)%N) mid = false
  /\ gap <> []
  /\ forallb isWhiteSpace gap = true.

(** A response of the basic model that the weather, route and disaster-list
    branches pass on and that the guard of the safety branch accepts. *)
Definition reachesClassifier (response : jsstring) : Prop :=
  weatherSummary response = None
  /\ routeSummary response = None
  /\ includes response (js "CURRENT GLOBAL DISASTERS") = false
  /\ includes response (js "EARTHQUAKES") = false
  /\ includes response (js "STORMS") = false
  /\ includes response (js "FLOODS") = false
  /\ isSafetyQuery response = true.

(** The verdict for a verdict header, by the tier the header reads as. *)
Definition headerVerdict (t : tier) : jsstring :=
  match t with
  | UNSAFE => js "❌ UNSAFE - Travel to this location"
  | NOT_SAFE => js "⚠️ NOT SAFE - Exercise caution"
  | SAFE => js "✅ SAFE - Low Risk for Travel"
  end.

(** A response that opens with a SAFE header and reports a medium risk level,
    a storm and three affecting disasters. *)
Definition safeHeaderWithDisasters : jsstring :=
  js "✅ SAFE - Low Risk for Travel. Is it safe to visit? Risk Level: MEDIUM, Storm watch. AFFECTING DISASTERS (3 total)".

(** A response that reports three affecting disasters and mentions STORMS. *)
Definition stormsWithDisasters : jsstring :=
  js "Is it safe to travel today? STORMS are forecast. AFFECTING DISASTERS (3 total)".

(** A response that opens with a SAFE header and reports a medium risk level
    and a storm. *)
Definition safeHeaderMediumStorm : jsstring :=
  js "✅ SAFE - conditions are fair. Risk Level: MEDIUM. Storm warning in effect.".

End AIChatSpec.

Module AIChatTerms.

Import AIChat.

(** The verdict texts that do not depend on the response. *)
Definition fixedVerdicts : list jsstring :=
  [unsafeNotRecommended; unsafeHeader; notSafeHeader; safeLowRisk; unsafeHighRisk;
   notSafeMediumHazards; safeMediumRisk; unsafeEarthquake; unsafeStorm; notSafeFlood].

End AIChatTerms.

Module HazardAlertsSpec.

Import HazardAlerts.

(** Within 0.5 degrees in both latitude and longitude: [x] lies in the box
    around [a]. *)
Definition inBox (a x : area) : bool :=
  (abs (lat a - lat x) <? 0.5)%float && (abs (lon a - lon x) <? 0.5)%float.

(** The entries of [l] that survive when the entries [earlier] precede them:
    an entry survives when it lies in the box of no earlier entry, kept or
    not, and in its own (its coordinates are numbers). *)
Fixpoint uniqueAfter (earlier l : list area) : list area :=
  match l with
  | [] => []
  | x :: t =>
      if negb (existsb (fun a => inBox a x) earlier) && inBox x x
      then x :: uniqueAfter (earlier ++ [x]) t
      else uniqueAfter (earlier ++ [x]) t
  end.

(** Ordering by a numeric key: the comparator, the order it induces, and a
    selection that picks entries of one key only. *)
Definition byKey {A : Type} (key : A -> Z) (a b : A) : Z := (key a - key b)%Z.
Definition keyLe {A : Type} (key : A -> Z) (a b : A) : Prop := (key a <= key b)%Z.
Definition oneKey {A : Type} (key : A -> Z) (q : A -> bool) : Prop :=
  forall x y, q x = true -> q y = true -> key x = key y.

(** The order of the tiers below EXTREME: SEVERE, then MODERATE, then MINOR,
    then any other severity. *)
Definition rank (a : area) : Z :=
  if String.eqb (severity a) "SEVERE" then 1
  else if String.eqb (severity a) "MODERATE" then 2
  else if String.eqb (severity a) "MINOR" then 3
  else 4.

(** No entry has a severity that is the name of a member of
    [Object.prototype]: on such a list the comparator returns a number for
    every pair. *)
Definition plainSeverities (l : list area) : Prop :=
  forallb (fun a => negb (existsb (String.eqb (severity a)) objectPrototypeMembers)) l
  = true.

(** The number the comparator subtracts for an entry. *)
Definition codeKey (a : area) : Z :=
  match severityKey a with Some k => k | None => 0%Z end.

Definition isExtreme (a : area) : bool := String.eqb (severity a) "EXTREME".

Definition hasSeverity (s : string) (a : area) : bool := String.eqb (severity a) s.

(** The same entry under another source attribution. *)
Definition withSource (relabel : area -> string) (a : area) : area :=
  {| name := name a; lat := lat a; lon := lon a; display_name := display_name a;
     severity := severity a; description := description a; source := relabel a;
     issued := issued a |}.

(** An entry with the fields the pipeline reads and a name to tell it by. *)
Definition sample (n : string) (latitude longitude : float) (sev src : string)
           (time : option Z) : area :=
  {| name := n; lat := latitude; lon := longitude; display_name := n;
     severity := sev; description := EmptyString; source := src; issued := time |}.

(** Two entries of different kinds a quarter of a degree apart. *)
Definition chennaiFlood : area :=
  sample "Flood - Chennai coast" 13%float 80.25%float "MODERATE" "GDACS" None.
Definition chennaiQuake : area :=
  sample "Earthquake M7.1 - Bay of Bengal" 13.25%float 80%float "EXTREME" "USGS" None.

(** Two entries of one severity, far apart, issued at different times. *)
Definition olderStorm : area :=
  sample "Storm A" 10%float 10%float "SEVERE" "NOAA" (Some 100%Z).
Definition newerStorm : area :=
  sample "Storm B" 20%float 20%float "SEVERE" "NOAA" (Some 200%Z).

(** A global entry a quarter of a degree from the selected location, and the
    texts of the entries built for that location. *)
Definition globalExtreme : area :=
  sample "Cyclone - Gulf of Mannar" 9.75%float 80.25%float "EXTREME" "GDACS" None.
Definition globalSevere : area :=
  sample "Cyclone - Gulf of Mannar" 9.75%float 80.25%float "SEVERE" "GDACS" None.
Definition jaffnaSummary : entryText :=
  {| etName := "Current Location: Jaffna"; etDisplay := "CURRENT: Jaffna";
     etDescription := "1 active alerts at your selected location" |}.
Definition jaffnaAlert : entryText :=
  {| etName := "Jaffna - Alert"; etDisplay := "Gale warning";
     etDescription := "Gale warning..." |}.

(** Fifteen SEVERE entries a degree apart, then one EXTREME entry. *)
Definition severeRow : list area :=
  map (fun la => sample "Gale" la 0%float "SEVERE" "NOAA" None)
      [0; 1; 2; 3; 4; 5; 6; 7; 8; 9; 10; 11; 12; 13; 14]%float.
Definition lateExtreme : area :=
  sample "Tsunami" 40%float 0%float "EXTREME" "PTWC" None.

(** An entry between two others: within the box of each, while the two are
    outside each other's. *)
Definition hereSevere : area :=
  sample "Current Location" 0.375%float 0%float "SEVERE" "Your Location" None.
Definition westModerate : area :=
  sample "Flood West" 0%float 0%float "MODERATE" "GDACS" None.
Definition eastModerate : area :=
  sample "Flood East" 0.75%float 0%float "MODERATE" "GDACS" None.

(** An entry whose severity names a member of [Object.prototype], between an
    EXTREME and a SEVERE one. *)
Definition oddSeverity : area :=
  sample "Odd" 50%float 50%float "constructor" "NOAA" None.

(** Three entries in a row, 0.375 degrees apart. *)
Definition chainWest : area := sample "West" 0%float 0%float "MINOR" "GDACS" None.
Definition chainMiddle : area :=
  sample "Middle" 0.375%float 0%float "SEVERE" "GDACS" None.
Definition chainEast : area := sample "East" 0.75%float 0%float "EXTREME" "GDACS" None.

End HazardAlertsSpec.

Module HazardAlertsTerms.

Import HazardAlerts HazardAlertsSpec.

(** An entry whose severity is not in the table. *)
Definition watchNotice : area :=
  sample "Swell watch" 30%float 30%float "WATCH" "NOAA" None.

End HazardAlertsTerms.

Module WeatherMapSpec.

Import WeatherMap.

(** A signed-in user with an empty panel. *)
Definition signedIn : state :=
  {| isAuthenticated := true; hazardAlerts := []; alertsLoading := false; toasts := [] |}.

(** A request that never reached the server: no response, hence no status. *)
Definition networkError : requestError := {| status := None; detail := None |}.

End WeatherMapSpec.

Module RouteAnalysisSpec.

Import RouteAnalysis.

(** Two harbors with a positive validation. *)
Definition colombo : point :=
  {| lat := 6.9375%float; lng := 79.875%float;
     name := Some "Colombo"%string; type := Some "harbor"%string |}.
Definition chennai : point :=
  {| lat := 13.125%float; lng := 80.25%float;
     name := Some "Chennai"%string; type := Some "harbor"%string |}.
Definition validHarbor : validation :=
  {| is_valid := true; is_land := false; message := "Valid harbor location"%string;
     nearest_harbor := None |}.

(** Both harbors chosen and validated, a result of an earlier run still stored. *)
Definition readyToAnalyze : state :=
  {| token := Some "token"%string;
     startPoint := Some colombo; endPoint := Some chennai;
     startValidation := Some validHarbor; endValidation := Some validHarbor;
     analyzing := false; analysisResult := Some "earlier analysis"%string;
     abortController := None; aborted := []; nextController := 0; toasts := [];
     uncaught := [] |}.

(** A request that timed out, a point at sea, and the harbor nearest to it. *)
Definition requestTimeout : requestError :=
  {| errName := "AxiosError"%string; errCode := Some "ECONNABORTED"%string;
     errStatus := None; errDetail := None |}.

Definition openWater : point :=
  {| lat := 8.5%float; lng := 78.5%float; name := None; type := None |}.

Definition tuticorin : harbor :=
  {| hLat := 8.75%float; hLon := 78.25%float; hName := "Tuticorin"%string |}.

Definition nothingChosen : state :=
  {| token := Some "token"%string;
     startPoint := None; endPoint := None;
     startValidation := None; endValidation := None;
     analyzing := false; analysisResult := None;
     abortController := None; aborted := []; nextController := 0; toasts := [];
     uncaught := [] |}.

End RouteAnalysisSpec.

Module RouteAnalysisTerms.

Import RouteAnalysis.

(** Every chosen point comes with a validation that is marked valid. *)
Definition vouched (st : state) : Prop :=
  (startPoint st <> None -> validOf (startValidation st) = true)
  /\ (endPoint st <> None -> validOf (endValidation st) = true).

(** The controllers that have been aborted were all created before. *)
Definition controllersKnown (st : state) : Prop :=
  Forall (fun c => c < nextController st) (aborted st).

(** What happens on the route planner, in the order in which the handlers
    finish, with the replies of the two harbor requests where a handler waits
    for them: a selection in a search box, a click on the map, and the
    location handed over by the weather map when the page is mounted.  A map
    click and a hand-over come with the state of the render in which they
    began ([seen]), which may be older than the state they finish in. *)
Inductive action :=
| Select (s : side) (coordinates : option point)
         (vOutcome : reply validation) (nOutcome : reply (option harbor))
| Click (seen : state) (lat lng : float)
        (vOutcome : reply validation) (nOutcome : reply (option harbor))
| HandOver (seen : state) (coordinates : point)
           (vOutcome : reply validation) (nOutcome : reply (option harbor)).

Definition act (st : state) (a : action) : state :=
  match a with
  | Select s coordinates vOutcome nOutcome => onSelect s coordinates vOutcome nOutcome st
  | Click seen lat lng vOutcome nOutcome => mapClick seen lat lng vOutcome nOutcome st
  | HandOver seen coordinates vOutcome nOutcome =>
      loadHandedOver seen coordinates vOutcome nOutcome st
  end.

(** A hand-over whose location the harbor service accepts as a harbor, or for
    which it names a nearest harbor. *)
Definition accepted (a : action) : Prop :=
  match a with
  | HandOver _ _ vOutcome nOutcome =>
      is_valid (validateHarborLocation vOutcome) = true
      \/ getNearestHarbor nOutcome <> None
  | _ => True
  end.

End RouteAnalysisTerms.

Module HazardAlertsPageTerms.

Import HazardAlertsPage.

(** A coordinate within its range, or not a number. *)
Definition withinOrNaN (lo x hi : float) : Prop :=
  is_nan x = true \/ ((lo <=? x)%float = true /\ (x <=? hi)%float = true).

(** The location has a latitude between -90 and 90 and a longitude between
    -180 and 180, where each may also be NaN, and the two are not both
    zero. *)
Definition inRange (l : location) : Prop :=
  withinOrNaN (-90) (latitude l) 90
  /\ withinOrNaN (-180) (longitude l) 180
  /\ ((latitude l =? 0)%float && (longitude l =? 0)%float) = false.

Definition freshPage : state :=
  {| current := defaultLocation; isLocationModalOpen := true;
     storedLocation := None; toasts := [] |}.

(** Greenwich as a search result gives it, with [lon] and without [lng]. *)
Definition greenwich : selection :=
  {| selLat := Some 51.5%float; selLon := Some 0%float; selLng := None;
     selDisplayName := Some (js "Greenwich, London"); selName := Some (js "Greenwich") |}.

(** A point with coordinates and no name at all. *)
Definition namelessPoint : selection :=
  {| selLat := Some 8.5%float; selLon := Some 81.25%float; selLng := None;
     selDisplayName := None; selName := None |}.

(** A selection whose latitude is not a number. *)
Definition latitudeNaN : selection :=
  {| selLat := Some nan; selLon := Some 20%float; selLng := None;
     selDisplayName := Some (js "Somewhere"); selName := None |}.

End HazardAlertsPageTerms.

Module SearchBoxTerms.

Import RouteAnalysis SearchBox.

(** What can happen to the search box. *)
Inductive event :=
| Typed (text : jsstring)
| TimerFired
| Answered (outcome : reply (option (list harborResult)))
| Focused
| Pressed (k : key)
| Hovered (n : nat)
| Clicked (n : nat)
| ClickedOutside
| Cleared.

Definition step (st : state) (e : event) : state :=
  match e with
  | Typed text => setQuery text st
  | TimerFired => queryEffect st
  | Answered outcome => searchHarbors_resume outcome st
  | Focused => onFocus st
  | Pressed k => handleKeyDown k st
  | Hovered n => rowMouseEnter n st
  | Clicked n => rowClick n st
  | ClickedOutside => handleClickOutside st
  | Cleared => clearSearch st
  end.

(** The highlighted row is no row ([-1]) or a row of the list. *)
Definition highlightInRange (st : state) : Prop :=
  (-1 <= selectedIndex st)%Z
  /\ (results st <> [] -> (selectedIndex st < Z.of_nat (List.length (results st)))%Z).

End SearchBoxTerms.

Module WeatherMapChatTerms.

Import WeatherMap WeatherMapChat.

(** What can happen to the chat: typing, sending (the button or Enter, which
    is not disabled while an answer is awaited), and an answer arriving. *)
Inductive event :=
| Typed (text : jsstring)
| Sent (now : N)
| Answered (now : N) (outcome : option jsstring + requestError).

Definition step (st : state) (e : event) : state :=
  match e with
  | Typed text => setChatInput text st
  | Sent now => fst (sendChatMessage_begin now st)
  | Answered now outcome => sendChatMessage_resume now outcome st
  end.

Definition isAnswered (e : event) : bool :=
  match e with Answered _ _ => true | _ => false end.

Definition isAssistant (m : chatMessage) : bool :=
  match msgRole m with Assistant => true | User => false end.

(** The code units that count as white space at the ends of a text: tab,
    line feed, vertical tab, form feed, carriage return, space, no-break
    space, the Unicode space separators, the line and paragraph separators,
    and the byte order mark. *)
Definition blanks : list N :=
  [9; 10; 11; 12; 13; 32; 160; 5760; 8192; 8193; 8194; 8195; 8196; 8197; 8198;
   8199; 8200; 8201; 8202; 8232; 8233; 8239; 8287; 12288; 65279]%N.

Definition blank (c : N) : bool := existsb (N.eqb c) blanks.

(** The first code unit of a text is no white space. *)
Definition startsClean (s : jsstring) : Prop :=
  match s with [] => True | c :: _ => blank c = false end.

(** A transcript entry worth showing: some text, and for the user's own
    entries no white space at either end. *)
Definition wellFormed (m : chatMessage) : Prop :=
  text m <> []
  /\ (msgRole m = User -> startsClean (text m) /\ startsClean (rev (text m))).

(** The messages posted to the server along a run. *)
Fixpoint posted (events : list event) (st : state) : list jsstring :=
  match events with
  | [] => []
  | e :: l =>
      match e with
      | Sent now =>
          match snd (sendChatMessage_begin now st) with
          | Some message => [message]
          | None => []
          end
      | _ => []
      end ++ posted l (step st e)
  end.

Definition visitor : state :=
  {| isAuthenticated := false; chatMessages := []; chatInput := [];
     chatLoading := false; toasts := [] |}.

End WeatherMapChatTerms.

Module HazardAlertsCardTerms.

Import HazardAlertsCard.

Section Loading.

Context {runtime : Runtime} {numbers : Numbers}.

(** A call of [fetchHazardAlerts] by the effect, whose answer arrives before
    anything else happens to the component. *)
Definition load (storage : string -> option string) (p : props) (now : N)
  (outcome : data + WeatherMap.requestError) (st : state) : state :=
  match fetchHazardAlerts_begin storage p st with
  | (st1, Some (_, c)) => fetchHazardAlerts_resume c now outcome st1
  | (st1, None) => st1
  end.

(** A click on the refresh button, whose answer arrives before anything else
    happens to the component. *)
Definition refresh (storage : string -> option string) (p : props) (now : N)
  (outcome : data + WeatherMap.requestError) (st : state) : state :=
  match handleManualRefresh storage p st with
  | (st1, Some (_, c)) => fetchHazardAlerts_resume c now outcome st1
  | (st1, None) => st1
  end.

(** A load by the effect or by the refresh button. *)
Definition reload (manual : bool) := if manual then refresh else load.

End Loading.

(** The same coordinates under another (or no) city name. *)
Definition renamed (p : props) (city' : option jsstring) : props :=
  {| latitude := latitude p; longitude := longitude p; city := city' |}.

(** An alert whose severity is the text "extreme" or the text "severe". *)
Definition extremeOrSevere (a : alert) : bool :=
  match severity a with
  | Some v => JS.eqb v (js "extreme") || JS.eqb v (js "severe")
  | None => false
  end.

(** What a notice may say about the list that is shown with it. *)
Definition noticeFits (note : list toast) (shownAlerts : list alert) : Prop :=
  match note with
  | [] => True
  | [SevereFound _ n] =>
      n = List.length (filter extremeOrSevere shownAlerts) /\ 0 < n
  | [AlertsFound _ n] =>
      n = List.length shownAlerts /\ 0 < n
      /\ Forall (fun a => extremeOrSevere a = false) shownAlerts
  | [SafeConditions _] => shownAlerts = []
  | _ => False
  end.

End HazardAlertsCardTerms.

(* ================================================================== *)
(** * Properties of the safety verdict *)

Module AIChatProps.

Import AIChat AIChatSpec.

Lemma jseqb_eq (a b : jsstring) : JS.eqb a b = true <-> a = b.
Proof.
  revert b; induction a as [|x a IH]; intros [|y b]; simpl; split;
    try congruence; try discriminate.
  - intros H. apply andb_true_iff in H as [Hx Hr].
    apply N.eqb_eq in Hx. apply IH in Hr. congruence.
  - intros H. injection H as -> ->. rewrite N.eqb_refl. simpl. now apply IH.
Qed.

(** ** The loop of a starred pattern *)

Lemma run_star (ic : bool) (R : Type) (g : bool) (r : regex) (pos : nat)
      (s : jsstring) (c : captures) (k : nat -> jsstring -> captures -> option R) :
  run ic (Star g r) pos s c k = starLoop ic g r k (List.length s) pos s c.
Proof. reflexivity. Qed.

Lemma S_neq (pos : nat) : Nat.eqb (S pos) pos = false.
Proof. apply Nat.eqb_neq. lia. Qed.

(** A pattern that reads one code unit of a given kind. *)
Definition reads (ic : bool) (atom : regex) (p : N -> bool) : Prop :=
  forall (R : Type) (pos : nat) (s : jsstring) (c : captures)
         (k : nat -> jsstring -> captures -> option R),
    run ic atom pos s c k
    = match s with
      | y :: t => if p y then k (S pos) t c else None
      | [] => None
      end.

Lemma reads_Digit ic : reads ic Digit isDigit.
Proof. intros R pos s c k. reflexivity. Qed.
Lemma reads_Space ic : reads ic Space isWhiteSpace.
Proof. intros R pos s c k. reflexivity. Qed.
Lemma reads_Dot ic : reads ic Dot (fun y => negb (isLineTerminator y)).
Proof.
  intros R pos s c k. cbn [run]. destruct s as [|y t]; [reflexivity|].
  now destruct (isLineTerminator y).
Qed.

Section Runs.
Context (ic : bool) (atom : regex) (p : N -> bool) (Hatom : reads ic atom p).
Context {R : Type}.

(** A greedy star over a kind of code unit takes the whole run of that kind
    when the continuation accepts what follows the run. *)
Lemma greedy_takes_run (ds rest : jsstring) (k : nat -> jsstring -> captures -> option R)
      (v : R) :
  forall (n pos : nat) (c : captures),
    List.length ds <= n ->
    forallb p ds = true ->
    match rest with [] => True | y :: _ => p y = false end ->
    k (pos + List.length ds) rest c = Some v ->
    starLoop ic true atom k (n + List.length rest) pos (ds ++ rest) c = Some v.
Proof.
  induction ds as [|d ds IH]; intros n pos c Hn Hds Hrest Hk.
  - cbn [app List.length] in *. rewrite Nat.add_0_r in Hk.
    destruct (n + List.length rest) as [|m]; cbn [starLoop]; [exact Hk|].
    rewrite Hatom. destruct rest as [|y t]; [exact Hk|].
    now rewrite Hrest, Hk.
  - cbn [forallb] in Hds. apply andb_true_iff in Hds as [Hd Hds].
    cbn [List.length] in Hn. destruct n as [|n]; [lia|].
    cbn [Nat.add app starLoop]. rewrite Hatom, Hd, S_neq.
    fold (@starLoop ic R true atom k).
    rewrite (IH n (S pos) c); [reflexivity|lia|exact Hds|exact Hrest|].
    cbn [List.length] in Hk. now rewrite Nat.add_succ_comm.
Qed.

(** A lazy star over a kind of code unit stops at the first place where the
    continuation accepts. *)
Lemma lazy_stops_first (ds rest : jsstring) (k : nat -> jsstring -> captures -> option R)
      (v : R) :
  forall (n pos : nat) (c : captures),
    List.length ds <= n ->
    forallb p ds = true ->
    (forall a b, ds = a ++ b -> b <> [] ->
                 k (pos + List.length a) (b ++ rest) c = None) ->
    k (pos + List.length ds) rest c = Some v ->
    starLoop ic false atom k (n + List.length rest) pos (ds ++ rest) c = Some v.
Proof.
  induction ds as [|d ds IH]; intros n pos c Hn Hds Hfail Hk.
  - cbn [app List.length] in *. rewrite Nat.add_0_r in Hk.
    destruct (n + List.length rest) as [|m]; cbn [starLoop]; [exact Hk|].
    now rewrite Hk.
  - cbn [forallb] in Hds. apply andb_true_iff in Hds as [Hd Hds].
    cbn [List.length] in Hn. destruct n as [|n]; [lia|].
    cbn [Nat.add app starLoop].
    pose proof (Hfail [] (d :: ds) eq_refl ltac:(discriminate)) as H0.
    cbn [List.length app] in H0. rewrite Nat.add_0_r in H0. rewrite H0.
    rewrite Hatom, Hd, S_neq.
    fold (@starLoop ic R false atom k).
    apply (IH n (S pos) c); [lia|exact Hds| |].
    + intros a b Hab Hb.
      specialize (Hfail (d :: a) b). cbn [app List.length] in Hfail.
      rewrite Nat.add_succ_comm. apply Hfail; [now rewrite Hab|exact Hb].
    + cbn [List.length] in Hk. now rewrite Nat.add_succ_comm.
Qed.
End Runs.

(** ** Literal patterns *)

Section Literals.
Variable R : Type.

Lemma run_lit (w : jsstring) :
  forall (pos : nat) (s : jsstring) (c : captures)
         (k : nat -> jsstring -> captures -> option R),
    run true (lit w) pos s c k
    = if isPrefixCI w s then k (pos + List.length w) (skipn (List.length w) s) c
      else None.
Proof.
  induction w as [|a w IH]; intros pos s c k.
  - simpl. now rewrite Nat.add_0_r.
  - destruct w as [|b w].
    + simpl. destruct s as [|y t]; [reflexivity|].
      destruct (canon true a =? canon true y)%N; simpl; [|reflexivity].
      now rewrite Nat.add_1_r.
    + change (lit (a :: b :: w)) with (Seq (Chr a) (lit (b :: w))).
      cbn [run]. destruct s as [|y t]; [reflexivity|].
      change (isPrefixCI (a :: b :: w) (y :: t))
        with ((canon true a =? canon true y)%N && isPrefixCI (b :: w) t).
      destruct (canon true a =? canon true y)%N; cbn [andb]; [|reflexivity].
      rewrite IH. destruct (isPrefixCI (b :: w) t); [|reflexivity].
      cbn [List.length skipn]. f_equal. lia.
Qed.
End Literals.

Lemma search_lit (w s : jsstring) :
  forall pos, found (search true (lit w) pos s) = includesCI s w.
Proof.
  induction s as [|y t IH]; intros pos; cbn [search includesCI]; rewrite run_lit.
  - destruct (isPrefixCI w []); reflexivity.
  - destruct (isPrefixCI w (y :: t)); [reflexivity|]. cbn [orb]. apply IH.
Qed.

Lemma search_alt (r1 r2 : regex) (s : jsstring) :
  forall pos,
    found (search true (Alt r1 r2) pos s)
    = found (search true r1 pos s) || found (search true r2 pos s).
Proof.
  induction s as [|y t IH]; intros pos; cbn [search run].
  - destruct (run true r1 pos [] [] _); [reflexivity|].
    destruct (run true r2 pos [] [] _); reflexivity.
  - destruct (run true r1 pos (y :: t) [] _); [reflexivity|].
    destruct (run true r2 pos (y :: t) [] _).
    + cbn. now rewrite orb_true_r.
    + apply IH.
Qed.

Lemma test_found (r : regex) (s : jsstring) : test true r s = found (exec true r s).
Proof. reflexivity. Qed.

(** The keyword test of the medium-risk rule looks for six words, anywhere in
    the response and in any case. *)
Lemma hasDisasterKeywords_spec (response : jsstring) :
  hasDisasterKeywords response = existsb (includesCI response) hazardWords.
Proof.
  unfold hasDisasterKeywords. rewrite test_found. unfold exec, reDisasterKeywords.
  cbn [alts existsb hazardWords]. unfold txt.
  rewrite !search_alt, !search_lit. now rewrite orb_false_r, !orb_assoc.
Qed.

(** The explicit-warning test looks for five phrases, in any letter case. *)
Lemma explicitlyUnsafe_phrases (response : jsstring) :
  explicitlyUnsafe response = existsb (includesCI response) warningPhrases.
Proof.
  unfold explicitlyUnsafe. rewrite test_found. unfold exec, reExplicitlyUnsafe.
  cbn [alts existsb warningPhrases]. unfold txt.
  rewrite !search_alt, !search_lit. now rewrite orb_false_r, !orb_assoc.
Qed.

(** ** Reading the count of affecting disasters *)

Lemma isPrefixCI_refl (w rest : jsstring) : isPrefixCI w (w ++ rest) = true.
Proof.
  induction w as [|a w IH]; [reflexivity|].
  cbn [app isPrefixCI]. now rewrite N.eqb_refl.
Qed.

Lemma isPrefixCI_app (w x y : jsstring) :
  List.length w <= List.length x -> isPrefixCI w (x ++ y) = isPrefixCI w x.
Proof.
  revert x. induction w as [|a w IH]; intros x H; [now destruct x|].
  destruct x as [|b x]; [cbn in H; lia|].
  cbn [app isPrefixCI]. rewrite IH; [reflexivity|cbn in H; lia].
Qed.

Lemma includesCI_suffix (a b w : jsstring) :
  includesCI (a ++ b) w = false -> isPrefixCI w b = false.
Proof.
  induction a as [|x a IH]; cbn [app].
  - destruct b; cbn [includesCI]; intros H; now apply orb_false_iff in H as [H _].
  - cbn [includesCI]. intros H. apply orb_false_iff in H as [_ H]. now apply IH.
Qed.

(** Nothing matches in front of a text that does not hold the first word of
    the pattern. *)
Lemma search_past (w : jsstring) (r : regex) (pre rest : jsstring) :
  forall pos,
    (forall a b, pre = a ++ b -> b <> [] -> isPrefixCI w (b ++ rest) = false) ->
    search true (Seq (lit w) r) pos (pre ++ rest)
    = search true (Seq (lit w) r) (pos + List.length pre) rest.
Proof.
  induction pre as [|y pre IH]; intros pos H.
  - cbn [app List.length]. now rewrite Nat.add_0_r.
  - cbn [app search run]. rewrite run_lit.
    change (y :: pre ++ rest) with ((y :: pre) ++ rest).
    rewrite (H [] (y :: pre) eq_refl) by discriminate.
    rewrite IH.
    + cbn [List.length]. now rewrite Nat.add_succ_comm.
    + intros a b Hab Hb. apply (H (y :: a) b); [now rewrite Hab|exact Hb].
Qed.

Lemma canon_paren (y : N) : (canon true 40 =? canon true y)%N = (y =? 40)%N.
Proof.
  change (canon true 40) with 40%N. unfold canon. cbn [andb].
  destruct ((97 <=? y)%N && (y <=? 122)%N) eqn:E.
  - apply andb_true_iff in E as [E1 E2]. apply N.leb_le in E1, E2.
    destruct (N.eqb_spec 40 (y - 32)), (N.eqb_spec y 40); try reflexivity; lia.
  - apply N.eqb_sym.
Qed.

Lemma whiteSpace_not_digit (y : N) : isWhiteSpace y = true -> isDigit y = false.
Proof.
  unfold isWhiteSpace, isDigit. intros H.
  destruct ((48 <=? y)%N && (y <=? 57)%N) eqn:E; [|reflexivity].
  apply andb_true_iff in E as [E1 E2]. apply N.leb_le in E1, E2.
  repeat (apply orb_true_iff in H as [H|H]);
    try (apply N.eqb_eq in H; lia);
    try (apply andb_true_iff in H as [H1 H2]; apply N.leb_le in H1; lia).
Qed.

Lemma uintDigits_digits (d : Decimal.uint) : forallb isDigit (uintDigits d) = true.
Proof. induction d; cbn; auto. Qed.

Lemma parseInt_acc (d : Decimal.uint) :
  forall acc : positive,
    fold_left (fun a x => (a * 10 + (x - 48))%N) (uintDigits d) (N.pos acc)
    = N.pos (Pos.of_uint_acc d acc).
Proof.
  induction d; intros acc; cbn [uintDigits fold_left Pos.of_uint_acc];
    [reflexivity| | | | | | | | | |];
    rewrite <- IHd; f_equal; lia.
Qed.

Lemma parseInt_uintDigits (d : Decimal.uint) : parseInt (uintDigits d) = N.of_uint d.
Proof.
  unfold parseInt, N.of_uint.
  induction d; cbn [uintDigits fold_left Pos.of_uint]; [reflexivity| | | | | | | | | |];
    try exact IHd;
    match goal with
    | |- fold_left _ _ ?x = _ =>
        let y := eval vm_compute in x in change x with y
    end; apply parseInt_acc.
Qed.

Lemma parseInt_decimal (n : N) : parseInt (decimal n) = n.
Proof. unfold decimal. rewrite parseInt_uintDigits. apply DecimalN.Unsigned.of_to. Qed.

Lemma decimal_not_empty (n : N) : decimal n <> [].
Proof.
  unfold decimal. destruct n as [|p]; [discriminate|].
  intros H. pose proof (parseInt_decimal (N.pos p)) as Hp.
  unfold decimal in Hp. rewrite H in Hp. discriminate Hp.
Qed.

Lemma search_here (ic : bool) (r : regex) (pos : nat) (s : jsstring) (m : matchResult) :
  run ic r pos s []
      (fun p' _ c' => Some {| mStart := pos; mEnd := p'; mGroups := c' |}) = Some m ->
  search ic r pos s = Some m.
Proof. intros H. destruct s; cbn [search]; now rewrite H. Qed.

Lemma run_seq (ic : bool) (R : Type) (r1 r2 : regex) (pos : nat) (s : jsstring)
      (c : captures) (k : nat -> jsstring -> captures -> option R) :
  run ic (Seq r1 r2) pos s c k
  = run ic r1 pos s c (fun p' s' c' => run ic r2 p' s' c' k).
Proof. reflexivity. Qed.

Lemma run_group (ic : bool) (R : Type) (i : nat) (r1 : regex) (pos : nat) (s : jsstring)
      (c : captures) (k : nat -> jsstring -> captures -> option R) :
  run ic (Group i r1) pos s c k
  = run ic r1 pos s c (fun p' s' c' => k p' s' ((i, firstn (p' - pos) s) :: c')).
Proof. reflexivity. Qed.

Lemma run_chr (ic : bool) (R : Type) (x y : N) (pos : nat) (t : jsstring)
      (c : captures) (k : nat -> jsstring -> captures -> option R) :
  run ic (Chr x) pos (y :: t) c k
  = if (canon ic x =? canon ic y)%N then k (S pos) t c else None.
Proof. reflexivity. Qed.

Lemma skipn_exact {A : Type} (l1 l2 : list A) : skipn (List.length l1) (l1 ++ l2) = l2.
Proof. induction l1; [reflexivity|assumption]. Qed.

Lemma firstn_exact {A : Type} (l1 l2 : list A) : firstn (List.length l1) (l1 ++ l2) = l1.
Proof. induction l1; cbn; [reflexivity|now f_equal]. Qed.

(** The count that the classifier reads from a response whose first report of
    affecting disasters stands on one line is the number written there. *)
Lemma disasterCount_of_report (pre mid gap post : jsstring) (n : N) :
  firstReport pre mid gap ->
  disasterCount (countReport pre mid n gap post) = n.
Proof.
  intros (Hpre & Hmid & Hgap & Hws).
  assert (Hdig : forallb isDigit (decimal n) = true) by apply uintDigits_digits.
  pose proof (decimal_not_empty n) as Hne.
  pose proof (parseInt_decimal n) as Hparse.
  unfold countReport.
  destruct (decimal n) as [|d0 ds]; [contradiction|].
  destruct gap as [|g0 gs]; [contradiction|].
  cbn [forallb] in Hdig, Hws.
  apply andb_true_iff in Hdig as [Hd0 Hds]. apply andb_true_iff in Hws as [Hg0 Hgs].
  enough (Hm : exists e,
            exec true reAffectingDisasters
              (pre ++ js "AFFECTING DISASTERS" ++ mid ++ js "(" ++ (d0 :: ds)
                   ++ (g0 :: gs) ++ js "total)" ++ post)
            = Some {| mStart := 0 + List.length pre; mEnd := e;
                      mGroups := [(1, d0 :: ds)] |}).
  { destruct Hm as [e Hm]. unfold disasterCount. rewrite Hm. exact Hparse. }
  unfold exec.
  remember (js "AFFECTING DISASTERS") as w eqn:Ew.
  remember (js "total)") as tot eqn:Etot.
  change (js "(") with [40%N].
  change reAffectingDisasters
    with (Seq (lit (js "AFFECTING DISASTERS"))
              (Seq (Star false Dot)
                 (Seq (Chr 40)
                    (Seq (Group 1 (Seq Digit (Star true Digit)))
                       (Seq (Seq Space (Star true Space)) (lit (js "total)"))))))).
  rewrite <- Ew, <- Etot.
  rewrite search_past.
  2:{ intros a b Hab Hb.
      assert (Hw : w = js "AFFECTING DISASTER" ++ [83%N]) by (subst w; reflexivity).
      rewrite Hw at 2. rewrite <- app_assoc, app_assoc.
      rewrite isPrefixCI_app.
      - apply (includesCI_suffix a). rewrite app_assoc, <- Hab. now subst w.
      - rewrite length_app. subst w. destruct b; [contradiction|]. cbn. lia. }
  eexists. apply search_here.
  rewrite run_seq, run_lit, isPrefixCI_refl, skipn_exact.
  rewrite run_seq, run_star, length_app.
  apply (lazy_stops_first true Dot _ (reads_Dot true)); [apply le_n| | |].
  - clear - Hmid. induction mid as [|y mid IH]; [reflexivity|].
    cbn [existsb forallb] in *. apply orb_false_iff in Hmid as [Hy Hm].
    apply orb_false_iff in Hy as [Hy _]. now rewrite Hy, IH.
  - intros a b Hab Hb. destruct b as [|y b]; [contradiction|].
    cbn [app]. rewrite run_seq, run_chr, canon_paren.
    assert (Hy : (y =? 40)%N = false).
    { clear - Hmid Hab. subst mid. induction a as [|x a IH]; cbn [app existsb] in Hmid.
      - apply orb_false_iff in Hmid as [Hy _]. now apply orb_false_iff in Hy as [_ Hy].
      - apply orb_false_iff in Hmid as [_ Hm]. now apply IH. }
    now rewrite Hy.
  - cbn [app]. rewrite run_seq, run_chr, N.eqb_refl.
    rewrite run_seq, run_group, run_seq, (reads_Digit true), Hd0.
    rewrite run_star, length_app.
    apply (greedy_takes_run true Digit _ (reads_Digit true)); [apply le_n|exact Hds| |].
    + cbn [app]. now apply whiteSpace_not_digit.
    + cbn [app]. rewrite run_seq, run_seq, (reads_Space true), Hg0.
      rewrite run_star, length_app.
      apply (greedy_takes_run true Space _ (reads_Space true)); [apply le_n|exact Hgs| |].
      * subst tot. reflexivity.
      * rewrite run_lit, isPrefixCI_refl.
        match goal with
        | |- context [firstn ?k ?l] =>
            replace (firstn k l) with (d0 :: ds); [reflexivity|];
            replace k with (List.length (d0 :: ds)) by (cbn [List.length]; lia)
        end.
        symmetry. apply (firstn_exact (d0 :: ds)).
Qed.

(** The text of the first rule starts with the UNSAFE header, whatever the
    count prints as. *)
Lemma unsafeActiveDisasters_prefix (rt : Runtime) (n : N) :
  isPrefix (js "❌ UNSAFE - ") (unsafeActiveDisasters n) = true.
Proof. reflexivity. Qed.

(** A greedy run of white space in front of a continuation that accepts
    anything: the captures reach the continuation unchanged. *)
Lemma trailing_spaces (s : jsstring) :
  forall (pos : nat) (c : captures),
  exists e,
    run true (Star true Space) pos s c
        (fun p' _ c' => Some {| mStart := 0; mEnd := p'; mGroups := c' |})
    = Some {| mStart := 0; mEnd := e; mGroups := c |}.
Proof.
  induction s as [|y t IH]; intros pos c.
  - exists pos. reflexivity.
  - destruct (IH (S pos) c) as [e He].
    simpl. destruct (isWhiteSpace y) eqn:Hy.
    + assert (Hne : Nat.eqb (S pos) pos = false) by (apply Nat.eqb_neq; lia).
      simpl in He, Hne. rewrite Hne, He. exists e. reflexivity.
    + exists pos. reflexivity.
Qed.

(** Read back with the classifier's own header pattern, a text that opens
    with the UNSAFE header carries the icon and the word of an UNSAFE verdict,
    whatever follows. *)
Lemma unsafe_header_read (rest : jsstring) :
  mainSafetyVerdict (js "❌ UNSAFE - " ++ rest) = Some (js "❌", js "UNSAFE").
Proof.
  unfold mainSafetyVerdict, exec.
  destruct (trailing_spaces rest 11 [(2, js "UNSAFE"); (1, js "❌")]) as [e He].
  cbn.
  match goal with
  | |- context [match ?X with
                | Some v => Some v
                | None => Some {| mStart := 0; mEnd := 10; mGroups := _ |}
                end] =>
      replace X with (Some {| mStart := 0; mEnd := e;
                              mGroups := [(2, js "UNSAFE"); (1, js "❌")] |})
        by (symmetry; exact He)
  end.
  reflexivity.
Qed.

(** ** The patterns at work *)

Example js_warning_icon : js "⚠️" = [9888; 65039]%N.
Proof. reflexivity. Qed.

Example js_surrogate_pair : js "🌊" = [55356; 57098]%N.
Proof. reflexivity. Qed.

Example disasterCount_first_match :
  disasterCount (js "Affecting disasters near you (12  total), region (3 total)") = 12%N.
Proof. vm_compute; reflexivity. Qed.

Example disasterCount_needs_same_line :
  disasterCount (js "AFFECTING DISASTERS
(4 total)") = 0%N.
Proof. vm_compute; reflexivity. Qed.

Example header_any_case :
  mainSafetyVerdict (js "✅safe-fine") = Some (js "✅", js "SAFE")
  /\ mainSafetyVerdict (js "⚠️  not safe - wait") = Some (js "⚠️", js "NOT SAFE")
  /\ mainSafetyVerdict (js "Note: ✅ SAFE - fine") = None.
Proof. repeat split; vm_compute; reflexivity. Qed.

Example safety_query_guard :
  isSafetyQuery (js "Is it SAFE for us to Travel there?") = true
  /\ isSafetyQuery (js "Wind 12 kn, waves 1 m") = false.
Proof. split; vm_compute; reflexivity. Qed.

Example advanced_model_drops_misleading_header :
  simplifyBasicGPTResponse (rt := asciiRuntime)
    (js "✅ SAFE - Low Risk for Travel

Risk Level: HIGH") (js "advanced")
  = js "Risk Level: HIGH".
Proof. vm_compute; reflexivity. Qed.

Example fallback_unclear :
  classifySafety (rt := asciiRuntime) (js "INTELLIGENT SAFETY ANALYSIS pending")
  = unclear (js "INTELLIGENT SAFETY ANALYSIS pending").
Proof. vm_compute; reflexivity. Qed.

(** The weather summary keeps the place and the readings of the first
    weather block. *)
Example weather_summary_of_a_report :
  simplifyBasicGPTResponse (rt := asciiRuntime)
    (js "Current weather conditions in Colombo:
Temperature: 29 C
Wind: 12 kn

AFFECTING DISASTERS (2 total)") (js "basic")
  = js "Current weather in Colombo:
Temperature: 29 C
Wind: 12 kn".
Proof. vm_compute; reflexivity. Qed.

(** ** The way to the classifier *)

Lemma simplify_reaches (rt : Runtime) (response : jsstring) :
  reachesClassifier response ->
  simplifyBasicGPTResponse response (js "basic") = classifySafety response.
Proof.
  intros (Hw & Hr & H1 & H2 & H3 & H4 & Hq).
  unfold simplifyBasicGPTResponse, isDisasterDigest.
  replace (JS.eqb (js "basic") (js "basic")) with true by reflexivity.
  cbn [negb]. now rewrite Hw, Hr, H1, H2, H3, H4, Hq.
Qed.

(** ** C1 *)

Lemma unsafe_prefix_not_caution (rest : jsstring) :
  ~ In (js "❌ UNSAFE - " ++ rest) cautionTexts.
Proof.
  intros H. repeat (destruct H as [H|H]; [discriminate H|]). exact H.
Qed.

(** C1, within the classifier: when the response reports a positive count of
    affecting disasters, the verdict is the text "❌ UNSAFE - n active
    disaster(s) affecting this location" with n the count printed by the
    engine, whatever else the response holds (a SAFE header, a medium risk
    level, any keyword): the rule is the first of the classifier.  The text
    reads back as an UNSAFE header and is none of the warning-tier texts.  It is
    the result of the simplifier for a response of the basic model that the
    weather, route and disaster-list branches pass on and that the guard of
    the safety branch accepts.  The count is the number written in the first
    report "AFFECTING DISASTERS ... (n total)" that stands on one line. *)
Theorem C1_active_disasters_override :
  forall (rt : Runtime) (response : jsstring),
    (0 < disasterCount response)%N ->
    classifySafety response
    = js "❌ UNSAFE - " ++ numberToString (disasterCount response)
         ++ js " active disaster(s) affecting this location"
    /\ mainSafetyVerdict (classifySafety response) = Some (js "❌", js "UNSAFE")
    /\ headerTier (js "❌") (js "UNSAFE") = UNSAFE
    /\ ~ In (classifySafety response) cautionTexts
    /\ (reachesClassifier response ->
        simplifyBasicGPTResponse response (js "basic")
        = js "❌ UNSAFE - " ++ numberToString (disasterCount response)
             ++ js " active disaster(s) affecting this location")
    /\ (forall (pre mid gap post : jsstring) (n : N),
          response = countReport pre mid n gap post ->
          firstReport pre mid gap ->
          classifySafety response
          = js "❌ UNSAFE - " ++ numberToString n
               ++ js " active disaster(s) affecting this location").
Proof.
  intros rt response Hpos.
  assert (Hc : classifySafety response
               = js "❌ UNSAFE - " ++ numberToString (disasterCount response)
                    ++ js " active disaster(s) affecting this location").
  { unfold classifySafety. apply N.ltb_lt in Hpos. now rewrite Hpos. }
  split; [exact Hc|]. rewrite Hc.
  split; [apply unsafe_header_read|].
  split; [reflexivity|].
  split; [apply unsafe_prefix_not_caution|].
  split.
  - intros Hreach. now rewrite simplify_reaches.
  - intros pre mid gap post n -> Hfirst.
    now rewrite (disasterCount_of_report pre mid gap post n Hfirst).
Qed.

Lemma C1_active_disasters_override_witness :
  (0 < disasterCount safeHeaderWithDisasters)%N
  /\ classifySafety (rt := asciiRuntime) safeHeaderWithDisasters
     = js "❌ UNSAFE - 3 active disaster(s) affecting this location"
  /\ hasMediumRisk safeHeaderWithDisasters = true
  /\ reachesClassifier safeHeaderWithDisasters
  /\ simplifyBasicGPTResponse (rt := asciiRuntime) safeHeaderWithDisasters (js "basic")
     = js "❌ UNSAFE - 3 active disaster(s) affecting this location".
Proof.
  assert (Hpos : (0 < disasterCount safeHeaderWithDisasters)%N) by reflexivity.
  assert (Hreach : reachesClassifier safeHeaderWithDisasters).
  { split; [vm_compute; reflexivity|]. split; [vm_compute; reflexivity|].
    split; [vm_compute; reflexivity|]. split; [vm_compute; reflexivity|].
    split; [vm_compute; reflexivity|]. split; vm_compute; reflexivity. }
  destruct (C1_active_disasters_override asciiRuntime safeHeaderWithDisasters Hpos)
    as (Hc & _ & _ & _ & Hs & _).
  split; [exact Hpos|].
  split; [etransitivity; [exact Hc | vm_compute; reflexivity]|].
  split; [vm_compute; reflexivity|].
  split; [exact Hreach|].
  etransitivity; [exact (Hs Hreach) | vm_compute; reflexivity].
Defined.

(** C1 fails for the simplifier as a whole: a response that asks whether it
    is safe to travel, reports three affecting disasters and mentions STORMS is
    taken by the disaster-list branch, which stands before the classifier; the
    result is the list summary, with no verdict and no count. *)
Lemma C1_disaster_list_answers_first :
  (0 < disasterCount stormsWithDisasters)%N
  /\ isSafetyQuery stormsWithDisasters = true
  /\ classifySafety (rt := asciiRuntime) stormsWithDisasters
     = js "❌ UNSAFE - 3 active disaster(s) affecting this location"
  /\ simplifyBasicGPTResponse (rt := asciiRuntime) stormsWithDisasters (js "basic")
     = js "🌪️ CURRENT GLOBAL DISASTERS:

📊 DATA SOURCES: global_disaster_monitor"
  /\ mainSafetyVerdict
       (simplifyBasicGPTResponse (rt := asciiRuntime) stormsWithDisasters (js "basic"))
     = None.
Proof.
  split; [reflexivity|].
  split; [vm_compute; reflexivity|].
  split; [vm_compute; reflexivity|].
  split; vm_compute; reflexivity.
Qed.

(** ** C2 *)

(** C2, as the code has it.  For a response that states a MEDIUM risk level
    the verdict is decided in this order: a positive count of affecting
    disasters gives the UNSAFE text with the count; else one of the warning
    phrases gives "UNSAFE - Travel not recommended"; else a verdict header at
    the start gives the text of the tier the header reads as (for a SAFE
    header, "SAFE - Low Risk for Travel"); else a HIGH risk level gives
    "UNSAFE - High Risk for Travel"; else the response gets "NOT SAFE - Medium
    risk with active hazards" when it mentions, in any letter case, one of
    Earthquake, Storm, Typhoon, Tsunami, Flood, Hurricane, and "SAFE - Medium
    Risk (Exercise Caution)" otherwise.  The two medium texts open with the
    warning icon and read back in the warning tier; they differ; the word of
    the first header is NOT SAFE and the word of the second is SAFE. *)
Theorem C2_medium_risk_verdicts :
  forall (rt : Runtime) (response : jsstring),
    hasMediumRisk response = true ->
    classifySafety response
    = (if (0 <? disasterCount response)%N then
         js "❌ UNSAFE - " ++ numberToString (disasterCount response)
            ++ js " active disaster(s) affecting this location"
       else if existsb (includesCI response) warningPhrases then
         js "❌ UNSAFE - Travel not recommended"
       else
         match mainSafetyVerdict response with
         | Some (icon, verdict) => headerVerdict (headerTier icon verdict)
         | None =>
             if hasHighRisk response then js "❌ UNSAFE - High Risk for Travel"
             else if existsb (includesCI response) hazardWords then
               js "⚠️ NOT SAFE - Medium risk with active hazards"
             else js "⚠️ SAFE - Medium Risk (Exercise Caution)"
         end)
    /\ (reachesClassifier response ->
        simplifyBasicGPTResponse response (js "basic") = classifySafety response)
    /\ js "⚠️ NOT SAFE - Medium risk with active hazards"
       <> js "⚠️ SAFE - Medium Risk (Exercise Caution)"
    /\ mainSafetyVerdict (js "⚠️ NOT SAFE - Medium risk with active hazards")
       = Some (js "⚠️", js "NOT SAFE")
    /\ mainSafetyVerdict (js "⚠️ SAFE - Medium Risk (Exercise Caution)")
       = Some (js "⚠️", js "SAFE")
    /\ headerTier (js "⚠️") (js "NOT SAFE") = NOT_SAFE
    /\ headerTier (js "⚠️") (js "SAFE") = NOT_SAFE.
Proof.
  intros rt response Hmed.
  split.
  { unfold classifySafety, riskLevelVerdict.
    rewrite explicitlyUnsafe_phrases, hasDisasterKeywords_spec, Hmed.
    destruct (0 <? disasterCount response)%N; [reflexivity|].
    destruct (existsb (includesCI response) warningPhrases); [reflexivity|].
    destruct (mainSafetyVerdict response) as [[icon verdict]|].
    - destruct (headerTier icon verdict);
        cbv [tierText headerVerdict unsafeHeader notSafeHeader safeLowRisk]; reflexivity.
    - destruct (hasHighRisk response); [reflexivity|].
      destruct (existsb (includesCI response) hazardWords);
        cbv [notSafeMediumHazards safeMediumRisk]; reflexivity. }
  split; [apply simplify_reaches|].
  split; [intros H; vm_compute in H; discriminate H|].
  split; [vm_compute; reflexivity|].
  split; [vm_compute; reflexivity|].
  split; vm_compute; reflexivity.
Qed.

Lemma C2_medium_risk_verdicts_witness :
  hasMediumRisk (js "Travel advisory. Risk Level: MEDIUM. Storm warning in effect.") = true
  /\ classifySafety (rt := asciiRuntime)
       (js "Travel advisory. Risk Level: MEDIUM. Storm warning in effect.")
     = js "⚠️ NOT SAFE - Medium risk with active hazards".
Proof.
  assert (Hmed : hasMediumRisk
            (js "Travel advisory. Risk Level: MEDIUM. Storm warning in effect.") = true)
    by (vm_compute; reflexivity).
  split; [exact Hmed|].
  rewrite (proj1 (C2_medium_risk_verdicts asciiRuntime _ Hmed)).
  vm_compute; reflexivity.
Defined.

(** C2 as stated fails on three inputs.  A bare medium risk level yields a
    text whose header word is SAFE; a typhoon, which is none of storm, tsunami,
    flood and earthquake, yields the active-hazard text and not the
    exercise-caution one; and a response that opens with a SAFE header and
    states a medium risk level and a storm yields "SAFE - Low Risk for Travel",
    which is not of the warning tier at all. *)
Lemma C2_plain_medium_is_labelled_safe :
  (hasMediumRisk (js "Risk Level: MEDIUM") = true
   /\ classifySafety (rt := asciiRuntime) (js "Risk Level: MEDIUM")
      = js "⚠️ SAFE - Medium Risk (Exercise Caution)"
   /\ option_map snd
        (mainSafetyVerdict (classifySafety (rt := asciiRuntime) (js "Risk Level: MEDIUM")))
      = Some (js "SAFE"))
  /\ (hasMediumRisk (js "Risk Level: MEDIUM. Typhoon nearby.") = true
      /\ existsb (includesCI (js "Risk Level: MEDIUM. Typhoon nearby."))
                 [js "storm"; js "tsunami"; js "flood"; js "earthquake"] = false
      /\ classifySafety (rt := asciiRuntime) (js "Risk Level: MEDIUM. Typhoon nearby.")
         = js "⚠️ NOT SAFE - Medium risk with active hazards")
  /\ (hasMediumRisk safeHeaderMediumStorm = true
      /\ includesCI safeHeaderMediumStorm (js "storm") = true
      /\ disasterCount safeHeaderMediumStorm = 0%N
      /\ classifySafety (rt := asciiRuntime) safeHeaderMediumStorm
         = js "✅ SAFE - Low Risk for Travel"
      /\ mainSafetyVerdict (js "✅ SAFE - Low Risk for Travel") = Some (js "✅", js "SAFE")
      /\ headerTier (js "✅") (js "SAFE") = SAFE).
Proof.
  repeat split; vm_compute; reflexivity.
Qed.

End AIChatProps.

(* ================================================================== *)
(** * Properties of the high-risk area pipeline *)

Module HazardAlertsProps.

Import HazardAlerts HazardAlertsSpec HazardAlertsTerms.

(** ** De-duplication by position *)

Section FindIndex.
Context {A : Type} (p : A -> bool).

Lemma findIndexFrom_skip (l1 l2 : list A) :
  forall i, existsb p l1 = false ->
            findIndexFrom p i (l1 ++ l2)
            = findIndexFrom p (i + Z.of_nat (List.length l1)) l2.
Proof.
  induction l1 as [|x l1 IH]; intros i H; simpl in *.
  - now rewrite Z.add_0_r.
  - apply orb_false_iff in H as [Hx Hl]. rewrite Hx, IH by assumption.
    f_equal. lia.
Qed.

Lemma findIndexFrom_hit (l1 l2 : list A) :
  forall i, existsb p l1 = true ->
            (i <= findIndexFrom p i (l1 ++ l2) < i + Z.of_nat (List.length l1))%Z.
Proof.
  induction l1 as [|x l1 IH]; intros i H; simpl in *; [discriminate|].
  destruct (p x); [lia|]. simpl in H. specialize (IH (i + 1)%Z H). lia.
Qed.

Lemma findIndexFrom_range (l : list A) :
  forall i, findIndexFrom p i l = (-1)%Z \/ (i <= findIndexFrom p i l)%Z.
Proof.
  induction l as [|x l IH]; intros i; simpl; [now left|].
  destruct (p x); [right; lia|]. destruct (IH (i + 1)%Z); [now left|right; lia].
Qed.
End FindIndex.

(** The test of the code is the box test. *)
Lemma near_inBox (a x : area) : near a x = inBox a x.
Proof. reflexivity. Qed.

(** Whether the entry [x], which follows [earlier] and precedes [later], passes
    the filter of [uniqueAreas]. *)
Lemma unique_test (earlier later : list area) (x : area) :
  (Z.of_nat (List.length earlier)
   =? findIndex (fun a => near a x) (earlier ++ x :: later))%Z
  = negb (existsb (fun a => inBox a x) earlier) && inBox x x.
Proof.
  unfold findIndex.
  change (fun a => inBox a x) with (fun a => near a x).
  change (inBox x x) with (near x x).
  destruct (existsb (fun a => near a x) earlier) eqn:He; cbn [negb andb].
  - apply Z.eqb_neq.
    pose proof (findIndexFrom_hit (fun a => near a x) earlier (x :: later) 0%Z He).
    lia.
  - rewrite findIndexFrom_skip by assumption. cbn [findIndexFrom].
    destruct (near x x).
    + apply Z.eqb_eq. lia.
    + apply Z.eqb_neq.
      destruct (findIndexFrom_range (fun a => near a x) later
                  (0 + Z.of_nat (List.length earlier) + 1)%Z); lia.
Qed.

Lemma filterFrom_uniqueAfter (l : list area) :
  forall earlier,
    filterFrom
      (fun area index self => (index =? findIndex (fun a => near a area) self)%Z)
      (earlier ++ l) (Z.of_nat (List.length earlier)) l
    = uniqueAfter earlier l.
Proof.
  induction l as [|x t IH]; intros earlier; [reflexivity|].
  cbn [filterFrom uniqueAfter]. rewrite unique_test.
  specialize (IH (earlier ++ [x])).
  rewrite <- app_assoc, length_app in IH. cbn [List.length app] in IH.
  replace (Z.of_nat (List.length earlier + 1)) with (Z.of_nat (List.length earlier) + 1)%Z
    in IH by lia.
  now rewrite IH.
Qed.

Lemma uniqueAreas_uniqueAfter (l : list area) : uniqueAreas l = uniqueAfter [] l.
Proof. exact (filterFrom_uniqueAfter l []). Qed.

Lemma uniqueAfter_app (l1 l2 : list area) :
  forall earlier,
    uniqueAfter earlier (l1 ++ l2)
    = uniqueAfter earlier l1 ++ uniqueAfter (earlier ++ l1) l2.
Proof.
  induction l1 as [|x t IH]; intros earlier; cbn [app uniqueAfter].
  - now rewrite app_nil_r.
  - rewrite IH, <- app_assoc. cbn [app].
    destruct (negb (existsb (fun a => inBox a x) earlier) && inBox x x); reflexivity.
Qed.

Lemma uniqueAfter_incl (l : list area) :
  forall earlier x, In x (uniqueAfter earlier l) -> In x l.
Proof.
  induction l as [|y t IH]; intros earlier x; cbn [uniqueAfter]; [easy|].
  destruct (negb (existsb (fun a => inBox a y) earlier) && inBox y y);
    cbn [In]; intros H.
  - destruct H as [->|H]; [now left|right; eauto].
  - right; eauto.
Qed.

Lemma uniqueAfter_far (l : list area) :
  forall earlier,
    Forall (fun x => forall a, In a earlier -> inBox a x = false)
           (uniqueAfter earlier l).
Proof.
  induction l as [|y t IH]; intros earlier; cbn [uniqueAfter]; [constructor|].
  assert (Ht : Forall (fun x => forall a, In a earlier -> inBox a x = false)
                      (uniqueAfter (earlier ++ [y]) t)).
  { eapply Forall_impl; [|apply IH].
    intros x Hx a Ha. apply Hx, in_or_app. now left. }
  destruct (existsb (fun a => inBox a y) earlier) eqn:He; cbn [negb andb]; [exact Ht|].
  destruct (inBox y y); [|exact Ht].
  constructor; [|exact Ht].
  intros a Ha. destruct (inBox a y) eqn:Hn; [|reflexivity].
  assert (existsb (fun a => inBox a y) earlier = true)
    by (apply existsb_exists; eauto).
  congruence.
Qed.

Lemma existsb_incl {A : Type} (p : A -> bool) (l1 l2 : list A) :
  incl l1 l2 -> existsb p l2 = false -> existsb p l1 = false.
Proof.
  intros Hi H. destruct (existsb p l1) eqn:E; [|reflexivity].
  apply existsb_exists in E as (x & Hx & Hp).
  assert (existsb p l2 = true) by (apply existsb_exists; eauto).
  congruence.
Qed.

Lemma uniqueAfter_idem (l : list area) :
  forall earlier earlier',
    incl earlier' earlier ->
    uniqueAfter earlier' (uniqueAfter earlier l) = uniqueAfter earlier l.
Proof.
  induction l as [|x t IH]; intros earlier earlier' Hi; [reflexivity|].
  cbn [uniqueAfter].
  destruct (existsb (fun a => inBox a x) earlier) eqn:He; cbn [negb andb].
  - apply IH. now apply incl_appl.
  - destruct (inBox x x) eqn:Hx.
    + cbn [uniqueAfter]. rewrite (existsb_incl _ _ _ Hi He), Hx. cbn [negb andb].
      f_equal. apply IH. apply incl_app; [now apply incl_appl|apply incl_appr, incl_refl].
    + apply IH. now apply incl_appl.
Qed.

(** ** Insertion *)

Section Insertion.
Context {A : Type}.

Lemma insertSorted_perm (cmp : A -> A -> Z) (a : A) (l : list A) :
  Permutation (a :: l) (insertSorted cmp a l).
Proof.
  induction l as [|b t IH]; cbn [insertSorted]; [reflexivity|].
  destruct (cmp a b <=? 0)%Z; [reflexivity|].
  rewrite perm_swap. now constructor.
Qed.

Lemma sort_perm (cmp : A -> A -> Z) (l : list A) : Permutation l (sort cmp l).
Proof.
  induction l as [|a t IH]; cbn; [constructor|].
  rewrite <- insertSorted_perm. now constructor.
Qed.

(** Insertion looks at the comparator on the elements of the list only. *)
Lemma insertSorted_ext (c1 c2 : A -> A -> Z) (a : A) (l : list A) :
  (forall b, In b l -> c1 a b = c2 a b) ->
  insertSorted c1 a l = insertSorted c2 a l.
Proof.
  induction l as [|b t IH]; intros H; cbn [insertSorted]; [reflexivity|].
  rewrite (H b) by now left.
  destruct (c2 a b <=? 0)%Z; [reflexivity|].
  f_equal. apply IH. intros x Hx. apply H. now right.
Qed.

Lemma sort_ext (c1 c2 : A -> A -> Z) (l : list A) :
  (forall a b, In a l -> In b l -> c1 a b = c2 a b) ->
  sort c1 l = sort c2 l.
Proof.
  induction l as [|a t IH]; intros H; [reflexivity|].
  cbn [sort fold_right]. fold (sort c1 t). fold (sort c2 t).
  rewrite IH by (intros x y Hx Hy; apply H; now right).
  apply insertSorted_ext. intros b Hb. apply H; [now left|right].
  eapply Permutation_in; [symmetry; apply sort_perm|exact Hb].
Qed.
End Insertion.

Lemma sort_map {A B : Type} (f : A -> B) (cA : A -> A -> Z) (cB : B -> B -> Z)
      (l : list A) :
  (forall a b, cB (f a) (f b) = cA a b) ->
  sort cB (map f l) = map f (sort cA l).
Proof.
  intros H. induction l as [|x t IH]; [reflexivity|].
  cbn [map sort fold_right]. fold (sort cB (map f t)). fold (sort cA t).
  rewrite IH. clear IH.
  induction (sort cA t) as [|y r IHr]; [reflexivity|].
  cbn [map insertSorted]. rewrite H.
  destruct (cA x y <=? 0)%Z; [reflexivity|].
  cbn [map]. now rewrite IHr.
Qed.

(** The engine used for evaluation obeys the laws. *)
Lemma insertionEngine_lawful : lawful insertionEngine.
Proof.
  constructor.
  - intros A cmp l. apply sort_perm.
  - intros A key cmp l H. cbn [arraySort insertionEngine].
    apply sort_ext. intros a b Ha Hb. now rewrite H.
  - intros A B f cmpA cmpB l H. cbn [arraySort insertionEngine].
    apply sort_map. intros a b. now rewrite H.
Qed.

(** ** Stable sorting by key *)

Section Sorting.
Context {A : Type} (key : A -> Z).

Lemma insertSorted_sorted (a : A) (l : list A) :
  StronglySorted (keyLe key) l ->
  StronglySorted (keyLe key) (insertSorted (byKey key) a l).
Proof.
  induction l as [|b t IH]; intros Hs; cbn [insertSorted].
  - repeat constructor.
  - inversion Hs as [|? ? Ht Hb]; subst.
    destruct (byKey key a b <=? 0)%Z eqn:E.
    + apply Z.leb_le in E. unfold byKey in E.
      constructor; [exact Hs|]. constructor; [unfold keyLe; lia|].
      eapply Forall_impl; [|exact Hb]. unfold keyLe. intros; lia.
    + apply Z.leb_gt in E. unfold byKey in E.
      constructor; [now apply IH|].
      eapply Permutation_Forall; [apply insertSorted_perm|].
      constructor; [unfold keyLe; lia|exact Hb].
Qed.

Lemma sort_sorted (l : list A) : StronglySorted (keyLe key) (sort (byKey key) l).
Proof.
  induction l as [|a t IH]; cbn; [constructor|]. now apply insertSorted_sorted.
Qed.

Lemma sorted_before (l1 l2 l3 : list A) (a b : A) :
  StronglySorted (keyLe key) (l1 ++ a :: l2 ++ b :: l3) -> keyLe key a b.
Proof.
  induction l1 as [|x l1 IH]; cbn [app]; intros Hs.
  - inversion Hs as [|? ? _ Hall]; subst.
    rewrite Forall_forall in Hall. apply Hall, in_or_app. right. now left.
  - inversion Hs; subst. now apply IH.
Qed.

Lemma insertSorted_stable (q : A -> bool) (a : A) (l : list A) :
  oneKey key q -> filter q (insertSorted (byKey key) a l) = filter q (a :: l).
Proof.
  intros Hq. induction l as [|b t IH]; cbn [insertSorted]; [reflexivity|].
  destruct (byKey key a b <=? 0)%Z eqn:E; [reflexivity|].
  apply Z.leb_gt in E. unfold byKey in E.
  cbn [filter] in *. rewrite IH.
  destruct (q a) eqn:Ha, (q b) eqn:Hb; try reflexivity.
  specialize (Hq a b Ha Hb). lia.
Qed.

Lemma sort_stable (q : A -> bool) (l : list A) :
  oneKey key q -> filter q (sort (byKey key) l) = filter q l.
Proof.
  intros Hq. induction l as [|a t IH]; [reflexivity|].
  cbn [sort fold_right]. rewrite insertSorted_stable by assumption.
  cbn [filter]. fold (sort (byKey key) t). now rewrite IH.
Qed.
End Sorting.

(** ** The comparator on plain severities *)

Lemma plain_severityKey (a : area) :
  existsb (String.eqb (severity a)) objectPrototypeMembers = false ->
  severityKey a = Some (codeKey a).
Proof.
  unfold codeKey, severityKey, severityOrder. intros H. rewrite H.
  destruct (String.eqb (severity a) "EXTREME"); [reflexivity|].
  destruct (String.eqb (severity a) "SEVERE"); [reflexivity|].
  destruct (String.eqb (severity a) "MODERATE"); [reflexivity|].
  destruct (String.eqb (severity a) "MINOR"); reflexivity.
Qed.

Lemma plainSeverities_In (l : list area) (a : area) :
  plainSeverities l -> In a l ->
  existsb (String.eqb (severity a)) objectPrototypeMembers = false.
Proof.
  unfold plainSeverities. rewrite forallb_forall. intros H Ha.
  apply negb_true_iff. now apply H.
Qed.

Lemma plainSeverities_incl (l1 l2 : list area) :
  incl l1 l2 -> plainSeverities l2 -> plainSeverities l1.
Proof.
  unfold plainSeverities. rewrite !forallb_forall. intros Hi H x Hx. now apply H, Hi.
Qed.

(** On a list of plain severities every engine that obeys the laws sorts
    stably by the key of the comparator. *)
Lemma sortedAreas_plain (e : Engine) (l : list area) :
  lawful e -> plainSeverities l -> sortedAreas l = sort (byKey codeKey) l.
Proof.
  intros He Hl. unfold sortedAreas.
  apply (sort_by_key e He area codeKey). intros a b Ha Hb.
  unfold compareSeverity.
  now rewrite (plain_severityKey a (plainSeverities_In l a Hl Ha)),
              (plain_severityKey b (plainSeverities_In l b Hl Hb)).
Qed.

Lemma codeKey_rank (a : area) :
  existsb (String.eqb (severity a)) objectPrototypeMembers = false ->
  isExtreme a = false ->
  codeKey a = (if (rank a =? 4)%Z then 99 else rank a)%Z /\ (1 <= rank a <= 4)%Z.
Proof.
  unfold codeKey, severityKey, severityOrder, rank, isExtreme. intros Hp He.
  rewrite He, Hp.
  destruct (String.eqb (severity a) "SEVERE"); [cbn; lia|].
  destruct (String.eqb (severity a) "MODERATE"); [cbn; lia|].
  destruct (String.eqb (severity a) "MINOR"); cbn; lia.
Qed.

Lemma codeKey_extreme (a : area) : isExtreme a = true -> codeKey a = 99%Z.
Proof.
  unfold isExtreme, codeKey, severityKey, severityOrder. intros H. now rewrite H.
Qed.

Lemma hasSeverity_oneKey (s : string) : oneKey codeKey (hasSeverity s).
Proof.
  intros x y Hx Hy. unfold hasSeverity in *.
  apply String.eqb_eq in Hx, Hy. unfold codeKey, severityKey. now rewrite Hx, Hy.
Qed.

(** On plain severities the engines agree. *)
Lemma sortedAreas_any_engine (e : Engine) (l : list area) :
  lawful e -> plainSeverities l ->
  sortedAreas (engine := e) l = sortedAreas (engine := insertionEngine) l.
Proof.
  intros He Hl.
  now rewrite (sortedAreas_plain e l He Hl),
              (sortedAreas_plain insertionEngine l insertionEngine_lawful Hl).
Qed.

(** ** Sample entries *)

(** The box test is not transitive, and an entry that is dropped still
    shadows the entries behind it: of three entries in a row only the first
    survives, although the third lies outside its box. *)
Example dedup_chain :
  uniqueAreas [chainWest; chainMiddle; chainEast] = [chainWest]
  /\ inBox chainWest chainMiddle = true
  /\ inBox chainMiddle chainEast = true
  /\ inBox chainWest chainEast = false.
Proof. repeat split; vm_compute; reflexivity. Qed.

(** A severity that names a member of [Object.prototype] has no numeric key:
    the comparator returns NaN on every pair with it, and the evaluation
    engine leaves an EXTREME entry in front of a SEVERE one. *)
Example odd_severity_breaks_order :
  severityKey oddSeverity = None
  /\ compareSeverity lateExtreme oddSeverity = None
  /\ sortedAreas (engine := insertionEngine) [lateExtreme; oddSeverity; olderStorm]
     = [lateExtreme; oddSeverity; olderStorm].
Proof. repeat split; vm_compute; reflexivity. Qed.

(** ** C3 *)

(** C3 as stated fails: a flood and an earthquake a quarter of a degree apart
    are merged although their kinds differ, and the survivor is the first of
    the two as it came, with the lower severity and its own source only. *)
Lemma C3_merge_ignores_kind_and_severity :
  inBox chennaiFlood chennaiQuake = true
  /\ uniqueAreas [chennaiFlood; chennaiQuake] = [chennaiFlood]
  /\ severity chennaiFlood = "MODERATE"%string
  /\ severity chennaiQuake = "EXTREME"%string
  /\ source chennaiFlood = "GDACS"%string.
Proof. repeat split; vm_compute; reflexivity. Qed.

(** C3, as the code has it: an entry of the combined list is kept exactly
    when no entry before it in the list, kept or dropped, has it within 0.5
    degrees in both latitude and longitude, and its own coordinates are
    numbers; kinds, severities and sources play no part.  The result is what
    is kept of the entries before it, then the entry if it is kept, then what
    is kept of the entries behind it; every entry of the result is an entry of
    the list, unchanged. *)
Theorem C3_dedup_keeps_first_in_box :
  forall (earlier later : list area) (x : area),
    uniqueAreas (earlier ++ x :: later)
    = uniqueAreas earlier
      ++ (if negb (existsb (fun a => inBox a x) earlier) && inBox x x then [x] else [])
      ++ uniqueAfter (earlier ++ [x]) later
    /\ (forall y, In y (uniqueAreas (earlier ++ x :: later)) ->
                  In y (earlier ++ x :: later)).
Proof.
  intros earlier later x. split.
  - rewrite !uniqueAreas_uniqueAfter, uniqueAfter_app. cbn [app uniqueAfter].
    destruct (negb (existsb (fun a => inBox a x) earlier) && inBox x x); reflexivity.
  - intros y. rewrite uniqueAreas_uniqueAfter. apply uniqueAfter_incl.
Qed.

(** ** C4 *)

(** C4 as stated fails within a tier: of two SEVERE entries the one issued
    earlier stays in front of the one issued later. *)
Lemma C4_older_event_stays_first :
  sortedAreas (engine := insertionEngine) [olderStorm; newerStorm]
  = [olderStorm; newerStorm]
  /\ severity olderStorm = severity newerStorm
  /\ issued olderStorm = Some 100%Z
  /\ issued newerStorm = Some 200%Z.
Proof. repeat split; vm_compute; reflexivity. Qed.

(** C4, as the code has it, for entries whose severities name no member of
    [Object.prototype] and an engine that sorts as the language prescribes:
    sorting rearranges the entries; of two entries that are not EXTREME the
    one in front has the smaller or the same rank in the order SEVERE (1),
    MODERATE (2), MINOR (3), any other severity (4); and the entries of one
    severity keep the order they had in the input: no time stamp is
    consulted. *)
Theorem C4_sorted_by_rank_and_stable :
  forall (e : Engine) (l : list area),
    lawful e ->
    plainSeverities l ->
    Permutation l (sortedAreas l)
    /\ (forall l1 a l2 b l3,
           sortedAreas l = l1 ++ a :: l2 ++ b :: l3 ->
           isExtreme a = false -> isExtreme b = false ->
           (rank a <= rank b)%Z)
    /\ (forall s, filter (hasSeverity s) (sortedAreas l) = filter (hasSeverity s) l).
Proof.
  intros e l He Hl. rewrite (sortedAreas_plain e l He Hl). split; [|split].
  - apply sort_perm.
  - intros l1 a l2 b l3 Heq Ha Hb.
    pose proof (sort_sorted codeKey l) as Hs. rewrite Heq in Hs.
    apply sorted_before in Hs. unfold keyLe in Hs.
    assert (Hin : forall x, In x (l1 ++ a :: l2 ++ b :: l3) -> In x l).
    { intros x Hx. rewrite <- Heq in Hx.
      eapply Permutation_in; [symmetry; apply sort_perm|exact Hx]. }
    assert (Hia : In a l) by (apply Hin, in_or_app; right; now left).
    assert (Hib : In b l).
    { apply Hin, in_or_app. right. right. apply in_or_app. right. now left. }
    destruct (codeKey_rank a (plainSeverities_In l a Hl Hia) Ha) as [Ka Ra].
    destruct (codeKey_rank b (plainSeverities_In l b Hl Hib) Hb) as [Kb Rb].
    rewrite Ka, Kb in Hs.
    destruct (rank a =? 4)%Z eqn:Ea, (rank b =? 4)%Z eqn:Eb; lia.
  - intros s. apply sort_stable, hasSeverity_oneKey.
Qed.

Lemma C4_sorted_by_rank_and_stable_witness :
  lawful insertionEngine
  /\ plainSeverities [watchNotice; chennaiFlood; olderStorm; newerStorm]
  /\ sortedAreas (engine := insertionEngine)
       [watchNotice; chennaiFlood; olderStorm; newerStorm]
     = [olderStorm; newerStorm; chennaiFlood; watchNotice]
  /\ filter (hasSeverity "SEVERE")
       (sortedAreas (engine := insertionEngine)
          [watchNotice; chennaiFlood; olderStorm; newerStorm])
     = filter (hasSeverity "SEVERE") [watchNotice; chennaiFlood; olderStorm; newerStorm].
Proof.
  assert (Hl : plainSeverities [watchNotice; chennaiFlood; olderStorm; newerStorm])
    by reflexivity.
  split; [exact insertionEngine_lawful|]. split; [exact Hl|].
  split; [vm_compute; reflexivity|].
  exact (proj2 (proj2 (C4_sorted_by_rank_and_stable insertionEngine _
                         insertionEngine_lawful Hl)) "SEVERE"%string).
Defined.

(** ** C5 *)

(** C5 as stated fails: the entry of the selected location survives and the
    global entry a quarter of a degree away is dropped, whichever of the two is
    the EXTREME one and whichever the SEVERE one. *)
Lemma C5_current_location_wins_dedup :
  fetchCurrentHighRiskAreas (engine := insertionEngine)
    (Some "token"%string) 9.5%float 80%float
    jaffnaSummary jaffnaAlert
    (Some {| highest_severity := "severe"; alerts := [] |})
    (Some [globalExtreme])
  = [mkArea jaffnaSummary 9.5%float 80%float "SEVERE" "Your Location"]
  /\ fetchCurrentHighRiskAreas (engine := insertionEngine)
       (Some "token"%string) 9.5%float 80%float
       jaffnaSummary jaffnaAlert
       (Some {| highest_severity := "extreme"; alerts := [] |})
       (Some [globalSevere])
     = [mkArea jaffnaSummary 9.5%float 80%float "EXTREME" "Your Location"]
  /\ inBox (mkArea jaffnaSummary 9.5%float 80%float "SEVERE" "Your Location")
           globalExtreme = true.
Proof. repeat split; vm_compute; reflexivity. Qed.

(** C5, as the code has it: when the global request succeeds, the entries of
    the selected location are put in front of the global ones and the whole
    list goes through one pipeline.  De-duplication of the location's entries
    does not depend on the global ones; a global entry survives only if it is
    outside the box of every entry of the location; and, for severities that
    name no member of [Object.prototype], among the survivors of one severity
    those of the location come first. *)
Theorem C5_current_location_first :
  forall (e : Engine) (cur glob : list area),
    lawful e ->
    (forall c t latitude longitude summaryText alertText currentReply,
        fetchCurrentHighRiskAreas (Some (String c t)) latitude longitude
          summaryText alertText currentReply (Some glob)
        = topAreas (sortedAreas (uniqueAreas
            ((if truthy latitude && truthy longitude then
                match currentReply with
                | Some data =>
                    currentLocationEntries summaryText alertText latitude longitude data
                | None => []
                end
              else []) ++ glob))))
    /\ uniqueAreas (cur ++ glob) = uniqueAreas cur ++ uniqueAfter cur glob
    /\ Forall (fun g => forall c, In c cur -> inBox c g = false) (uniqueAfter cur glob)
    /\ (plainSeverities (cur ++ glob) ->
        forall s,
          filter (hasSeverity s) (sortedAreas (uniqueAreas (cur ++ glob)))
          = filter (hasSeverity s) (uniqueAreas cur)
            ++ filter (hasSeverity s) (uniqueAfter cur glob)).
Proof.
  intros e cur glob He.
  assert (Hu : uniqueAreas (cur ++ glob) = uniqueAreas cur ++ uniqueAfter cur glob).
  { rewrite !uniqueAreas_uniqueAfter. apply uniqueAfter_app. }
  split; [reflexivity|]. split; [exact Hu|]. split; [apply uniqueAfter_far|].
  intros Hp s.
  assert (Hp' : plainSeverities (uniqueAreas (cur ++ glob))).
  { apply (plainSeverities_incl _ (cur ++ glob)); [|exact Hp].
    intros x. rewrite uniqueAreas_uniqueAfter. apply uniqueAfter_incl. }
  rewrite (sortedAreas_plain e _ He Hp'), sort_stable by apply hasSeverity_oneKey.
  now rewrite Hu, filter_app.
Qed.

Lemma C5_current_location_first_witness :
  lawful insertionEngine
  /\ uniqueAreas ([hereSevere] ++ [westModerate; eastModerate]) = [hereSevere]
  /\ uniqueAfter [hereSevere] [westModerate; eastModerate] = [].
Proof.
  split; [exact insertionEngine_lawful|].
  destruct (C5_current_location_first insertionEngine [hereSevere]
              [westModerate; eastModerate] insertionEngine_lawful)
    as (_ & Hu & _).
  split; [rewrite Hu|]; vm_compute; reflexivity.
Defined.

(** ** C6 *)

(** C6 fails on the code: the key of an EXTREME entry is [0 || 99], that is 99,
    so the entry sorts behind fifteen SEVERE ones, none of which de-duplication
    removes, and the cut drops it. *)
Theorem C6_extreme_cut_behind_severe :
  forall e : Engine,
    lawful e ->
    severityKey lateExtreme = Some 99%Z
    /\ uniqueAreas (severeRow ++ [lateExtreme]) = severeRow ++ [lateExtreme]
    /\ combineHighRisk [] (severeRow ++ [lateExtreme]) = severeRow
    /\ combineHighRisk [] (lateExtreme :: severeRow) = severeRow
    /\ existsb isExtreme (combineHighRisk [] (severeRow ++ [lateExtreme])) = false.
Proof.
  intros e He.
  assert (H1 : combineHighRisk [] (severeRow ++ [lateExtreme]) = severeRow).
  { unfold combineHighRisk.
    rewrite (sortedAreas_any_engine e _ He) by (vm_compute; reflexivity).
    vm_compute; reflexivity. }
  assert (H2 : combineHighRisk [] (lateExtreme :: severeRow) = severeRow).
  { unfold combineHighRisk.
    rewrite (sortedAreas_any_engine e _ He) by (vm_compute; reflexivity).
    vm_compute; reflexivity. }
  split; [reflexivity|]. split; [vm_compute; reflexivity|].
  split; [exact H1|]. split; [exact H2|].
  rewrite H1. vm_compute; reflexivity.
Qed.

Lemma C6_extreme_cut_behind_severe_witness :
  lawful insertionEngine
  /\ combineHighRisk (engine := insertionEngine) [] (severeRow ++ [lateExtreme])
     = severeRow.
Proof.
  split; [exact insertionEngine_lawful|].
  exact (proj1 (proj2 (proj2 (C6_extreme_cut_behind_severe insertionEngine
                                insertionEngine_lawful)))).
Defined.

(** Behind the slip the cut itself is sound: by the key the comparator
    computes, no entry that is kept ranks behind an entry that is cut. *)
Lemma sorted_app_le {A : Type} (key : A -> Z) (l1 l2 : list A) :
  StronglySorted (keyLe key) (l1 ++ l2) ->
  forall a b, In a l1 -> In b l2 -> keyLe key a b.
Proof.
  induction l1 as [|x l1 IH]; cbn [app]; intros Hs a b Ha Hb; [destruct Ha|].
  inversion Hs as [|? ? Ht Hall]; subst.
  destruct Ha as [->|Ha]; [|now apply IH].
  rewrite Forall_forall in Hall. apply Hall, in_or_app. now right.
Qed.

Lemma topAreas_cut_by_key (e : Engine) (l : list area) (a b : area) :
  lawful e -> plainSeverities l ->
  In a (topAreas (sortedAreas l)) ->
  In b (skipn 15 (sortedAreas l)) ->
  (codeKey a <= codeKey b)%Z.
Proof.
  intros He Hl Ha Hb. unfold topAreas in Ha.
  pose proof (sort_sorted codeKey l) as Hs.
  rewrite <- (sortedAreas_plain e l He Hl),
          <- (firstn_skipn 15 (sortedAreas l)) in Hs.
  exact (sorted_app_le codeKey _ _ Hs a b Ha Hb).
Qed.

(** ** C7 *)

(** C7 as stated fails: with the two sources in one order a single entry
    survives, a SEVERE one; with the sources swapped two entries survive and
    the first is a MODERATE one. *)
Lemma C7_source_order_changes_result :
  combineHighRisk (engine := insertionEngine) [hereSevere] [westModerate; eastModerate]
  = [hereSevere]
  /\ combineHighRisk (engine := insertionEngine) [westModerate; eastModerate] [hereSevere]
     = [westModerate; eastModerate]
  /\ List.length (combineHighRisk (engine := insertionEngine)
                    [hereSevere] [westModerate; eastModerate]) = 1
  /\ List.length (combineHighRisk (engine := insertionEngine)
                    [westModerate; eastModerate] [hereSevere]) = 2.
Proof. repeat split; vm_compute; reflexivity. Qed.

(** The pipeline reads coordinates and severity only, so it commutes with a
    change of the source attributions. *)
Lemma uniqueAfter_withSource (relabel : area -> string) (l : list area) :
  forall earlier,
    uniqueAfter (map (withSource relabel) earlier) (map (withSource relabel) l)
    = map (withSource relabel) (uniqueAfter earlier l).
Proof.
  induction l as [|x t IH]; intros earlier; [reflexivity|].
  cbn [map uniqueAfter].
  assert (He : existsb (fun a => inBox a (withSource relabel x))
                       (map (withSource relabel) earlier)
               = existsb (fun a => inBox a x) earlier).
  { clear. induction earlier as [|y e IHe]; [reflexivity|].
    cbn [map existsb]. now rewrite IHe. }
  rewrite He. change (inBox (withSource relabel x) (withSource relabel x)) with (inBox x x).
  specialize (IH (earlier ++ [x])). rewrite map_app in IH. cbn [map] in IH.
  rewrite IH.
  destruct (negb (existsb (fun a => inBox a x) earlier) && inBox x x); reflexivity.
Qed.

Lemma sortedAreas_withSource (e : Engine) (relabel : area -> string) (l : list area) :
  lawful e ->
  sortedAreas (map (withSource relabel) l) = map (withSource relabel) (sortedAreas l).
Proof.
  intros He. unfold sortedAreas. apply (sort_natural e He). reflexivity.
Qed.

Lemma combineHighRisk_withSource (e : Engine) (relabel : area -> string)
      (cur glob : list area) :
  lawful e ->
  combineHighRisk (map (withSource relabel) cur) (map (withSource relabel) glob)
  = map (withSource relabel) (combineHighRisk cur glob).
Proof.
  intros He. unfold combineHighRisk, topAreas.
  rewrite <- map_app, !uniqueAreas_uniqueAfter.
  pose proof (uniqueAfter_withSource relabel (cur ++ glob) []) as Hu.
  cbn [map] in Hu. rewrite Hu.
  now rewrite (sortedAreas_withSource e relabel _ He), firstn_map.
Qed.

(** C7, as the code has it: de-duplication is idempotent, a de-duplicated list
    passes through it unchanged, so count and first entry are the same; and
    the pipeline does not read the source attribution, so another attribution
    of the same entries, in the same order, gives the same entries under the
    new attribution.  The order in which the sources contribute is not part of
    the statement. *)
Theorem C7_dedup_idempotent :
  forall (e : Engine) (l : list area),
    lawful e ->
    uniqueAreas (uniqueAreas l) = uniqueAreas l
    /\ List.length (uniqueAreas (uniqueAreas l)) = List.length (uniqueAreas l)
    /\ hd_error (sortedAreas (uniqueAreas (uniqueAreas l)))
       = hd_error (sortedAreas (uniqueAreas l))
    /\ (forall (relabel : area -> string) (cur glob : list area),
           combineHighRisk (map (withSource relabel) cur) (map (withSource relabel) glob)
           = map (withSource relabel) (combineHighRisk cur glob)).
Proof.
  intros e l He.
  assert (H : uniqueAreas (uniqueAreas l) = uniqueAreas l).
  { rewrite !uniqueAreas_uniqueAfter. apply uniqueAfter_idem, incl_refl. }
  rewrite H. repeat split. intros relabel cur glob.
  now apply combineHighRisk_withSource.
Qed.

Lemma C7_dedup_idempotent_witness :
  lawful insertionEngine
  /\ uniqueAreas (uniqueAreas [westModerate; hereSevere; eastModerate])
     = uniqueAreas [westModerate; hereSevere; eastModerate].
Proof.
  split; [exact insertionEngine_lawful|].
  exact (proj1 (C7_dedup_idempotent insertionEngine
                  [westModerate; hereSevere; eastModerate] insertionEngine_lawful)).
Defined.

End HazardAlertsProps.

(* ================================================================== *)
(** * Properties of the hazard panel *)

Module WeatherMapProps.

Import WeatherMap WeatherMapSpec.

(** C8 as stated fails on the flag: after a failed request the state is the
    very state a successful request with no alerts leaves, so nothing marks
    the empty list as degraded, and the panel shows the plain "no active
    alerts" card. *)
Lemma C8_failure_indistinguishable_from_no_alerts :
  fetchHazardAlerts 9.5%float 80%float (inr networkError) signedIn
  = fetchHazardAlerts 9.5%float 80%float (inl {| top_alerts := Some [] |}) signedIn
  /\ renderHazardPanel
       (fetchHazardAlerts 9.5%float 80%float (inr networkError) signedIn)
     = NoActiveAlerts.
Proof. split; vm_compute; reflexivity. Qed.

(** C8, as the code has it: when the request for a selected point fails, the
    handler ends normally with an empty alert list and no loading flag, adds at
    most a login or permission notice and never the severe-alert one, and the
    panel shows "No active alerts for this location"; unless the status is 401
    or 403 the resulting state is the one a successful reply without alerts
    gives. *)
Theorem C8_failed_fetch_shows_no_alerts :
  forall (lat lng : float) (error : requestError) (st : state),
    HazardAlerts.truthy lat = true ->
    HazardAlerts.truthy lng = true ->
    isAuthenticated st = true ->
    hazardAlerts (fetchHazardAlerts lat lng (inr error) st) = []
    /\ alertsLoading (fetchHazardAlerts lat lng (inr error) st) = false
    /\ renderHazardPanel (fetchHazardAlerts lat lng (inr error) st) = NoActiveAlerts
    /\ (exists notices,
           toasts (fetchHazardAlerts lat lng (inr error) st) = toasts st ++ notices
           /\ forall n, ~ In (SevereAlertsFound n) notices)
    /\ (status error <> Some 401%Z -> status error <> Some 403%Z ->
        fetchHazardAlerts lat lng (inr error) st
        = fetchHazardAlerts lat lng (inl {| top_alerts := Some [] |}) st).
Proof.
  intros lat lng error st Hlat Hlng Hauth.
  unfold fetchHazardAlerts. rewrite Hlat, Hlng, Hauth. cbn [negb orb].
  destruct (statusIs error 401) eqn:H401.
  - repeat split; try reflexivity.
    + exists [PleaseLogin]. split; [reflexivity|].
      intros n [H|[]]; discriminate H.
    + intros H _. unfold statusIs in H401.
      destruct (status error) as [z|]; [|discriminate].
      apply Z.eqb_eq in H401. congruence.
  - destruct (statusIs error 403) eqn:H403.
    + destruct (nonEmpty (detail error)) as [t|]; repeat split; try reflexivity.
      * exists [Detail t]. split; [reflexivity|].
        intros n [H|[]]; discriminate H.
      * intros _ H. unfold statusIs in H403.
        destruct (status error) as [z|]; [|discriminate].
        apply Z.eqb_eq in H403. congruence.
      * exists []. split; [symmetry; apply app_nil_r|]. intros n [].
    + repeat split; try reflexivity.
      exists []. split; [symmetry; apply app_nil_r|]. intros n [].
Qed.

Lemma C8_failed_fetch_shows_no_alerts_witness :
  HazardAlerts.truthy 9.5%float = true
  /\ HazardAlerts.truthy 80%float = true
  /\ isAuthenticated signedIn = true
  /\ renderHazardPanel
       (fetchHazardAlerts 9.5%float 80%float
          (inr {| status := Some 503%Z; detail := Some "Service Unavailable"%string |})
          signedIn)
     = NoActiveAlerts.
Proof.
  assert (H1 : HazardAlerts.truthy 9.5%float = true) by (vm_compute; reflexivity).
  assert (H2 : HazardAlerts.truthy 80%float = true) by (vm_compute; reflexivity).
  assert (H3 : isAuthenticated signedIn = true) by reflexivity.
  destruct (C8_failed_fetch_shows_no_alerts 9.5%float 80%float
              {| status := Some 503%Z; detail := Some "Service Unavailable"%string |}
              signedIn H1 H2 H3) as (_ & _ & Hr & _).
  repeat split; assumption.
Defined.

End WeatherMapProps.

(* ================================================================== *)
(** * Properties of the route planner *)

Module RouteAnalysisProps.

Import RouteAnalysis RouteAnalysisSpec.

(** ** C9 *)

Lemma begin_sends (st st1 : state) (req : request) :
  analyzeRoute_begin st = (st1, Some req) ->
  st1 = notify LoadingRoute
          (setAbortController (Some (nextController st))
             (snd (newController (setAnalysisResult None (setAnalyzing true st)))))
  /\ signal req = nextController st.
Proof.
  unfold analyzeRoute_begin.
  destruct (negb (hasToken st)); [discriminate|].
  destruct (startPoint st); [|discriminate].
  destruct (endPoint st); [|discriminate].
  destruct (negb (validOf (startValidation st)) || negb (validOf (endValidation st)));
    [discriminate|].
  cbn. intros H. injection H as <- <-. split; reflexivity.
Qed.

(** C9: a run that has started and is cancelled while its request is in flight
    ends with the cancelled notices only.  The stored analysis result is empty
    from the start of the run on, after the cancellation and after the run has
    finished, whatever the server answered in the meantime; the run is no
    longer marked as analysing and holds no controller. *)
Theorem C9_cancelled_run_stores_nothing :
  forall (st st1 : state) (req : request) (server : reply string),
    analyzeRoute_begin st = (st1, Some req) ->
    analysisResult st1 = None
    /\ analysisResult (cancelAnalysis st1) = None
    /\ settle req server (cancelAnalysis st1) = inr canceledError
    /\ analysisResult
         (analyzeRoute_resume (settle req server (cancelAnalysis st1)) (cancelAnalysis st1))
       = None
    /\ analyzing
         (analyzeRoute_resume (settle req server (cancelAnalysis st1)) (cancelAnalysis st1))
       = false
    /\ abortController
         (analyzeRoute_resume (settle req server (cancelAnalysis st1)) (cancelAnalysis st1))
       = None
    /\ toasts
         (analyzeRoute_resume (settle req server (cancelAnalysis st1)) (cancelAnalysis st1))
       = toasts st ++ [LoadingRoute; CancelledSuccessfully; CancelledByUser].
Proof.
  intros st st1 req server Hb.
  apply begin_sends in Hb as [-> Hsig].
  assert (Hs : forall s, settle req s
                 (cancelAnalysis
                    (notify LoadingRoute
                       (setAbortController (Some (nextController st))
                          (snd (newController
                                  (setAnalysisResult None (setAnalyzing true st)))))))
               = inr canceledError).
  { intros s. unfold settle. cbn. rewrite Hsig, Nat.eqb_refl. reflexivity. }
  rewrite Hs. cbn. rewrite <- !app_assoc. repeat split; reflexivity.
Qed.

Lemma C9_cancelled_run_stores_nothing_witness :
  analyzeRoute_begin readyToAnalyze
  = (fst (analyzeRoute_begin readyToAnalyze), Some {| signal := 0 |})
  /\ analysisResult
       (analyzeRoute_resume
          (settle {| signal := 0 |} (inl "fresh analysis"%string)
             (cancelAnalysis (fst (analyzeRoute_begin readyToAnalyze))))
          (cancelAnalysis (fst (analyzeRoute_begin readyToAnalyze))))
     = None.
Proof.
  assert (Hb : analyzeRoute_begin readyToAnalyze
               = (fst (analyzeRoute_begin readyToAnalyze), Some {| signal := 0 |}))
    by (vm_compute; reflexivity).
  split; [exact Hb|].
  destruct (C9_cancelled_run_stores_nothing readyToAnalyze
              (fst (analyzeRoute_begin readyToAnalyze)) {| signal := 0 |}
              (inl "fresh analysis"%string) Hb) as (_ & _ & _ & Hr & _).
  exact Hr.
Defined.

(** Without a cancellation the reply of the server is what the run stores. *)
Lemma uncancelled_run_stores_reply (st st1 : state) (req : request) (data : string) :
  analyzeRoute_begin st = (st1, Some req) ->
  existsb (Nat.eqb (nextController st)) (aborted st) = false ->
  settle req (inl data) st1 = inl data
  /\ analysisResult (analyzeRoute_resume (settle req (inl data) st1) st1) = Some data.
Proof.
  intros Hb Hfresh. apply begin_sends in Hb as [-> Hsig].
  unfold settle. cbn. rewrite Hsig, Hfresh. split; reflexivity.
Qed.

(** Once a run has finished there is nothing left to cancel. *)
Lemma cancel_after_finish (st : state) (outcome : reply string) :
  cancelAnalysis (analyzeRoute_resume outcome st) = analyzeRoute_resume outcome st.
Proof. reflexivity. Qed.

(** ** C10 *)

(** C10 as stated fails on its last clause: after a validation request that
    timed out, a selection does proceed.  When the nearest-harbor request
    answers, the selection handler sets the start point to that harbor and
    stores a validation marked valid, and so does a click on the map; and the
    loader of a location handed over from the map stores the very coordinate
    when no harbor is found. *)
Lemma C10_selection_after_failed_validation :
  (startPoint (onSelectStart (Some openWater) (inr requestTimeout)
                 (inl (Some tuticorin)) nothingChosen)
   = Some {| lat := 8.75%float; lng := 78.25%float;
             name := Some "Tuticorin"%string; type := Some "harbor"%string |}
   /\ option_map is_valid
        (startValidation (onSelectStart (Some openWater) (inr requestTimeout)
                            (inl (Some tuticorin)) nothingChosen))
      = Some true)
  /\ (startPoint (setLocationAsStart openWater (inr requestTimeout)
                    (inr requestTimeout) nothingChosen)
      = Some openWater
      /\ startValidation (setLocationAsStart openWater (inr requestTimeout)
                            (inr requestTimeout) nothingChosen)
         = Some unableToValidate)
  /\ (startPoint (mapClick nothingChosen 8.5%float 78.5%float (inr requestTimeout)
                    (inl (Some tuticorin)) nothingChosen)
      = Some {| lat := 8.75%float; lng := 78.25%float;
                name := None; type := Some "harbor"%string |}
      /\ option_map is_valid
           (startValidation (mapClick nothingChosen 8.5%float 78.5%float
                               (inr requestTimeout) (inl (Some tuticorin)) nothingChosen))
         = Some true).
Proof. repeat split; vm_compute; reflexivity. Qed.

(** C10, as the code has it: when the validation request fails, the route
    planner and the harbor search box both report the coordinate as an invalid
    land location with the message "Unable to validate location. Please select
    a known harbor."  The selection handlers and the map click handler then ask
    for the nearest harbor: with none found they leave the chosen points and
    validations as they were and show the land-location error; with one found
    they select that harbor and store a validation marked valid, the selection
    handlers on their side, the map click in the first slot that was free when
    the click was made (or as a new start).  Route analysis does not start
    while a stored validation is not valid. *)
Theorem C10_failed_validation_reports_land :
  forall (error : requestError),
    validateHarborLocation (inr error) = unableToValidate
    /\ HarborSearch.validateLocation (inr error) = unableToValidate
    /\ is_valid unableToValidate = false
    /\ is_land unableToValidate = true
    /\ message unableToValidate
       = "Unable to validate location. Please select a known harbor."%string
    /\ (forall s coordinates nOutcome st,
           getNearestHarbor nOutcome = None ->
           onSelect s (Some coordinates) (inr error) nOutcome st
           = notify (CannotSelectLand (lat coordinates) (lng coordinates)) st)
    /\ (forall seen latitude longitude nOutcome st,
           getNearestHarbor nOutcome = None ->
           mapClick seen latitude longitude (inr error) nOutcome st
           = notify (CannotSelectLand latitude longitude) st)
    /\ (forall s coordinates nOutcome nearest st,
           getNearestHarbor nOutcome = Some nearest ->
           onSelect s (Some coordinates) (inr error) nOutcome st
           = notify (SnappedTo (hName nearest))
               (setValidation s (Some (snappedValidation unableToValidate nearest))
                  (setPoint s (Some {| lat := hLat nearest; lng := hLon nearest;
                                       name := Some (hName nearest);
                                       type := Some "harbor"%string |}) st)))
    /\ (forall seen latitude longitude nOutcome nearest st,
           getNearestHarbor nOutcome = Some nearest ->
           mapClick seen latitude longitude (inr error) nOutcome st
           = let snapped := {| lat := hLat nearest; lng := hLon nearest;
                               name := None; type := Some "harbor"%string |} in
             let validation := snappedValidation unableToValidate nearest in
             match startPoint seen, endPoint seen with
             | None, _ =>
                 notify (StartSnapped (hName nearest))
                   (setStartValidation (Some validation)
                      (setStartPoint (Some snapped) st))
             | Some _, None =>
                 notify (EndSnapped (hName nearest))
                   (setEndValidation (Some validation) (setEndPoint (Some snapped) st))
             | Some _, Some _ =>
                 notify StartResetSnapped
                   (setEndValidation None
                      (setStartValidation (Some validation)
                         (setEndPoint None (setStartPoint (Some snapped) st))))
             end)
    /\ (forall nearest,
           is_valid (snappedValidation unableToValidate nearest) = true
           /\ message (snappedValidation unableToValidate nearest)
              = String.append "Snapped to nearest harbor: " (hName nearest))
    /\ (forall st,
           validOf (startValidation st) = false \/ validOf (endValidation st) = false ->
           snd (analyzeRoute_begin st) = None
           /\ analyzing (fst (analyzeRoute_begin st)) = analyzing st
           /\ analysisResult (fst (analyzeRoute_begin st)) = analysisResult st).
Proof.
  intros error.
  assert (Hrefuse : forall st,
            validOf (startValidation st) = false \/ validOf (endValidation st) = false ->
            snd (analyzeRoute_begin st) = None
            /\ analyzing (fst (analyzeRoute_begin st)) = analyzing st
            /\ analysisResult (fst (analyzeRoute_begin st)) = analysisResult st).
  { intros st H. unfold analyzeRoute_begin.
    destruct (negb (hasToken st)); [repeat split|].
    destruct (startPoint st); [|repeat split].
    destruct (endPoint st); [|repeat split].
    destruct H as [H|H]; rewrite H; cbn; [|rewrite orb_true_r]; repeat split. }
  split; [reflexivity|]. split; [reflexivity|]. split; [reflexivity|].
  split; [reflexivity|]. split; [reflexivity|].
  split.
  { intros s coordinates nOutcome st Hn. unfold onSelect. cbn. now rewrite Hn. }
  split.
  { intros seen latitude longitude nOutcome st Hn. unfold mapClick. cbn. now rewrite Hn. }
  split.
  { intros s coordinates nOutcome nearest st Hn. unfold onSelect. cbn. now rewrite Hn. }
  split.
  { intros seen latitude longitude nOutcome nearest st Hn. unfold mapClick. cbn.
    rewrite Hn. reflexivity. }
  split; [intros nearest; split; reflexivity|].
  exact Hrefuse.
Qed.

End RouteAnalysisProps.

(* ================================================================== *)
(** * Further properties of the safety verdict *)

Module AIChatMoreProps.

Import AIChat AIChatSpec AIChatTerms AIChatProps.

(** Whatever a pattern returns, its continuation returned. *)
Lemma run_result_from_continuation {R : Type} (P : R -> Prop) (ic : bool) (r : regex) :
  forall (pos : nat) (s : jsstring) (c : captures)
         (k : nat -> jsstring -> captures -> option R) (v : R),
    (forall p' s' c' v', k p' s' c' = Some v' -> P v') ->
    run ic r pos s c k = Some v -> P v.
Proof.
  induction r as [| x | | | | | r1 IH1 r2 IH2 | r1 IH1 r2 IH2 | g r1 IH1 | i r1 IH1
                  | | negated items | | r1 IH1];
    intros pos s c k v Hk; cbn [run].
  - apply Hk.
  - destruct s as [|y t]; [discriminate|].
    destruct (canon ic x =? canon ic y)%N; [apply Hk|discriminate].
  - destruct s as [|y t]; [discriminate|].
    destruct (isLineTerminator y); [discriminate|apply Hk].
  - destruct s as [|y t]; [discriminate|].
    destruct (isWhiteSpace y); [apply Hk|discriminate].
  - destruct s as [|y t]; [discriminate|].
    destruct (isDigit y); [apply Hk|discriminate].
  - destruct (Nat.eqb pos 0); [apply Hk|discriminate].
  - apply IH1. intros p' s' c' v'. now apply IH2.
  - destruct (run ic r1 pos s c k) eqn:E1.
    + intros H; injection H as <-. now apply (IH1 _ _ _ _ _ Hk E1).
    + now apply IH2.
  - generalize (List.length s) as n. intros n. revert pos s c v.
    induction n as [|n IHn]; intros pos s c v; [apply Hk|].
    match goal with
    | |- context [run ic r1 pos s c ?k'] => destruct (run ic r1 pos s c k') eqn:E
    end.
    + assert (P r).
      { eapply IH1; [|exact E]. intros p' s' c' v'. cbn beta.
        destruct (Nat.eqb p' pos); [discriminate|]. apply IHn. }
      destruct g.
      * intros H'; injection H' as <-. assumption.
      * destruct (k pos s c) eqn:Ek; intros H'; injection H' as <-;
          [now apply (Hk _ _ _ _ Ek)|assumption].
    + destruct g; [apply Hk|].
      destruct (k pos s c) eqn:Ek; [|discriminate].
      intros H'; injection H' as <-. now apply (Hk _ _ _ _ Ek).
  - apply IH1. intros p' s' c' v'. apply Hk.
  - destruct s as [|y t]; [discriminate|apply Hk].
  - destruct s as [|y t]; [discriminate|].
    destruct (inClass ic negated items y); [apply Hk|discriminate].
  - destruct s as [|y t]; [apply Hk|discriminate].
  - destruct (run ic r1 pos s c (fun _ _ c' => Some c')); [apply Hk|discriminate].
Qed.

Lemma anchored_search_later (ic : bool) (r : regex) (s : jsstring) :
  forall pos, search ic (Seq Bol r) (S pos) s = None.
Proof.
  induction s as [|y t IH]; intros pos; cbn [search run Nat.eqb]; [reflexivity|].
  apply IH.
Qed.

Lemma anchored_exec_start (ic : bool) (r : regex) (s : jsstring) (m : matchResult) :
  exec ic (Seq Bol r) s = Some m -> mStart m = 0.
Proof.
  unfold exec. destruct s as [|y t]; cbn [search].
  - destruct (run ic (Seq Bol r) 0 [] [] _) eqn:E; [|discriminate].
    intros H; injection H as <-.
    eapply (run_result_from_continuation (fun v => mStart v = 0)); [|exact E].
    intros p' s' c' v' H. now injection H as <-.
  - destruct (run ic (Seq Bol r) 0 (y :: t) [] _) eqn:E.
    + intros H; injection H as <-.
      eapply (run_result_from_continuation (fun v => mStart v = 0)); [|exact E].
      intros p' s' c' v' H. now injection H as <-.
    + now rewrite anchored_search_later.
Qed.

(** X1: For a message of the advanced model the simplifier only ever cuts off the
    front of the response: the result is the response without some leading
    code units, and it is the response itself unless the response holds one of
    the two UNSAFE markers. *)
Theorem advanced_model_keeps_a_suffix :
  forall (rt : Runtime) (response modelUsed : jsstring),
    modelUsed <> js "basic" ->
    (exists n, simplifyBasicGPTResponse response modelUsed = skipn n response)
    /\ (includes response (js "Safety Status: ❌ UNSAFE") = false ->
        includes response (js "Risk Level: HIGH") = false ->
        simplifyBasicGPTResponse response modelUsed = response).
Proof.
  intros rt response modelUsed Hm.
  assert (Hb : JS.eqb modelUsed (js "basic") = false).
  { destruct (JS.eqb modelUsed (js "basic")) eqn:E; [|reflexivity].
    apply jseqb_eq in E. contradiction. }
  unfold simplifyBasicGPTResponse. rewrite Hb. cbn [negb]. split.
  - destruct (includes response (js "Safety Status: ❌ UNSAFE")
              || includes response (js "Risk Level: HIGH"));
      [|now exists 0].
    unfold removeFirst.
    destruct (exec true reMisleadingSafeHeader response) as [m|] eqn:E;
      [|now exists 0].
    apply anchored_exec_start in E. rewrite E. now exists (mEnd m).
  - intros H1 H2. now rewrite H1, H2.
Qed.

Lemma advanced_model_keeps_a_suffix_witness :
  js "advanced" <> js "basic"
  /\ simplifyBasicGPTResponse (rt := asciiRuntime)
       (js "Wind 12 kn, sea state slight") (js "advanced")
     = js "Wind 12 kn, sea state slight".
Proof.
  assert (Hne : js "advanced" <> js "basic") by (intros H; vm_compute in H; discriminate H).
  split; [exact Hne|].
  destruct (advanced_model_keeps_a_suffix asciiRuntime
              (js "Wind 12 kn, sea state slight") (js "advanced") Hne) as [_ H].
  apply H; vm_compute; reflexivity.
Defined.

(** X2: A response that reports no affecting disaster and holds, in any letter
    case, one of the five warning phrases is answered "UNSAFE - Travel not
    recommended", whatever header it opens with and whatever risk level it
    states. *)
Theorem warning_phrase_gives_unsafe :
  forall (rt : Runtime) (response : jsstring),
    disasterCount response = 0%N ->
    existsb (includesCI response) warningPhrases = true ->
    classifySafety response = js "❌ UNSAFE - Travel not recommended".
Proof.
  intros rt response Hd Hw. unfold classifySafety.
  now rewrite Hd, explicitlyUnsafe_phrases, Hw.
Qed.

Lemma warning_phrase_gives_unsafe_witness :
  disasterCount (js "✅ SAFE - Low Risk for Travel. We DO NOT RECOMMEND sailing today. Risk Level: LOW") = 0%N
  /\ classifySafety (rt := asciiRuntime)
       (js "✅ SAFE - Low Risk for Travel. We DO NOT RECOMMEND sailing today. Risk Level: LOW")
     = js "❌ UNSAFE - Travel not recommended".
Proof.
  assert (Hd : disasterCount (js "✅ SAFE - Low Risk for Travel. We DO NOT RECOMMEND sailing today. Risk Level: LOW") = 0%N)
    by (vm_compute; reflexivity).
  split; [exact Hd|].
  apply (warning_phrase_gives_unsafe asciiRuntime _ Hd). vm_compute; reflexivity.
Defined.

(** X3: Every verdict of the classifier is the active-disaster text for the count
    the response reports, one of ten fixed texts, or the "unclear" text, which
    quotes at most the first 300 code units of the response. *)
Theorem classifier_verdicts_are_known :
  forall (rt : Runtime) (response : jsstring),
    (classifySafety response = unsafeActiveDisasters (disasterCount response)
     /\ (0 < disasterCount response)%N)
    \/ In (classifySafety response) fixedVerdicts
    \/ (classifySafety response
        = js "ℹ️⚠️ Safety assessment unclear - please review details:" ++ [10; 10]%N
             ++ firstn 300 response ++ js "..."
        /\ List.length (firstn 300 response) <= 300).
Proof.
  intros rt response. unfold classifySafety.
  destruct (0 <? disasterCount response)%N eqn:Hd.
  { left. split; [reflexivity|now apply N.ltb_lt]. }
  right.
  destruct (explicitlyUnsafe response); [left; cbn; tauto|].
  destruct (mainSafetyVerdict response) as [[icon verdict]|].
  { left. destruct (headerTier icon verdict); cbn; tauto. }
  unfold riskLevelVerdict.
  destruct (hasHighRisk response); [left; cbn; tauto|].
  destruct (hasMediumRisk response).
  { left. destruct (hasDisasterKeywords response); cbn; tauto. }
  destruct (hasLowRisk response); [left; cbn; tauto|].
  unfold fallback.
  repeat match goal with
         | |- context [if ?b then _ else _] => destruct b; [left; cbn; tauto|]
         end.
  right. split; [reflexivity|apply firstn_le_length].
Qed.

(** X4: The classifier answers "SAFE - Low Risk for Travel" only for a response
    that reports no affecting disaster and holds none of the warning phrases;
    and then either the response opens with a header that reads as SAFE, or it
    has no header and states neither a HIGH nor a MEDIUM risk level. *)
Theorem safe_verdict_only_without_warnings :
  forall (rt : Runtime) (response : jsstring),
    classifySafety response = js "✅ SAFE - Low Risk for Travel" ->
    disasterCount response = 0%N
    /\ existsb (includesCI response) warningPhrases = false
    /\ match mainSafetyVerdict response with
       | Some (icon, verdict) => headerTier icon verdict = SAFE
       | None => hasHighRisk response = false /\ hasMediumRisk response = false
       end.
Proof.
  intros rt response. unfold classifySafety.
  destruct (0 <? disasterCount response)%N eqn:Hd; [intros H; discriminate H|].
  apply N.ltb_ge in Hd. rewrite <- explicitlyUnsafe_phrases.
  destruct (explicitlyUnsafe response); [intros H; discriminate H|].
  destruct (mainSafetyVerdict response) as [[icon verdict]|].
  - destruct (headerTier icon verdict); intros H;
      try (vm_compute in H; discriminate H).
    repeat split. lia.
  - unfold riskLevelVerdict.
    destruct (hasHighRisk response); [intros H; vm_compute in H; discriminate H|].
    destruct (hasMediumRisk response).
    + destruct (hasDisasterKeywords response); intros H;
        vm_compute in H; discriminate H.
    + intros _. repeat split. lia.
Qed.

Lemma safe_verdict_only_without_warnings_witness :
  classifySafety (rt := asciiRuntime) (js "Calm seas. Risk Level: LOW")
  = js "✅ SAFE - Low Risk for Travel"
  /\ disasterCount (js "Calm seas. Risk Level: LOW") = 0%N.
Proof.
  assert (H : classifySafety (rt := asciiRuntime) (js "Calm seas. Risk Level: LOW")
              = js "✅ SAFE - Low Risk for Travel") by (vm_compute; reflexivity).
  split; [exact H|].
  exact (proj1 (safe_verdict_only_without_warnings asciiRuntime _ H)).
Defined.

End AIChatMoreProps.

(* ================================================================== *)
(** * Further properties of the high-risk area pipeline *)

Module HazardAlertsMoreProps.

Import HazardAlerts HazardAlertsSpec HazardAlertsTerms HazardAlertsProps.

Lemma uniqueAfter_self (l : list area) :
  forall earlier, Forall (fun x => inBox x x = true) (uniqueAfter earlier l).
Proof.
  induction l as [|x t IH]; intros earlier; cbn [uniqueAfter]; [constructor|].
  destruct (existsb (fun a => inBox a x) earlier); cbn [negb andb]; [apply IH|].
  destruct (inBox x x) eqn:Hx; [|apply IH]. constructor; [exact Hx|apply IH].
Qed.

Lemma uniqueAfter_apart (l : list area) :
  forall earlier,
    ForallOrdPairs (fun a b => inBox a b = false) (uniqueAfter earlier l).
Proof.
  induction l as [|x t IH]; intros earlier; cbn [uniqueAfter]; [constructor|].
  destruct (negb (existsb (fun a => inBox a x) earlier) && inBox x x); [|apply IH].
  constructor; [|apply IH].
  eapply Forall_impl; [|apply (uniqueAfter_far t (earlier ++ [x]))].
  intros y Hy. apply Hy, in_or_app. right. now left.
Qed.

Lemma apart_NoDup (l : list area) :
  Forall (fun x => inBox x x = true) l ->
  ForallOrdPairs (fun a b => inBox a b = false) l ->
  NoDup l.
Proof.
  induction l as [|x t IH]; intros Hs Ha; [constructor|].
  inversion Hs as [|? ? Hx Ht]; subst. inversion Ha as [|? ? Hxt Hat]; subst.
  constructor; [|now apply IH].
  intros Hin. rewrite Forall_forall in Hxt. specialize (Hxt x Hin). congruence.
Qed.

Lemma NoDup_firstn {A : Type} (n : nat) (l : list A) : NoDup l -> NoDup (firstn n l).
Proof.
  intros H. rewrite <- (firstn_skipn n l) in H. now apply NoDup_app_remove_r in H.
Qed.

Lemma in_combineHighRisk (e : Engine) (cur glob : list area) (x : area) :
  lawful e ->
  In x (combineHighRisk cur glob) -> In x (uniqueAreas (cur ++ glob)).
Proof.
  unfold combineHighRisk, topAreas. intros He H.
  apply (In_nth_error _ _) in H as [n Hn].
  assert (Hin : In x (sortedAreas (uniqueAreas (cur ++ glob)))).
  { destruct (Nat.lt_ge_cases n 15) as [Hlt|Hge].
    - rewrite nth_error_firstn in Hn.
      destruct (Nat.ltb n 15) eqn:E; [|apply Nat.ltb_ge in E; lia].
      eapply nth_error_In; exact Hn.
    - rewrite nth_error_firstn in Hn.
      destruct (Nat.ltb n 15) eqn:E; [apply Nat.ltb_lt in E; lia|discriminate]. }
  eapply Permutation_in; [|exact Hin].
  symmetry. apply (sort_rearranges e He).
Qed.

(** X5: No two entries of the list that is shown lie in each other's box: the
    list has no repeated entry, every entry lies in its own box (its
    coordinates are numbers), and of two different entries at least one is
    outside the 0.5 degree box of the other. *)
Theorem shown_areas_are_apart :
  forall (e : Engine) (cur glob : list area),
    lawful e ->
    NoDup (combineHighRisk cur glob)
    /\ (forall x, In x (combineHighRisk cur glob) -> inBox x x = true)
    /\ (forall x y,
           In x (combineHighRisk cur glob) -> In y (combineHighRisk cur glob) ->
           x <> y -> inBox x y = false \/ inBox y x = false).
Proof.
  intros e cur glob He.
  pose proof (uniqueAfter_self (cur ++ glob) []) as Hs.
  pose proof (uniqueAfter_apart (cur ++ glob) []) as Ha.
  rewrite <- uniqueAreas_uniqueAfter in Hs, Ha.
  split; [|split].
  - unfold combineHighRisk, topAreas. apply NoDup_firstn.
    eapply Permutation_NoDup; [apply (sort_rearranges e He)|].
    now apply apart_NoDup.
  - intros x Hx. apply (in_combineHighRisk e _ _ _ He) in Hx.
    rewrite Forall_forall in Hs. now apply Hs.
  - intros x y Hx Hy Hne.
    apply (in_combineHighRisk e _ _ _ He) in Hx.
    apply (in_combineHighRisk e _ _ _ He) in Hy.
    destruct (ForallOrdPairs_In Ha x y Hx Hy) as [Hxy|[H|H]];
      [contradiction|now left|now right].
Qed.

Lemma shown_areas_are_apart_witness :
  lawful insertionEngine
  /\ NoDup (combineHighRisk (engine := insertionEngine)
              [hereSevere] [westModerate; eastModerate]).
Proof.
  split; [exact insertionEngine_lawful|].
  exact (proj1 (shown_areas_are_apart insertionEngine [hereSevere]
                  [westModerate; eastModerate] insertionEngine_lawful)).
Defined.

Lemma currentLocationEntries_length (summaryText alertText : entryText)
      (latitude longitude : float) (data : comprehensive) :
  List.length (currentLocationEntries summaryText alertText latitude longitude data) <= 2.
Proof.
  unfold currentLocationEntries.
  destruct (String.eqb (highest_severity data) "extreme"
            || String.eqb (highest_severity data) "severe"); [|cbn; lia].
  destruct (filter (fun a => String.eqb (alertSeverity a) "extreme") (alerts data));
    [|cbn; lia].
  destruct (filter (fun a => String.eqb (alertSeverity a) "severe") (alerts data));
    cbn; lia.
Qed.

(** X6: Whatever the two requests return, the list handed to the page has at most
    fifteen entries, and each of them is an entry built for the selected
    location or an entry of the global reply: nothing else is ever shown. *)
Theorem high_risk_list_is_bounded :
  forall (e : Engine) (token : option string) (latitude longitude : float)
         (summaryText alertText : entryText)
         (currentReply : option comprehensive) (globalReply : option (list area)),
    lawful e ->
    List.length (fetchCurrentHighRiskAreas token latitude longitude summaryText
                   alertText currentReply globalReply) <= 15
    /\ (forall x,
           In x (fetchCurrentHighRiskAreas token latitude longitude summaryText
                   alertText currentReply globalReply) ->
           (exists data,
               currentReply = Some data
               /\ In x (currentLocationEntries summaryText alertText
                          latitude longitude data))
           \/ (exists glob, globalReply = Some glob /\ In x glob)).
Proof.
  intros e token latitude longitude summaryText alertText currentReply globalReply He.
  unfold fetchCurrentHighRiskAreas.
  destruct token as [[|c t]|]; [cbn; split; [lia|tauto]| |cbn; split; [lia|tauto]].
  set (cur := if truthy latitude && truthy longitude
              then match currentReply with
                   | Some data =>
                       currentLocationEntries summaryText alertText latitude longitude data
                   | None => []
                   end
              else []).
  assert (Hlen : List.length cur <= 2).
  { unfold cur. destruct (truthy latitude && truthy longitude); [|cbn; lia].
    destruct currentReply; [apply currentLocationEntries_length|cbn; lia]. }
  assert (Hcur : forall x, In x cur ->
            exists data, currentReply = Some data
              /\ In x (currentLocationEntries summaryText alertText
                         latitude longitude data)).
  { unfold cur. intros x. destruct (truthy latitude && truthy longitude); [|intros []].
    destruct currentReply as [data|]; [|intros []]. intros H. now exists data. }
  destruct globalReply as [glob|].
  - split.
    + unfold combineHighRisk, topAreas. apply firstn_le_length.
    + intros x Hx. apply (in_combineHighRisk e _ _ _ He) in Hx.
      rewrite uniqueAreas_uniqueAfter in Hx. apply uniqueAfter_incl in Hx.
      apply in_app_or in Hx as [Hx|Hx]; [left; now apply Hcur|right; now exists glob].
  - assert (Hc : match cur with _ :: _ => cur | [] => [] end = cur)
      by (destruct cur; reflexivity).
    rewrite Hc. split; [lia|]. intros x Hx. left. now apply Hcur.
Qed.

Lemma high_risk_list_is_bounded_witness :
  lawful insertionEngine
  /\ List.length
       (fetchCurrentHighRiskAreas (engine := insertionEngine)
          (Some "token"%string) 9.5%float 80%float jaffnaSummary jaffnaAlert
          (Some {| highest_severity := "severe"; alerts := [] |})
          (Some (severeRow ++ [lateExtreme]))) <= 15.
Proof.
  split; [exact insertionEngine_lawful|].
  exact (proj1 (high_risk_list_is_bounded insertionEngine
                  (Some "token"%string) 9.5%float 80%float jaffnaSummary jaffnaAlert
                  (Some {| highest_severity := "severe"; alerts := [] |})
                  (Some (severeRow ++ [lateExtreme])) insertionEngine_lawful)).
Defined.

Lemma near_mkArea (t1 t2 : entryText) (latitude longitude : float)
      (s1 s2 r1 r2 : string) :
  inBox (mkArea t1 latitude longitude s1 r1) (mkArea t2 latitude longitude s2 r2)
  = ((PrimFloat.abs (latitude - latitude) <? 0.5)%float
     && (PrimFloat.abs (longitude - longitude) <? 0.5)%float).
Proof. reflexivity. Qed.

(** X7: Of the entries built for the selected location only the first, the
    summary entry, can pass de-duplication: the entry for the specific alert
    has the same coordinates and is always dropped.  It is shown only when the
    global request fails, in which case the entries are shown as built. *)
Theorem location_alert_entry_is_dropped :
  forall (e : Engine) (summaryText alertText : entryText) (latitude longitude : float)
         (data : comprehensive) (glob : list area) (c : ascii) (t : string),
    uniqueAreas (currentLocationEntries summaryText alertText latitude longitude data
                 ++ glob)
    = uniqueAreas (firstn 1 (currentLocationEntries summaryText alertText
                               latitude longitude data))
      ++ uniqueAfter (currentLocationEntries summaryText alertText
                        latitude longitude data) glob
    /\ (truthy latitude && truthy longitude = true ->
        fetchCurrentHighRiskAreas (Some (String c t)) latitude longitude
          summaryText alertText (Some data) None
        = currentLocationEntries summaryText alertText latitude longitude data).
Proof.
  intros e summaryText alertText latitude longitude data glob c t. split.
  - rewrite !uniqueAreas_uniqueAfter, uniqueAfter_app. cbn [app]. f_equal.
    unfold currentLocationEntries.
    destruct (String.eqb (highest_severity data) "extreme"
              || String.eqb (highest_severity data) "severe"); [|reflexivity].
    destruct (filter (fun a => String.eqb (alertSeverity a) "extreme") (alerts data));
      [destruct (filter (fun a => String.eqb (alertSeverity a) "severe") (alerts data));
         [reflexivity|]|];
      cbn [uniqueAfter app existsb firstn]; rewrite !near_mkArea;
      destruct ((PrimFloat.abs (latitude - latitude) <? 0.5)%float
                && (PrimFloat.abs (longitude - longitude) <? 0.5)%float);
      reflexivity.
  - intros Ht. unfold fetchCurrentHighRiskAreas. rewrite Ht.
    now destruct (currentLocationEntries summaryText alertText latitude longitude data).
Qed.

Lemma codeKey_range (a : area) :
  (codeKey a = 99 /\ severity a <> "SEVERE"%string
                  /\ severity a <> "MODERATE"%string
                  /\ severity a <> "MINOR"%string)%Z
  \/ (codeKey a < 99)%Z.
Proof.
  unfold codeKey, severityKey, severityOrder.
  destruct (String.eqb (severity a) "EXTREME") eqn:E0.
  { apply String.eqb_eq in E0. left. rewrite E0. cbn.
    repeat split; discriminate. }
  destruct (String.eqb (severity a) "SEVERE") eqn:E1; [right; cbn; lia|].
  destruct (String.eqb (severity a) "MODERATE") eqn:E2; [right; cbn; lia|].
  destruct (String.eqb (severity a) "MINOR") eqn:E3; [right; cbn; lia|].
  destruct (existsb (String.eqb (severity a)) objectPrototypeMembers);
    [right; cbn; lia|].
  left. apply String.eqb_neq in E1, E2, E3. cbn. tauto.
Qed.

(** X8: Among entries whose severities name no member of [Object.prototype],
    and with an engine that sorts as the language prescribes, an EXTREME entry
    is never in front of a SEVERE, a MODERATE or a MINOR one in the sorted
    list: its key is 99, the key of an unlisted severity. *)
Theorem extreme_is_ranked_last :
  forall (e : Engine) (l l1 l2 l3 : list area) (a b : area),
    lawful e ->
    plainSeverities l ->
    sortedAreas l = l1 ++ a :: l2 ++ b :: l3 ->
    severity a = "EXTREME"%string ->
    severity b <> "SEVERE"%string
    /\ severity b <> "MODERATE"%string
    /\ severity b <> "MINOR"%string.
Proof.
  intros e l l1 l2 l3 a b He Hl Heq Ha.
  pose proof (sort_sorted codeKey l) as Hs.
  rewrite <- (sortedAreas_plain e l He Hl), Heq in Hs. apply sorted_before in Hs.
  unfold keyLe in Hs.
  assert (Hka : codeKey a = 99%Z).
  { apply codeKey_extreme. unfold isExtreme. rewrite Ha. reflexivity. }
  destruct (codeKey_range b) as [(_ & H)|H]; [exact H|lia].
Qed.

Lemma extreme_is_ranked_last_witness :
  lawful insertionEngine
  /\ plainSeverities [lateExtreme; watchNotice; olderStorm]
  /\ sortedAreas (engine := insertionEngine) [lateExtreme; watchNotice; olderStorm]
     = [olderStorm] ++ lateExtreme :: [] ++ watchNotice :: []
  /\ severity lateExtreme = "EXTREME"%string
  /\ severity watchNotice <> "SEVERE"%string.
Proof.
  assert (Hl : plainSeverities [lateExtreme; watchNotice; olderStorm]) by reflexivity.
  assert (H1 : sortedAreas (engine := insertionEngine)
                 [lateExtreme; watchNotice; olderStorm]
               = [olderStorm] ++ lateExtreme :: [] ++ watchNotice :: [])
    by (vm_compute; reflexivity).
  assert (H2 : severity lateExtreme = "EXTREME"%string) by reflexivity.
  split; [exact insertionEngine_lawful|]. split; [exact Hl|].
  split; [exact H1|]. split; [exact H2|].
  exact (proj1 (extreme_is_ranked_last insertionEngine _ _ _ _ _ _
                  insertionEngine_lawful Hl H1 H2)).
Defined.

End HazardAlertsMoreProps.

(* ================================================================== *)
(** * Properties of the location choice of the hazard page *)

Module HazardAlertsPageProps.

Import HazardAlertsPage HazardAlertsPageTerms.

(** ** Comparisons of binary64 numbers *)

Lemma SFcompare_antisym (x y : spec_float) :
  SFcompare y x = option_map CompOpp (SFcompare x y).
Proof.
  destruct x as [sx|sx| |sx mx ex], y as [sy|sy| |sy my ey]; cbn;
    try reflexivity;
    try (destruct sx; reflexivity); try (destruct sy; reflexivity);
    try (destruct sx, sy; reflexivity).
  destruct sx, sy; cbn; try reflexivity;
    rewrite (Z.compare_antisym ex ey); destruct (ex ?= ey)%Z; cbn; try reflexivity.
  all: assert (H : PosDef.Pos.compare_cont Eq my mx
                  = CompOpp (PosDef.Pos.compare_cont Eq mx my))
         by (symmetry; exact (Pos.compare_cont_antisym mx my Eq));
       rewrite H; now destruct (PosDef.Pos.compare_cont Eq mx my).
Qed.

Lemma SFcompare_none (x y : spec_float) :
  SFcompare x y = None -> SFcompare x x = None \/ SFcompare y y = None.
Proof.
  destruct x as [sx|sx| |sx mx ex], y as [sy|sy| |sy my ey]; cbn;
    intros H; try discriminate H; auto.
Qed.

Lemma is_nan_compare (x : float) :
  is_nan x = false -> SFcompare (Prim2SF x) (Prim2SF x) <> None.
Proof.
  unfold is_nan. rewrite eqb_spec. unfold SFeqb.
  destruct (SFcompare (Prim2SF x) (Prim2SF x)); [discriminate|discriminate].
Qed.

(** Of two numbers, when the first is not below the second, the second is
    at most the first. *)
Lemma not_ltb_leb (x y : float) :
  is_nan x = false -> is_nan y = false ->
  (x <? y)%float = false -> (y <=? x)%float = true.
Proof.
  intros Hx Hy. rewrite ltb_spec, leb_spec. unfold SFltb, SFleb.
  rewrite (SFcompare_antisym (Prim2SF x) (Prim2SF y)).
  destruct (SFcompare (Prim2SF x) (Prim2SF y)) as [[| |]|] eqn:E; cbn;
    try reflexivity; try discriminate.
  apply SFcompare_none in E as [E|E]; [now apply is_nan_compare in Hx
                                      |now apply is_nan_compare in Hy].
Qed.

Lemma passes_withinOrNaN (lo x hi : float) :
  is_nan lo = false -> is_nan hi = false ->
  (x <? lo)%float = false -> (hi <? x)%float = false ->
  withinOrNaN lo x hi.
Proof.
  intros Hlo Hhi H1 H2. unfold withinOrNaN.
  destruct (is_nan x) eqn:Hx; [now left|right].
  split; now apply not_ltb_leb.
Qed.

Lemma accepted_inRange (la lo : float) (c : jsstring) :
  outOfRange la lo = false -> bothZero la lo = false ->
  inRange {| latitude := la; longitude := lo; city := c |}.
Proof.
  unfold outOfRange, bothZero, inRange. cbn [latitude longitude]. intros Ho Hz.
  apply orb_false_iff in Ho as [Ho H4]. apply orb_false_iff in Ho as [Ho H3].
  apply orb_false_iff in Ho as [H1 H2].
  split; [apply passes_withinOrNaN; try assumption; vm_compute; reflexivity|].
  split; [apply passes_withinOrNaN; try assumption; vm_compute; reflexivity|].
  exact Hz.
Qed.

(** X9: The page never takes over a coordinate that is a number outside its
    range: if the location shown has a latitude between -90 and 90 and a
    longitude between -180 and 180 (or NaN, which passes every test), not
    both zero, before a selection is handled, it has so afterwards, whatever
    the selection; and what is kept in the session storage, if anything is
    written, is the JSON text of the location shown. *)
Theorem location_stays_plausible :
  forall (selectedLocation : option selection) (st : state),
    inRange (current st) ->
    inRange (current (handleLocationSelect selectedLocation st))
    /\ (storedLocation (handleLocationSelect selectedLocation st) = storedLocation st
        \/ storedLocation (handleLocationSelect selectedLocation st)
           = Some (stringify (current (handleLocationSelect selectedLocation st)))).
Proof.
  intros [sel|] st Hp; [|cbn; tauto].
  unfold handleLocationSelect.
  destruct (selLat sel) as [la|]; [|cbn; tauto].
  destruct (orNumber (selLon sel) (selLng sel)) as [lo|]; [|cbn; tauto].
  destruct (outOfRange la lo) eqn:Ho; [cbn; tauto|].
  destruct (bothZero la lo) eqn:Hz; [cbn; tauto|].
  pose proof (fun c => accepted_inRange la lo c Ho Hz) as Hnew.
  destruct (orText (selDisplayName sel) (selName sel)) as [n|].
  - destruct (negb (includes n (js "Earthquake")) && negb (includes n (js "EXTREME:"))
              && negb (includes n (js "SEVERE:")));
      cbn [current storedLocation notify]; split; auto.
  - cbn [current storedLocation notify]. split; auto.
Qed.

Lemma location_stays_plausible_witness :
  inRange (current freshPage)
  /\ inRange (current (handleLocationSelect (Some namelessPoint) freshPage))
  /\ latitude (current (handleLocationSelect (Some namelessPoint) freshPage))
     = 8.5%float.
Proof.
  assert (H : inRange (current freshPage)).
  { split; [right; split; vm_compute; reflexivity|].
    split; [right; split; vm_compute; reflexivity|vm_compute; reflexivity]. }
  split; [exact H|].
  split; [exact (proj1 (location_stays_plausible (Some namelessPoint) freshPage H))|].
  reflexivity.
Defined.

(** A latitude that is not a number passes the checks and is stored as
    null. *)
Example nan_latitude_is_stored_as_null :
  is_nan (latitude (current (handleLocationSelect (Some latitudeNaN) freshPage))) = true
  /\ option_map jsonLatitude
       (storedLocation (handleLocationSelect (Some latitudeNaN) freshPage))
     = Some None.
Proof. split; vm_compute; reflexivity. Qed.

(** X10: A selection whose [lon] is zero (or not a number) and that has no [lng]
    is turned down as having no coordinates, whatever its latitude: a place on
    the prime meridian cannot be chosen in this form. *)
Theorem zero_lon_counts_as_missing :
  forall (sel : selection) (lon : float) (st : state),
    selLon sel = Some lon ->
    HazardAlerts.truthy lon = false ->
    selLng sel = None ->
    handleLocationSelect (Some sel) st = notify InvalidLocationData st.
Proof.
  intros sel lon st Hlon Ht Hlng. unfold handleLocationSelect, orNumber.
  rewrite Hlon, Ht, Hlng. now destruct (selLat sel).
Qed.

Lemma zero_lon_counts_as_missing_witness :
  selLon greenwich = Some 0%float
  /\ HazardAlerts.truthy 0%float = false
  /\ selLng greenwich = None
  /\ current (handleLocationSelect (Some greenwich) freshPage) = defaultLocation.
Proof.
  assert (H1 : selLon greenwich = Some 0%float) by reflexivity.
  assert (H2 : HazardAlerts.truthy 0%float = false) by (vm_compute; reflexivity).
  assert (H3 : selLng greenwich = None) by reflexivity.
  split; [exact H1|]. split; [exact H2|]. split; [exact H3|].
  now rewrite (zero_lon_counts_as_missing greenwich 0%float freshPage H1 H2 H3).
Defined.

(** X11: A selection that passes the checks is always taken over: the location
    shown gets the selected coordinates, its JSON text is written to the
    session storage (a coordinate that is NaN or infinite as null, a zero as
    0), and the dialog is closed.  The notice that follows is "Failed to
    update location" exactly when [display_name || name] is [null] or
    [undefined]. *)
Theorem accepted_selection_is_stored :
  forall (sel : selection) (la lo : float) (st : state),
    selLat sel = Some la ->
    orNumber (selLon sel) (selLng sel) = Some lo ->
    outOfRange la lo = false ->
    bothZero la lo = false ->
    latitude (current (handleLocationSelect (Some sel) st)) = la
    /\ longitude (current (handleLocationSelect (Some sel) st)) = lo
    /\ storedLocation (handleLocationSelect (Some sel) st)
       = Some {| jsonLatitude :=
                   if is_nan la || is_infinity la then None
                   else if (la =? 0)%float then Some 0%float else Some la;
                 jsonLongitude :=
                   if is_nan lo || is_infinity lo then None
                   else if (lo =? 0)%float then Some 0%float else Some lo;
                 jsonCity := city (current (handleLocationSelect (Some sel) st)) |}
    /\ isLocationModalOpen (handleLocationSelect (Some sel) st) = false
    /\ (toasts (handleLocationSelect (Some sel) st) = toasts st ++ [FailedToUpdate]
        <-> orText (selDisplayName sel) (selName sel) = None).
Proof.
  intros sel la lo st Hla Hlo Ho Hz. unfold handleLocationSelect.
  rewrite Hla, Hlo, Ho, Hz.
  destruct (orText (selDisplayName sel) (selName sel)) as [n|].
  - destruct (negb (includes n (js "Earthquake")) && negb (includes n (js "EXTREME:"))
              && negb (includes n (js "SEVERE:")));
      cbn [current storedLocation notify isLocationModalOpen toasts latitude longitude];
      (split; [reflexivity|]); (split; [reflexivity|]); (split; [reflexivity|]);
      (split; [reflexivity|]); (split; [|discriminate]); intros H.
    + apply app_inv_head in H. discriminate H.
    + apply (f_equal (@List.length toast)) in H. rewrite length_app in H.
      cbn in H. lia.
  - cbn [current storedLocation notify isLocationModalOpen toasts latitude longitude].
    repeat split; reflexivity.
Qed.

Lemma accepted_selection_is_stored_witness :
  selLat namelessPoint = Some 8.5%float
  /\ orNumber (selLon namelessPoint) (selLng namelessPoint) = Some 81.25%float
  /\ outOfRange 8.5%float 81.25%float = false
  /\ bothZero 8.5%float 81.25%float = false
  /\ latitude (current (handleLocationSelect (Some namelessPoint) freshPage)) = 8.5%float
  /\ toasts (handleLocationSelect (Some namelessPoint) freshPage) = [FailedToUpdate].
Proof.
  assert (H1 : selLat namelessPoint = Some 8.5%float) by reflexivity.
  assert (H2 : orNumber (selLon namelessPoint) (selLng namelessPoint) = Some 81.25%float)
    by (vm_compute; reflexivity).
  assert (H3 : outOfRange 8.5%float 81.25%float = false) by (vm_compute; reflexivity).
  assert (H4 : bothZero 8.5%float 81.25%float = false) by (vm_compute; reflexivity).
  destruct (accepted_selection_is_stored namelessPoint 8.5%float 81.25%float freshPage
              H1 H2 H3 H4) as (Hla & _ & _ & _ & Ht).
  split; [exact H1|]. split; [exact H2|]. split; [exact H3|]. split; [exact H4|].
  split; [exact Hla|]. apply Ht. reflexivity.
Defined.

End HazardAlertsPageProps.

(* ================================================================== *)
(** * Further properties of the route planner *)

Module RouteAnalysisMoreProps.

Import RouteAnalysis RouteAnalysisSpec RouteAnalysisTerms.

Lemma vouched_placeOnMap (seen : state) (p : point) (v : validation)
      (t1 t2 t3 : toast) (st : state) :
  is_valid v = true -> vouched st -> vouched (placeOnMap seen p v t1 t2 t3 st).
Proof.
  intros Hv [Hs He]. unfold placeOnMap.
  destruct (startPoint seen); [destruct (endPoint seen)|];
    split; cbn; intros H; try exact Hv; try (now apply Hs); try (now apply He);
    try congruence.
Qed.

Lemma vouched_setSide (s : side) (p : point) (v : validation) (st : state) :
  is_valid v = true -> vouched st ->
  vouched (setValidation s (Some v) (setPoint s (Some p) st)).
Proof.
  intros Hv [Hs He]. destruct s; split; cbn; intros H;
    try exact Hv; try (now apply Hs); try (now apply He).
Qed.

Lemma vouched_notify (t : toast) (st : state) : vouched st -> vouched (notify t st).
Proof. intros H. exact H. Qed.

Lemma vouched_rejectSelection (v : validation) (lat lng : float) (st : state) :
  vouched st -> vouched (rejectSelection v lat lng st).
Proof.
  intros H. unfold rejectSelection.
  destruct (is_land v); [destruct (nearest_harbor v)|]; exact H.
Qed.

Lemma vouched_setLocationAs (s : side) (coordinates : point)
      (vOutcome : reply validation) (nOutcome : reply (option harbor)) (st : state) :
  is_valid (validateHarborLocation vOutcome) = true
  \/ getNearestHarbor nOutcome <> None ->
  vouched st -> vouched (setLocationAs s coordinates vOutcome nOutcome st).
Proof.
  intros Ha H. unfold setLocationAs.
  destruct (is_valid (validateHarborLocation vOutcome)) eqn:Hv; cbn [negb].
  - now apply vouched_setSide.
  - destruct (getNearestHarbor nOutcome).
    + now apply vouched_setSide.
    + destruct Ha as [Ha|Ha]; [discriminate|contradiction].
Qed.

Lemma vouched_act (st : state) (a : action) :
  accepted a -> vouched st -> vouched (act st a).
Proof.
  intros Ha H. destruct a as [s [c|] v n | seen la lo v n | seen c v n]; cbn [act].
  - unfold onSelect.
    destruct (is_valid (validateHarborLocation v)) eqn:Hv; cbn [negb].
    + apply vouched_notify, vouched_setSide; assumption.
    + destruct (getNearestHarbor n).
      * apply vouched_notify, vouched_setSide; [reflexivity|assumption].
      * now apply vouched_rejectSelection.
  - destruct H as [Hs He]. destruct s; split; cbn; intros H';
      try congruence; try (now apply Hs); try (now apply He).
  - unfold mapClick.
    destruct (is_valid (validateHarborLocation v)) eqn:Hv; cbn [negb].
    + now apply vouched_placeOnMap.
    + destruct (getNearestHarbor n).
      * now apply vouched_placeOnMap.
      * now apply vouched_rejectSelection.
  - unfold loadHandedOver. cbn [accepted] in Ha.
    destruct (startPoint seen); [destruct (endPoint seen)|].
    + exact H.
    + now apply vouched_notify, vouched_setLocationAs.
    + now apply vouched_notify, vouched_setLocationAs.
Qed.

(** X12: Whatever selections and map clicks are made, in whatever order their
    handlers finish and whatever render each click began in, and whatever the
    harbor requests answer, every point that is chosen carries a validation
    marked valid, as long as every location handed over by the weather map is
    accepted by the harbor service or snapped to a harbor; so with a token and
    both points chosen, route analysis is not refused for an invalid harbor:
    the request is sent.  A location handed over that is neither accepted nor
    snapped is stored as it came with its invalid validation. *)
Theorem selections_are_always_vouched :
  forall (actions : list action) (st : state),
    vouched st ->
    Forall accepted actions ->
    vouched (fold_left act actions st)
    /\ (hasToken (fold_left act actions st) = true ->
        startPoint (fold_left act actions st) <> None ->
        endPoint (fold_left act actions st) <> None ->
        snd (analyzeRoute_begin (fold_left act actions st))
        = Some {| signal := nextController (fold_left act actions st) |})
    /\ (forall seen coordinates vOutcome nOutcome,
           startPoint seen = None ->
           is_valid (validateHarborLocation vOutcome) = false ->
           getNearestHarbor nOutcome = None ->
           startPoint (act (fold_left act actions st)
                           (HandOver seen coordinates vOutcome nOutcome))
           = Some coordinates
           /\ validOf (startValidation
                         (act (fold_left act actions st)
                              (HandOver seen coordinates vOutcome nOutcome)))
              = false).
Proof.
  intros actions st Hst Hacc.
  assert (Hv : vouched (fold_left act actions st)).
  { revert st Hst. induction Hacc as [|a l Ha Hl IH]; intros st Hst; [exact Hst|].
    cbn [fold_left]. apply IH. now apply vouched_act. }
  split; [exact Hv|]. split.
  - intros Ht Hs He. destruct Hv as [Hvs Hve].
    unfold analyzeRoute_begin. rewrite Ht. cbn [negb].
    destruct (startPoint (fold_left act actions st)); [|contradiction].
    destruct (endPoint (fold_left act actions st)); [|contradiction].
    rewrite Hvs, Hve by discriminate. reflexivity.
  - intros seen coordinates vOutcome nOutcome Hs Hinv Hn.
    cbn [act]. unfold loadHandedOver, setLocationAsStart, setLocationAs.
    rewrite Hs, Hinv, Hn. cbn. rewrite Hinv. split; reflexivity.
Qed.

Lemma selections_are_always_vouched_witness :
  vouched nothingChosen
  /\ Forall accepted
       [HandOver nothingChosen openWater (inr requestTimeout) (inl (Some tuticorin));
        Click nothingChosen 8.5%float 78.5%float (inr requestTimeout)
              (inl (Some tuticorin));
        Select End_ (Some chennai) (inl validHarbor) (inr requestTimeout)]
  /\ snd (analyzeRoute_begin
            (fold_left act
               [HandOver nothingChosen openWater (inr requestTimeout)
                         (inl (Some tuticorin));
                Click nothingChosen 8.5%float 78.5%float (inr requestTimeout)
                      (inl (Some tuticorin));
                Select End_ (Some chennai) (inl validHarbor) (inr requestTimeout)]
               nothingChosen))
     = Some {| signal := 0 |}.
Proof.
  assert (H : vouched nothingChosen) by (split; intros H; now contradiction H).
  assert (Ha : Forall accepted
            [HandOver nothingChosen openWater (inr requestTimeout)
                      (inl (Some tuticorin));
             Click nothingChosen 8.5%float 78.5%float (inr requestTimeout)
                   (inl (Some tuticorin));
             Select End_ (Some chennai) (inl validHarbor) (inr requestTimeout)]).
  { constructor; [right; discriminate|]. constructor; [exact I|].
    constructor; [exact I|constructor]. }
  split; [exact H|]. split; [exact Ha|].
  destruct (selections_are_always_vouched _ nothingChosen H Ha) as (_ & Hb & _).
  apply Hb; [reflexivity|discriminate|discriminate].
Defined.

(** X13: A run that is not cancelled ends with the run no longer marked as
    analysing and no controller held; it stores the reply of the server when
    there is one, and nothing when the request failed, so that the result of
    an earlier analysis is gone after a failed run.  The chosen points are not
    touched. *)
Theorem finished_run_stores_reply_or_nothing :
  forall (st st1 : state) (req : request) (server : reply string),
    controllersKnown st ->
    analyzeRoute_begin st = (st1, Some req) ->
    analyzing (analyzeRoute_resume (settle req server st1) st1) = false
    /\ abortController (analyzeRoute_resume (settle req server st1) st1) = None
    /\ analysisResult (analyzeRoute_resume (settle req server st1) st1)
       = match server with inl data => Some data | inr _ => None end
    /\ startPoint (analyzeRoute_resume (settle req server st1) st1) = startPoint st
    /\ endPoint (analyzeRoute_resume (settle req server st1) st1) = endPoint st.
Proof.
  intros st st1 req server Hk Hb.
  apply RouteAnalysisProps.begin_sends in Hb as [-> Hsig].
  assert (Hfresh : existsb (Nat.eqb (nextController st)) (aborted st) = false).
  { destruct (existsb (Nat.eqb (nextController st)) (aborted st)) eqn:E; [|reflexivity].
    apply existsb_exists in E as (c & Hc & Heq). apply Nat.eqb_eq in Heq.
    unfold controllersKnown in Hk. rewrite Forall_forall in Hk.
    specialize (Hk c Hc). lia. }
  unfold settle. cbn [aborted notify setAbortController newController snd
                      setAnalysisResult setAnalyzing].
  rewrite Hsig, Hfresh.
  destruct server as [data|e]; [cbn; repeat split|].
  unfold analyzeRoute_resume.
  destruct (String.eqb (errName e) "AbortError" || String.eqb (errName e) "CanceledError");
    [cbn; repeat split|].
  destruct (codeIs e "ECONNABORTED" || codeIs e "TIMEOUT"); [cbn; repeat split|].
  destruct (statusIs e 500); cbn; repeat split.
Qed.

Lemma finished_run_stores_reply_or_nothing_witness :
  controllersKnown readyToAnalyze
  /\ analyzeRoute_begin readyToAnalyze
     = (fst (analyzeRoute_begin readyToAnalyze), Some {| signal := 0 |})
  /\ analysisResult
       (analyzeRoute_resume
          (settle {| signal := 0 |} (inr requestTimeout)
             (fst (analyzeRoute_begin readyToAnalyze)))
          (fst (analyzeRoute_begin readyToAnalyze)))
     = None.
Proof.
  assert (Hk : controllersKnown readyToAnalyze) by constructor.
  assert (Hb : analyzeRoute_begin readyToAnalyze
               = (fst (analyzeRoute_begin readyToAnalyze), Some {| signal := 0 |}))
    by (vm_compute; reflexivity).
  split; [exact Hk|]. split; [exact Hb|].
  destruct (finished_run_stores_reply_or_nothing readyToAnalyze
              (fst (analyzeRoute_begin readyToAnalyze)) {| signal := 0 |}
              (inr requestTimeout) Hk Hb) as (_ & _ & Hr & _).
  exact Hr.
Defined.

(** X14: An analysis that is refused sends nothing and changes nothing but the
    notice shown: the login notice without a token, else the notice to select
    both harbors when one is missing, else the notice that both must be valid
    harbors.  In particular the result of an earlier analysis stays. *)
Theorem refused_analysis_only_notifies :
  forall (st : state),
    snd (analyzeRoute_begin st) = None ->
    fst (analyzeRoute_begin st)
    = notify (if negb (hasToken st) then LoginFirst
              else match startPoint st, endPoint st with
                   | Some _, Some _ => MustBeValidHarbors
                   | _, _ => SelectBoth
                   end) st
    /\ analysisResult (fst (analyzeRoute_begin st)) = analysisResult st
    /\ (hasToken st = false
        \/ startPoint st = None \/ endPoint st = None
        \/ validOf (startValidation st) = false
        \/ validOf (endValidation st) = false).
Proof.
  intros st. unfold analyzeRoute_begin.
  destruct (hasToken st); cbn [negb]; [|intros _; cbn; tauto].
  destruct (startPoint st); [|intros _; cbn; tauto].
  destruct (endPoint st); [|intros _; cbn; tauto].
  destruct (validOf (startValidation st)); cbn [negb orb]; [|intros _; cbn; tauto].
  destruct (validOf (endValidation st)); cbn [negb]; [|intros _; cbn; tauto].
  cbn. discriminate.
Qed.

Lemma refused_analysis_only_notifies_witness :
  snd (analyzeRoute_begin nothingChosen) = None
  /\ fst (analyzeRoute_begin nothingChosen) = notify SelectBoth nothingChosen.
Proof.
  assert (H : snd (analyzeRoute_begin nothingChosen) = None) by reflexivity.
  split; [exact H|].
  exact (proj1 (refused_analysis_only_notifies nothingChosen H)).
Defined.

End RouteAnalysisMoreProps.

(* ================================================================== *)
(** * Properties of the search box *)

Module SearchBoxProps.

Import RouteAnalysis SearchBox SearchBoxTerms.

Lemma highlight_step (st : state) (e : event) :
  highlightInRange st -> highlightInRange (step st e).
Proof.
  intros [Hlo Hhi].
  destruct e as [text| |outcome| |k|n|n| |]; cbn [step].
  - split; assumption.
  - unfold queryEffect, searchHarbors_begin.
    destruct (2 <=? List.length (query st)); [split; assumption|].
    split; cbn; [assumption|congruence].
  - destruct outcome as [found|error]; split; cbn; try assumption; try congruence;
      intros; lia.
  - unfold onFocus. destruct (2 <=? List.length (query st)); split; assumption.
  - unfold handleKeyDown.
    destruct (negb (isOpen st) || (List.length (results st) =? 0)) eqn:Hg;
      [split; assumption|].
    apply orb_false_iff in Hg as [_ Hn]. apply Nat.eqb_neq in Hn.
    assert (Hne : results st <> [])
      by (destruct (results st); [contradiction|discriminate]).
    specialize (Hhi Hne).
    destruct k.
    + destruct (selectedIndex st <? Z.of_nat (List.length (results st)) - 1)%Z eqn:E;
        split; cbn; intros; lia.
    + destruct (0 <? selectedIndex st)%Z eqn:E; split; cbn; intros; lia.
    + destruct ((0 <=? selectedIndex st)
                && (selectedIndex st <? Z.of_nat (List.length (results st))))%Z;
        [|split; intros; assumption].
      destruct (nth_error (results st) (Z.to_nat (selectedIndex st)));
        split; cbn; intros; try lia; assumption.
    + split; cbn; intros; lia.
    + split; intros; assumption.
  - unfold rowMouseEnter.
    destruct (rowsShown st && (n <? List.length (results st))) eqn:Hg;
      [|split; assumption].
    apply andb_true_iff in Hg as [_ Hn]. apply Nat.ltb_lt in Hn.
    split; cbn; intros; lia.
  - unfold rowClick. destruct (rowsShown st); [|split; assumption].
    destruct (nth_error (results st) n); [|split; assumption].
    split; cbn; intros; lia.
  - split; cbn; intros; lia.
  - split; cbn; [lia|congruence].
Qed.

(** X15: Whatever is typed, pressed, clicked or answered by the search request,
    the highlighted row is either none or a row of the current result list. *)
Theorem highlight_stays_in_range :
  forall (value : jsstring) (selectedLocation : option harborResult)
         (events : list event),
    highlightInRange (fold_left step events (initial value selectedLocation)).
Proof.
  intros value selectedLocation events.
  assert (H0 : highlightInRange (initial value selectedLocation))
    by (split; cbn; [lia|congruence]).
  revert H0. generalize (initial value selectedLocation) as st.
  induction events as [|e l IH]; intros st H; [exact H|].
  cbn [fold_left]. apply IH. now apply highlight_step.
Qed.

(** X16: A key press hands at most one harbor to the parent component, and only
    on Enter, with the list open and a row highlighted (the index is at least
    0 and below the length of the list): the harbor is the entry of the
    result list at the highlighted index; the list is then closed, the
    highlight removed, and the input shows the harbor's name. *)
Theorem keyboard_selects_listed_harbor :
  forall (k : key) (st : state),
    handedOver (handleKeyDown k st) = handedOver st
    \/ (k = Enter /\ isOpen st = true
        /\ (0 <= selectedIndex st < Z.of_nat (List.length (results st)))%Z
        /\ exists harbor,
             nth_error (results st) (Z.to_nat (selectedIndex st)) = Some harbor
             /\ In harbor (results st)
             /\ handedOver (handleKeyDown k st)
                = handedOver st ++ [Some (coordinatesOf harbor)]
             /\ isOpen (handleKeyDown k st) = false
             /\ selectedIndex (handleKeyDown k st) = (-1)%Z
             /\ query (handleKeyDown k st) = rName harbor).
Proof.
  intros k st. unfold handleKeyDown.
  destruct (isOpen st) eqn:Ho; cbn [negb orb]; [|now left].
  destruct (List.length (results st) =? 0); [now left|].
  destruct k; try (now left).
  destruct ((0 <=? selectedIndex st)
            && (selectedIndex st <? Z.of_nat (List.length (results st))))%Z eqn:Hr;
    [|now left].
  destruct (nth_error (results st) (Z.to_nat (selectedIndex st))) as [harbor|] eqn:E;
    [|now left].
  apply andb_true_iff in Hr as [Hr1 Hr2].
  right. split; [reflexivity|]. split; [reflexivity|]. split; [lia|].
  exists harbor. split; [reflexivity|]. split; [eapply nth_error_In; exact E|].
  cbn. repeat split.
Qed.

End SearchBoxProps.

(* ================================================================== *)
(** * Properties of the assistant chat of the weather map *)

Module WeatherMapChatProps.

Import WeatherMap WeatherMapChat WeatherMapChatTerms.

Lemma dropWhile_head (p : N -> bool) (s : jsstring) :
  match dropWhile p s with [] => True | c :: _ => p c = false end.
Proof.
  induction s as [|c t IH]; cbn; [exact I|].
  destruct (p c) eqn:E; [exact IH|exact E].
Qed.

Lemma dropWhile_fixed (p : N -> bool) (s : jsstring) :
  match s with [] => True | c :: _ => p c = false end -> dropWhile p s = s.
Proof. destruct s as [|c t]; cbn; [reflexivity|]. now intros ->. Qed.

Lemma dropWhile_suffix (p : N -> bool) (s : jsstring) :
  exists dropped, s = dropped ++ dropWhile p s.
Proof.
  induction s as [|c t [d IH]]; cbn; [now exists []|].
  destruct (p c); [|now exists []].
  exists (c :: d). cbn. now f_equal.
Qed.

Lemma blank_isWhiteSpace (c : N) : blank c = isWhiteSpace c.
Proof.
  unfold blank, blanks, isWhiteSpace. cbn [existsb].
  repeat match goal with
         | |- context [(c =? ?k)%N] =>
             destruct (N.eqb_spec c k) as [->|?]; [reflexivity|]
         end.
  cbn [orb]. symmetry. rewrite !orb_false_r.
  destruct (N.leb_spec 8192 c); [|reflexivity].
  destruct (N.leb_spec c 8202); [lia|reflexivity].
Qed.

(** A trimmed text has no white space at either end. *)
Lemma trim_clean (s : jsstring) : startsClean (trim s) /\ startsClean (rev (trim s)).
Proof.
  unfold trim.
  set (y := dropWhile isWhiteSpace s).
  assert (Hy : match y with [] => True | c :: _ => isWhiteSpace c = false end)
    by apply dropWhile_head.
  set (z := dropWhile isWhiteSpace (rev y)).
  assert (Hz : match z with [] => True | c :: _ => isWhiteSpace c = false end)
    by apply dropWhile_head.
  split.
  - destruct (dropWhile_suffix isWhiteSpace (rev y)) as [d Hd].
    fold z in Hd.
    assert (Hyz : y = rev z ++ rev d)
      by (rewrite <- rev_app_distr, <- Hd, rev_involutive; reflexivity).
    unfold startsClean. destruct (rev z) as [|c t] eqn:E; [exact I|].
    rewrite Hyz in Hy. rewrite blank_isWhiteSpace. exact Hy.
  - rewrite rev_involutive. unfold startsClean.
    destruct z as [|c t]; [exact I|]. rewrite blank_isWhiteSpace. exact Hz.
Qed.

Lemma chat_step (st : state) (e : event) :
  exists added,
    chatMessages (step st e) = chatMessages st ++ added
    /\ Forall wellFormed added
    /\ List.length (filter isAssistant added) = (if isAnswered e then 1 else 0).
Proof.
  destruct e as [typed|now|now outcome]; cbn [step isAnswered].
  - exists []. cbn. rewrite app_nil_r. repeat split. constructor.
  - unfold sendChatMessage_begin.
    destruct (trim (chatInput st)) as [|c t] eqn:E.
    + exists []. cbn. rewrite app_nil_r. repeat split. constructor.
    + destruct (isAuthenticated st); cbn [negb fst].
      * exists [{| msgRole := User; text := c :: t; ts := now |}].
        split; [reflexivity|]. split; [|reflexivity].
        constructor; [|constructor]. split; cbn [text msgRole]; [discriminate|].
        intros _. rewrite <- E. apply trim_clean.
      * exists []. cbn. rewrite app_nil_r. repeat split. constructor.
  - unfold sendChatMessage_resume. destruct outcome as [response|err].
    + eexists [_]. split; [reflexivity|]. split; [|reflexivity].
      constructor; [|constructor]. split; cbn [text msgRole]; [|discriminate].
      destruct response as [[|c t]|]; try discriminate; vm_compute; discriminate.
    + exists [{| msgRole := Assistant; text := couldNotProcess; ts := now |}].
      split.
      * destruct (if statusIs err 403 then nonEmpty (detail err) else None);
          [reflexivity|].
        destruct (statusIs err 401); reflexivity.
      * split; [|reflexivity].
        constructor; [|constructor]. split; cbn [text msgRole]; [|discriminate].
        vm_compute; discriminate.
Qed.

(** X17: However typing, sending and answers interleave, the transcript only
    grows; every entry added has text, and the first and the last code unit
    of a user's entry are no white space; and exactly one assistant entry is
    added per answer or failure of the request, so an exchange that was
    started is never left without a reply line. *)
Theorem transcript_only_grows :
  forall (events : list event) (st : state),
  exists added,
    chatMessages (fold_left step events st) = chatMessages st ++ added
    /\ Forall wellFormed added
    /\ List.length (filter isAssistant added)
       = List.length (filter isAnswered events).
Proof.
  induction events as [|e l IH]; intros st.
  - exists []. cbn. rewrite app_nil_r. repeat split. constructor.
  - cbn [fold_left].
    destruct (chat_step st e) as (a1 & H1 & F1 & C1).
    destruct (IH (step st e)) as (a2 & H2 & F2 & C2).
    exists (a1 ++ a2). split; [|split].
    + rewrite H2, H1, app_assoc. reflexivity.
    + apply Forall_app. split; assumption.
    + rewrite filter_app, length_app, C1, C2. cbn [filter].
      destruct (isAnswered e); reflexivity.
Qed.

Lemma logged_out_step (st : state) (e : event) :
  isAuthenticated st = false -> isAnswered e = false ->
  isAuthenticated (step st e) = false
  /\ chatMessages (step st e) = chatMessages st
  /\ match e with
     | Sent now => snd (sendChatMessage_begin now st) = None
     | _ => True
     end.
Proof.
  intros H Ha. destruct e as [typed|now|now outcome]; [| |discriminate].
  - repeat split. exact H.
  - cbn [step]. unfold sendChatMessage_begin.
    destruct (trim (chatInput st)); [repeat split; exact H|].
    rewrite H. repeat split. exact H.
Qed.

(** X18: While the visitor is not logged in, no amount of typing and sending
    posts a message to the server or changes the transcript. *)
Theorem logged_out_chat_sends_nothing :
  forall (events : list event) (st : state),
    isAuthenticated st = false ->
    forallb (fun e => negb (isAnswered e)) events = true ->
    posted events st = []
    /\ chatMessages (fold_left step events st) = chatMessages st.
Proof.
  induction events as [|e l IH]; intros st H Hev; [split; reflexivity|].
  cbn [forallb] in Hev. apply andb_true_iff in Hev as [He Hl].
  apply negb_true_iff in He.
  destruct (logged_out_step st e H He) as (H1 & H2 & H3).
  destruct (IH (step st e) H1 Hl) as [P1 P2].
  cbn [posted fold_left]. rewrite P1, P2, H2, app_nil_r. split; [|reflexivity].
  destruct e as [typed|now|now outcome]; try reflexivity. now rewrite H3.
Qed.

Lemma logged_out_chat_sends_nothing_witness :
  posted [Typed (js "Any storm near Galle?"); Sent 5%N; Sent 9%N] visitor = [].
Proof.
  exact (proj1 (logged_out_chat_sends_nothing
                  [Typed (js "Any storm near Galle?"); Sent 5%N; Sent 9%N] visitor
                  eq_refl eq_refl)).
Defined.

End WeatherMapChatProps.

(* ================================================================== *)
(** * Properties of the hazard alert card *)

Module HazardAlertsCardProps.

Import HazardAlertsCard HazardAlertsCardTerms.

Lemma jsstring_eqb_refl (a : jsstring) : JS.eqb a a = true.
Proof. induction a as [|x a IH]; cbn; [reflexivity|]. now rewrite N.eqb_refl. Qed.

Lemma filter_nil_Forall {A : Type} (f : A -> bool) (l : list A) :
  filter f l = [] -> Forall (fun a => f a = false) l.
Proof.
  induction l as [|a l IH]; cbn; [constructor|].
  destruct (f a) eqn:E; [discriminate|]. intros H. constructor; auto.
Qed.

Section Card.

Context {runtime : Runtime} {numbers : Numbers}.

Lemma isSevere_extremeOrSevere (a : alert) : isSevere a = extremeOrSevere a.
Proof.
  unfold isSevere, severityIs, extremeOrSevere. now destruct (severity a).
Qed.

Lemma filter_isSevere (l : list alert) : filter isSevere l = filter extremeOrSevere l.
Proof. apply filter_ext, isSevere_extremeOrSevere. Qed.

(** X19: When an answer is stored, the notice shown with it (if any) speaks of
    the very list that is now displayed: the severe count is the number of
    displayed alerts whose severity is the text extreme or the text severe,
    and is positive; the plain count is the length of a list without such
    alerts; and safe conditions are announced only over an empty list. *)
Theorem notice_speaks_of_shown_alerts :
  forall (c : closure) (now : N) (d : data) (st : state),
  exists note,
    toasts (fetchHazardAlerts_resume c now (inl d) st) = toasts st ++ note
    /\ noticeFits note (shown (fetchHazardAlerts_resume c now (inl d) st)).
Proof.
  intros c now d st. exists (notice c (allAlertsOf d)).
  split; [reflexivity|].
  cbn [fetchHazardAlerts_resume setLoading shown].
  unfold notice. rewrite filter_isSevere.
  destruct (negb (seenIsFirstLoad c) && _); [|exact I].
  destruct (0 <? List.length (filter extremeOrSevere (allAlertsOf d))) eqn:Es.
  - apply Nat.ltb_lt in Es. split; [reflexivity|exact Es].
  - apply Nat.ltb_ge in Es.
    assert (Hnil : filter extremeOrSevere (allAlertsOf d) = [])
      by (destruct (filter extremeOrSevere (allAlertsOf d));
          [reflexivity|cbn in Es; lia]).
    destruct (0 <? List.length (allAlertsOf d)) eqn:Ea.
    + apply Nat.ltb_lt in Ea. split; [reflexivity|]. split; [exact Ea|].
      now apply filter_nil_Forall.
    + apply Nat.ltb_ge in Ea.
      destruct (allAlertsOf d); [reflexivity|cbn in Ea; lia].
Qed.

(** What a load or a refresh that sends its request sees and leaves. *)
Lemma reload_sent (manual : bool) (storage : string -> option string) (p : props)
  (now : N) (outcome : data + WeatherMap.requestError) (st : state) :
  HazardAlerts.truthy (latitude p) = true ->
  HazardAlerts.truthy (longitude p) = true ->
  exists st1 c,
    reload manual storage p now outcome st = fetchHazardAlerts_resume c now outcome st1
    /\ toasts st1 = toasts st
    /\ seenProps c = p
    /\ seenIsFirstLoad c = isFirstLoad st
    /\ seenPreviousLocation c = previousLocation st
    /\ previousLocation st1 = previousLocation st
    /\ isFirstLoad st1 = (if manual then false else isFirstLoad st).
Proof.
  intros Hlat Hlon.
  destruct manual; cbn [reload]; unfold refresh, load, handleManualRefresh,
    fetchHazardAlerts_begin; rewrite Hlat, Hlon; cbn [negb orb];
    eexists; eexists; (split; [reflexivity|]); repeat split.
Qed.

Lemma reload_not_sent (manual : bool) (storage : string -> option string) (p : props)
  (now : N) (outcome : data + WeatherMap.requestError) (st : state) :
  HazardAlerts.truthy (latitude p) && HazardAlerts.truthy (longitude p) = false ->
  toasts (reload manual storage p now outcome st) = toasts st
  /\ previousLocation (reload manual storage p now outcome st) = previousLocation st.
Proof.
  intros H.
  assert (Hg : negb (HazardAlerts.truthy (latitude p))
               || negb (HazardAlerts.truthy (longitude p)) = true).
  { destruct (HazardAlerts.truthy (latitude p)); [|reflexivity].
    destruct (HazardAlerts.truthy (longitude p)); [discriminate|reflexivity]. }
  destruct manual; cbn [reload]; unfold refresh, load, handleManualRefresh,
    fetchHazardAlerts_begin; rewrite Hg; split; reflexivity.
Qed.

Lemma notice_length (c : closure) (l : list alert) :
  seenIsFirstLoad c = false -> seenPreviousLocation c = None ->
  List.length (notice c l) = 1.
Proof.
  intros H1 H2. unfold notice. rewrite H1, H2. cbn [negb andb].
  destruct (0 <? List.length (filter isSevere l)); [reflexivity|].
  destruct (0 <? List.length l); reflexivity.
Qed.

(** X20: For loads that are answered before anything else happens to the
    card, by the effect or by the refresh button: the first load is silent;
    and after a load that was answered with data, loading the same
    coordinates again (under whatever city name, with whatever outcome) adds
    no notice.  A notice can come without a change of place: when the first
    load and a refresh have both failed, the next load, answered with data,
    announces its result. *)
Theorem reload_of_same_place_is_silent :
  forall (storage storage' storage'' : string -> option string) (p : props)
         (city' : option jsstring) (now now' now'' : N) (d : data)
         (outcome outcome' : data + WeatherMap.requestError)
         (err err' : WeatherMap.requestError) (manual manual' : bool) (st : state),
    toasts (load storage p now outcome initial) = []
    /\ toasts (reload manual' storage' (renamed p city') now' outcome'
                 (reload manual storage p now (inl d) st))
       = toasts (reload manual storage p now (inl d) st)
    /\ (HazardAlerts.truthy (latitude p) = true ->
        HazardAlerts.truthy (longitude p) = true ->
        List.length
          (toasts (load storage'' p now'' (inl d)
                     (refresh storage' p now' (inr err')
                        (load storage p now (inr err) initial))))
        = 1).
Proof.
  intros storage storage' storage'' p city' now now' now'' d outcome outcome'
         err err' manual manual' st.
  split; [|split].
  - unfold load, fetchHazardAlerts_begin.
    destruct (negb (HazardAlerts.truthy (latitude p))
              || negb (HazardAlerts.truthy (longitude p))); [reflexivity|].
    destruct outcome; reflexivity.
  - set (st2 := reload manual storage p now (inl d) st).
    destruct (HazardAlerts.truthy (latitude p) && HazardAlerts.truthy (longitude p))
      eqn:Ht.
    + apply andb_true_iff in Ht as [Hlat Hlon].
      assert (Hst2 : previousLocation st2 = Some (currentLocationKey p)).
      { unfold st2.
        destruct (reload_sent manual storage p now (inl d) st Hlat Hlon)
          as (st1 & c & -> & _ & Hp & _).
        cbn [fetchHazardAlerts_resume setLoading previousLocation]. now rewrite Hp. }
      destruct (reload_sent manual' storage' (renamed p city') now' outcome' st2
                  Hlat Hlon) as (st3 & c & -> & Ht3 & Hp & _ & Hprev & _).
      destruct outcome' as [d'|e]; [|exact Ht3].
      cbn [fetchHazardAlerts_resume setLoading toasts].
      assert (Hn : notice c (allAlertsOf d') = []).
      { unfold notice. rewrite Hprev, Hst2, Hp.
        change (currentLocationKey (renamed p city')) with (currentLocationKey p).
        rewrite jsstring_eqb_refl. cbn [negb]. now rewrite andb_false_r. }
      rewrite Hn, app_nil_r. exact Ht3.
    + apply (reload_not_sent manual' storage' (renamed p city')). exact Ht.
  - intros Hlat Hlon.
    destruct (reload_sent false storage p now (inr err) initial Hlat Hlon)
      as (st1 & c1 & E1 & T1 & _ & _ & _ & P1 & F1).
    cbn [reload] in E1. rewrite E1.
    set (s1 := fetchHazardAlerts_resume c1 now (inr err) st1).
    assert (Hs1 : toasts s1 = [] /\ previousLocation s1 = None).
    { unfold s1. cbn [fetchHazardAlerts_resume setLoading setRefreshing toasts
                      previousLocation]. now rewrite T1, P1. }
    destruct (reload_sent true storage' p now' (inr err') s1 Hlat Hlon)
      as (st2 & c2 & E2 & T2 & _ & _ & _ & P2 & F2).
    cbn [reload] in E2. rewrite E2.
    set (s2 := fetchHazardAlerts_resume c2 now' (inr err') st2).
    assert (Hs2 : toasts s2 = [] /\ previousLocation s2 = None
                  /\ isFirstLoad s2 = false).
    { unfold s2. cbn [fetchHazardAlerts_resume setLoading setRefreshing toasts
                      previousLocation isFirstLoad].
      rewrite T2, P2, F2. now destruct Hs1 as [-> ->]. }
    destruct (reload_sent false storage'' p now'' (inl d) s2 Hlat Hlon)
      as (st3 & c3 & E3 & T3 & _ & Hf & Hp & _).
    cbn [reload] in E3. rewrite E3.
    cbn [fetchHazardAlerts_resume setLoading toasts].
    destruct Hs2 as (Ht2 & Hp2 & Hf2).
    rewrite T3, Ht2. cbn [app].
    apply notice_length; congruence.
Qed.

End Card.

End HazardAlertsCardProps.

(* ================================================================== *)
(** * Properties of the dashboard *)

Module DashboardProps.

Import RouteAnalysis Dashboard.

Section Cards.

Context {numbers : HazardAlertsCard.Numbers}.

Lemma displayName_not_empty (l : option savedLocation) :
  getDisplayLocationName l <> [].
Proof.
  destruct l as [l|]; [|vm_compute; discriminate].
  unfold getDisplayLocationName, marineName.
  assert (Hm : forall x y : jsstring, js "Marine Location " ++ x ++ y <> [])
    by (intros x y; change (js "Marine Location ")
                      with (77%N :: tl (js "Marine Location ")); discriminate).
  destruct (name l) as [[|c t]|].
  - destruct (latitude l) as [la|], (longitude l) as [lo|];
      try (vm_compute; discriminate).
    destruct (HazardAlerts.truthy la && HazardAlerts.truthy lo);
      [apply Hm|vm_compute; discriminate].
  - destruct (negb (isPrefix (js "Location ") (c :: t))); [discriminate|].
    destruct (latitude l) as [la|], (longitude l) as [lo|]; try discriminate.
    destruct (HazardAlerts.truthy la && HazardAlerts.truthy lo);
      [apply Hm|discriminate].
  - destruct (latitude l) as [la|], (longitude l) as [lo|];
      try (vm_compute; discriminate).
    destruct (HazardAlerts.truthy la && HazardAlerts.truthy lo);
      [apply Hm|vm_compute; discriminate].
Qed.

Lemma weatherCards_spec (weatherReply : nat -> reply HazardAlertsCard.json)
  (locations : list savedLocation) (i : nat) :
  map location (weatherCards weatherReply i locations) = locations
  /\ Forall (fun c => displayName c <> []) (weatherCards weatherReply i locations)
  /\ forall k l, nth_error locations k = Some l ->
       exists c, nth_error (weatherCards weatherReply i locations) k = Some c
                 /\ location c = l
                 /\ weatherData c
                    = match weatherReply (i + k) with
                      | inl weather => weather
                      | inr _ => HazardAlertsCard.JNull
                      end.
Proof.
  revert i. induction locations as [|l rest IH]; intros i; cbn [weatherCards map].
  - split; [reflexivity|]. split; [constructor|]. intros [|k] x; discriminate.
  - destruct (IH (S i)) as (H1 & H2 & H3). split; [now rewrite H1|].
    split; [constructor; [apply displayName_not_empty|exact H2]|].
    intros [|k] x Hk; cbn in Hk.
    + injection Hk as <-. eexists. split; [reflexivity|]. split; [reflexivity|].
      cbn [weatherData]. now rewrite Nat.add_0_r.
    + destruct (H3 k x Hk) as (c & Hc & Hl & Hw). exists c.
      split; [exact Hc|]. split; [exact Hl|].
      now rewrite <- Nat.add_succ_comm.
Qed.

(** X21: Once the list of saved locations has loaded, the dashboard holds exactly
    one card per saved location, in the saved order and with a title that is
    never empty; the card of index [k] holds the body of the weather reply of
    that location, and null when that request failed; and this is so whether
    or not the alert history could be loaded. *)
Theorem every_saved_location_gets_a_card :
  forall (locations : list savedLocation)
         (weatherReply : nat -> reply HazardAlertsCard.json)
         (alertsReply : reply (list HazardAlertsCard.json)) (st : state),
    let cards :=
      locationsWithWeather
        (fetchDashboardData (inl locations) weatherReply alertsReply st) in
    map location cards = locations
    /\ Forall (fun c => displayName c <> []) cards
    /\ forall k l, nth_error locations k = Some l ->
         exists c, nth_error cards k = Some c
                   /\ location c = l
                   /\ weatherData c
                      = match weatherReply k with
                        | inl weather => weather
                        | inr _ => HazardAlertsCard.JNull
                        end.
Proof.
  intros locations weatherReply alertsReply st cards.
  assert (Hc : cards = weatherCards weatherReply 0 locations)
    by (unfold cards; destruct alertsReply; reflexivity).
  rewrite Hc. exact (weatherCards_spec weatherReply locations 0).
Qed.

End Cards.

End DashboardProps.
